(** * Crop-yield data processing: field and weather pipelines

    A shallow embedding of [data_processing/field_data_processor.py] and
    [data_processing/weather_data_processor.py], with the parts of Python
    and pandas that the two classes rely on.

    Conventions of the embedding.
    - A method of a class is a computation in the monad [M S], where [S] is
      the record of the instance attributes: it takes the object, and gives
      back either a value or a raised exception, together with the object as
      the method left it (attribute assignments made before an exception
      stay).
    - [None] where a DataFrame is expected is [None] of [option DataFrame].
    - A float64 number is represented by the rational it denotes ([Qc]).
      Operations that are exact on float64 ([abs], negation, comparison) are
      defined; the one that rounds, [mean], is a parameter ([Float64]).
    - [NaN] and [None] in a cell are both [VNull], as pandas treats both as
      missing.  A column has the dtype that pandas infers from such cells
      ([dtype_of]): integers alone make an int64 column, floats with or
      without missing cells a float64 column (missing is [NaN]), anything
      else an object column (missing is [None]).
    - Equality of cell values and labels is Leibniz equality: an integer and
      a float of the same magnitude are different values.  Where pandas
      compares by magnitude (the keys of a merge) the model says so
      ([same_key]).
    - [self.logger] is represented by the list of calls made on it (level
      and message); what the logging library does with a call (level
      filter, disabled flag, handlers) is not represented. *)

From Stdlib Require Import ZArith QArith Qcanon Ascii.
From stdpp Require Import base decidable option list strings numbers sorting.



(** ** Python values, exceptions and dictionaries *)

(** What a cell of a table, or a label of a row or column, can hold. *)
Inductive value : Type :=
  | VNull
  | VInt (z : Z)
  | VFloat (q : Qc)
  | VStr (s : string).

#[global] Instance value_eq_dec : EqDecision value.
Proof. solve_decision. Defined.

#[global] Instance value_inhabited : Inhabited value := populate VNull.

(** The exception classes that can leave the two classes.  [OtherError] is
    any class that is not a built-in one (for instance what a collaborator
    raises), named by its class name. *)
Inductive exn : Type :=
  | StopIteration
  | ValueError
  | TypeError
  | KeyError
  | IndexError
  | AttributeError
  | OtherError (cls : string).

#[global] Instance exn_eq_dec : EqDecision exn.
Proof. solve_decision. Defined.

Inductive result (A : Type) : Type :=
  | Ok (a : A)
  | Raise (e : exn).
Arguments Ok {A} a.
Arguments Raise {A} e.

#[global] Instance result_eq_dec `{EqDecision A} : EqDecision (result A).
Proof. solve_decision. Defined.

(** A method on an object of attributes [S]. *)
Definition M (S A : Type) : Type := S → result A * S.

#[global] Instance M_ret {S} : MRet (M S) := λ A a st, (Ok a, st).
#[global] Instance M_bind {S} : MBind (M S) := λ A B f m st,
  match m st with
  | (Ok a, st') => f a st'
  | (Raise e, st') => (Raise e, st')
  end.

Definition raise {S A} (e : exn) : M S A := λ st, (Raise e, st).
Definition get_self {S} : M S S := λ st, (Ok st, st).
(** A call that does not touch the object: its exception, if any, is raised
    in the caller. *)
Definition call {S A} (r : result A) : M S A := λ st, (r, st).

(** A Python [dict]: the items in insertion order, keys pairwise distinct. *)
Definition py_dict (K V : Type) : Type := list (K * V).

Section py_dict.
Context {K V : Type} `{EqDecision K}.

Fixpoint dict_lookup (d : py_dict K V) (k : K) : option V :=
  match d with
  | [] => None
  | (k', v) :: d' => if decide (k' = k) then Some v else dict_lookup d' k
  end.

(** [d.get(k, default)] *)
Definition dict_get (d : py_dict K V) (k : K) (default : V) : V :=
  from_option id default (dict_lookup d k).

(** [d[k] = v]: an existing key keeps its place. *)
Fixpoint dict_set (d : py_dict K V) (k : K) (v : V) : py_dict K V :=
  match d with
  | [] => [(k, v)]
  | (k', v') :: d' =>
      if decide (k' = k) then (k', v) :: d' else (k', v') :: dict_set d' k v
  end.

Definition dict_keys (d : py_dict K V) : list K := d.*1.
Definition dict_values (d : py_dict K V) : list V := d.*2.
Definition dict_items (d : py_dict K V) : list (K * V) := d.
End py_dict.

(** [l[0]] on a Python list. *)
Definition list_item0 {A} (l : list A) : result A :=
  match l with
  | [] => Raise IndexError
  | x :: _ => Ok x
  end.

(** ** Logging *)

Inductive level : Type := DEBUG | INFO | WARNING.

#[global] Instance level_eq_dec : EqDecision level.
Proof. solve_decision. Defined.

Definition log_record : Type := level * string.

(** ** pandas: Series and DataFrame *)

Definition label : Type := value.
Definition Series : Type := list value.

(** A DataFrame: the row labels, and the columns in order, each with its
    label and its cells (one per row). *)
Record DataFrame : Type := mkDataFrame {
  index : list label;
  frame : list (label * Series)
}.

#[global] Instance DataFrame_eq_dec : EqDecision DataFrame.
Proof. solve_decision. Defined.

(** [df.columns] *)
Definition columns (d : DataFrame) : list label := (frame d).*1.

(** [range(n)] as an index. *)
Definition RangeIndex (n : nat) : list label := (λ i, VInt (Z.of_nat i)) <$> seq 0 n.

(** [df.rename(columns=mapper)]: every label that is a key of [mapper] is
    replaced by its image, all at once; keys that are no label are ignored. *)
Definition df_rename (mapper : py_dict label label) (d : DataFrame) : DataFrame :=
  {| index := index d;
     frame := (λ cs : label * Series, (dict_get mapper cs.1 cs.1, cs.2)) <$> frame d |}.

(** [df[c]] for a frame whose labels are pairwise distinct. *)
Definition df_getitem (c : label) (d : DataFrame) : result Series :=
  match dict_lookup (frame d) c with
  | Some s => Ok s
  | None => Raise KeyError
  end.

(** [df[c] = s] with [s] of the frame's length: an existing column is
    replaced where it stands, a new one is added last. *)
Definition df_setitem (c : label) (s : Series) (d : DataFrame) : DataFrame :=
  {| index := index d; frame := dict_set (frame d) c s |}.

(** [df.drop(columns=c)] *)
Definition df_drop (c : label) (d : DataFrame) : result DataFrame :=
  if decide (c ∈ columns d)
  then Ok {| index := index d;
             frame := filter (λ cs : label * Series, cs.1 ≠ c) (frame d) |}
  else Raise KeyError.

#[global] Instance result_ret : MRet result := λ A a, Ok a.
#[global] Instance result_bind : MBind result := λ A B f r,
  match r with
  | Ok a => f a
  | Raise e => Raise e
  end.

(** The first exception of a run of element-wise results, or all of them. *)
Fixpoint sequence {A} (l : list (result A)) : result (list A) :=
  match l with
  | [] => Ok []
  | r :: l' => a ← r; as' ← sequence l'; Ok (a :: as')
  end.

(** *** The dtype of a column *)

Definition int64_min : Z := (- 2 ^ 63)%Z.
Definition int64_max : Z := (2 ^ 63 - 1)%Z.

Definition is_int64 (v : value) : Prop :=
  match v with
  | VInt z => (int64_min ≤ z ≤ int64_max)%Z
  | _ => False
  end.

Definition is_float (v : value) : Prop :=
  match v with
  | VFloat _ => True
  | _ => False
  end.

Definition is_str (v : value) : Prop :=
  match v with
  | VStr _ => True
  | _ => False
  end.

Definition float_or_missing (v : value) : Prop :=
  match v with
  | VFloat _ | VNull => True
  | _ => False
  end.

Definition str_or_missing (v : value) : Prop :=
  match v with
  | VStr _ | VNull => True
  | _ => False
  end.

#[global] Instance is_int64_dec v : Decision (is_int64 v).
Proof. destruct v; simpl; apply _. Defined.
#[global] Instance is_float_dec v : Decision (is_float v).
Proof. destruct v; simpl; apply _. Defined.
#[global] Instance is_str_dec v : Decision (is_str v).
Proof. destruct v; simpl; apply _. Defined.
#[global] Instance float_or_missing_dec v : Decision (float_or_missing v).
Proof. destruct v; simpl; apply _. Defined.
#[global] Instance str_or_missing_dec v : Decision (str_or_missing v).
Proof. destruct v; simpl; apply _. Defined.

Inductive dtype : Type := int64 | float64 | object.

#[global] Instance dtype_eq_dec : EqDecision dtype.
Proof. solve_decision. Defined.

(** A column that pandas holds as int64: integers of 64 bits, and no
    missing cell. *)
Definition int64_column (s : Series) : Prop := s ≠ [] ∧ Forall is_int64 s.

(** A column that pandas holds as float64: floats, with [NaN] where a cell
    is missing. *)
Definition float64_column (s : Series) : Prop :=
  Forall float_or_missing s ∧ Exists is_float s.

(** A column of text: strings, with [None] or [NaN] where a cell is
    missing. *)
Definition text_column (s : Series) : Prop :=
  Forall str_or_missing s ∧ Exists is_str s.

#[global] Instance int64_column_dec s : Decision (int64_column s).
Proof. unfold int64_column. apply _. Defined.
#[global] Instance float64_column_dec s : Decision (float64_column s).
Proof. unfold float64_column. apply _. Defined.
#[global] Instance text_column_dec s : Decision (text_column s).
Proof. unfold text_column. apply _. Defined.

Definition dtype_of (s : Series) : dtype :=
  if decide (int64_column s) then int64
  else if decide (float64_column s) then float64
  else object.

(** A column of numbers, int64 or float64; a column without rows counts
    as one. *)
Definition numeric_column (s : Series) : Prop :=
  Forall is_int64 s ∨ float64_column s.

(** A column of one kind: integers, floats or strings, the last two with
    or without missing cells.  These are the columns that pandas reads
    from a CSV file or from a query. *)
Definition plain_column (s : Series) : Prop :=
  Forall is_int64 s ∨ Forall float_or_missing s ∨ Forall str_or_missing s.

#[global] Instance numeric_column_dec s : Decision (numeric_column s).
Proof. unfold numeric_column. apply _. Defined.
#[global] Instance plain_column_dec s : Decision (plain_column s).
Proof. unfold plain_column. apply _. Defined.

(** [abs] on a float. *)
Definition Qcabs (q : Qc) : Qc := if decide (q < 0)%Qc then (- q)%Qc else q.

(** [abs] on an int64: the least integer has no opposite and is left as
    it is. *)
Definition int64_abs (z : Z) : Z := if decide (z = int64_min) then z else Z.abs z.

(** [abs] on one cell of a column of dtype [t].  In an int64 column it is
    the machine operation; in a float64 column a missing cell is [NaN] and
    stays; in an object column it is Python's [abs] on the object in the
    cell, which raises on [None] and on a string. *)
Definition value_abs (t : dtype) (v : value) : result value :=
  match v with
  | VNull =>
      match t with
      | float64 => Ok VNull
      | _ => Raise TypeError
      end
  | VInt z =>
      match t with
      | int64 => Ok (VInt (int64_abs z))
      | _ => Ok (VInt (Z.abs z))
      end
  | VFloat q => Ok (VFloat (Qcabs q))
  | VStr _ => Raise TypeError
  end.

(** [s.abs()] *)
Definition series_abs (s : Series) : result Series :=
  sequence (value_abs (dtype_of s) <$> s).

(** [s.apply(f)] for an [f] that does not raise. *)
Definition series_apply (f : value → value) (s : Series) : Series := f <$> s.

(** Two keys that a merge takes for the same: the same value, or the same
    number held as an integer on one side and as a float on the other
    (pandas brings both key columns to float64; the comparison here is on
    the magnitudes, which is the same thing up to 2^53).  Missing keys
    match each other. *)
Definition same_key (a b : value) : Prop :=
  match a, b with
  | VInt x, VFloat y => Qc_of_Z x = y
  | VFloat x, VInt y => x = Qc_of_Z y
  | _, _ => a = b
  end.

#[global] Instance same_key_dec : RelDecision same_key.
Proof. intros [] []; simpl; apply _. Defined.

(** The positions of [keys] that hold the key [k]. *)
Definition key_positions (k : value) (keys : Series) : list nat :=
  (filter (λ jk : nat * value, same_key k jk.2) (imap pair keys)).*1.

(** The rows of a left join: every position of the left keys, in order,
    paired with each matching position of the right keys, or with none. *)
Definition join_rows (lk rk : Series) : list (nat * option nat) :=
  mjoin (imap (λ i k, match key_positions k rk with
                      | [] => [(i, None)]
                      | js => (λ j, (i, Some j)) <$> js
                      end) lk).

Definition take_left (s : Series) (ps : list (nat * option nat)) : Series :=
  (λ p : nat * option nat, s !!! p.1) <$> ps.

(** An integer as a float (exact up to 2^53 in magnitude). *)
Definition to_float (v : value) : value :=
  match v with
  | VInt z => VFloat (Qc_of_Z z)
  | _ => v
  end.

(** The cells of a column of the right table along the rows of the join.
    A row without a match gets a missing cell; an int64 column cannot hold
    one, and becomes a float64 column when there is such a row. *)
Definition take_right (s : Series) (ps : list (nat * option nat)) : Series :=
  let cells := (λ p : nat * option nat, from_option (λ j, s !!! j) VNull p.2) <$> ps in
  if decide (int64_column s ∧ Exists (λ p : nat * option nat, p.2 = None) ps)
  then to_float <$> cells
  else cells.

(** The suffix pandas gives to a label that both sides of a merge carry;
    labels are strings in every table of this program. *)
Definition add_suffix (sfx : string) (c : label) : label :=
  match c with
  | VStr s => VStr (s +:+ sfx)
  | _ => c
  end.

(** Key columns that pandas refuses to merge on: numbers on one side and
    text on the other. *)
Definition keys_clash (lk rk : Series) : Prop :=
  ((int64_column lk ∨ float64_column lk) ∧ text_column rk)
  ∨ (text_column lk ∧ (int64_column rk ∨ float64_column rk)).

#[global] Instance keys_clash_dec lk rk : Decision (keys_clash lk rk).
Proof. unfold keys_clash. apply _. Defined.

(** [l.merge(r, on=key, how='left')] *)
Definition df_merge_left (key : label) (l r : DataFrame) : result DataFrame :=
  lk ← df_getitem key l;
  rk ← df_getitem key r;
  if decide (keys_clash lk rk) then Raise ValueError else
  let ps := join_rows lk rk in
  let overlap c := bool_decide (c ≠ key ∧ c ∈ columns l ∧ c ∈ columns r) in
  Ok {| index := RangeIndex (length ps);
        frame :=
          ((λ cs : label * Series,
              (if overlap cs.1 then add_suffix "_x" cs.1 else cs.1,
               take_left cs.2 ps)) <$> frame l)
          ++ ((λ cs : label * Series,
                 (if overlap cs.1 then add_suffix "_y" cs.1 else cs.1,
                  take_right cs.2 ps))
                <$> filter (λ cs : label * Series, cs.1 ≠ key) (frame r)) |}.

(** What exchanging the names [a] and [b] does to a label [c]. *)
Definition swap_label (a b c : label) : label :=
  if decide (c = a) then b else if decide (c = b) then a else c.

(** The table [d] with the names [a] and [b] exchanged. *)
Definition df_swap_labels (a b : label) (d : DataFrame) : DataFrame :=
  {| index := index d;
     frame := (λ cs : label * Series, (swap_label a b cs.1, cs.2)) <$> frame d |}.

(** What [rename(columns={column1: temp_name, column2: column1})] followed
    by [rename(columns={temp_name: column2})] makes of one label. *)
Definition renamed (column1 column2 temp_name : string) (c : label) : label :=
  let c' := dict_get (dict_set (dict_set [] (VStr column1) (VStr temp_name))
                               (VStr column2) (VStr column1)) c c in
  dict_get (dict_set [] (VStr temp_name) (VStr column2)) c' c'.

(** [abs] on a cell of a numeric column: an int64, a float, or [NaN]. *)
Definition cell_abs (v : value) : value :=
  match v with
  | VInt z => VInt (int64_abs z)
  | VFloat q => VFloat (Qcabs q)
  | _ => v
  end.

(** A cell that holds a number or nothing. *)
Definition not_text (v : value) : Prop :=
  match v with
  | VStr _ => False
  | _ => True
  end.

#[global] Instance not_text_dec v : Decision (not_text v).
Proof. destruct v; simpl; apply _. Defined.

(** Labels that are strings of at least [n] characters: the names that a
    probe for an unused name, [n] characters long by now, can still run
    into. *)
Definition at_least (n : nat) (c : label) : Prop :=
  match c with
  | VStr s => (n ≤ String.length s)%nat
  | _ => False
  end.

#[global] Instance at_least_dec n c : Decision (at_least n c).
Proof. destruct c; simpl; apply _. Defined.

(** ** The ingestion collaborators

    [data_processing.data_ingestion] is imported by both classes; its three
    functions are parameters of the development.  Each may raise. *)
Class DataIngestion : Type := {
  Engine : Type;
  create_db_engine : string → result Engine;
  query_data : Engine → string → result DataFrame;
  read_from_web_CSV : string → result DataFrame
}.

(** ** field_data_processor.py *)

Module FieldDataProcessor.
Section methods.
Context `{DataIngestion}.

(** The instance attributes set by [__init__]. *)
Record self : Type := mk {
  db_path : string;
  sql_query : string;
  columns_to_rename : py_dict string string;
  values_to_rename : py_dict string value;
  weather_map_data : string;
  logger : list log_record;
  df : option DataFrame;
  engine : option Engine
}.

Definition set_df (d : option DataFrame) : M self unit := λ st,
  (Ok tt, mk (db_path st) (sql_query st) (columns_to_rename st)
             (values_to_rename st) (weather_map_data st) (logger st)
             d (engine st)).

Definition set_engine (e : option Engine) : M self unit := λ st,
  (Ok tt, mk (db_path st) (sql_query st) (columns_to_rename st)
             (values_to_rename st) (weather_map_data st) (logger st)
             (df st) e).

(** The same object configured with another [columns_to_rename]. *)
Definition with_columns_to_rename (c : py_dict string string) (st : self) : self :=
  mk (db_path st) (sql_query st) c (values_to_rename st)
     (weather_map_data st) (logger st) (df st) (engine st).

(** [self.logger.<lvl>(msg)] *)
Definition log (lvl : level) (msg : string) : M self unit := λ st,
  (Ok tt, mk (db_path st) (sql_query st) (columns_to_rename st)
             (values_to_rename st) (weather_map_data st)
             (logger st ++ [(lvl, msg)]) (df st) (engine st)).

(** [self.df] where a frame is needed; [e] is what Python raises on
    [None] at that place. *)
Definition the_df (e : exn) : M self DataFrame := λ st,
  match df st with
  | Some d => (Ok d, st)
  | None => (Raise e, st)
  end.

Definition ingest_sql_data : M self (option DataFrame) :=
  st ← get_self;
  e ← call (create_db_engine (db_path st));
  set_engine (Some e);;
  d ← call (query_data e (sql_query st));
  set_df (Some d);;
  log INFO "Sucessfully loaded data.";;
  st ← get_self;
  mret (df st).

(** [while temp_name in self.df.columns: temp_name += "_"], unrolled
    [fuel] times. *)
Fixpoint temp_name_loop (fuel : nat) (cols : list label) (temp_name : string)
  : string :=
  match fuel with
  | 0 => temp_name
  | S fuel' =>
      if decide (VStr temp_name ∈ cols)
      then temp_name_loop fuel' cols (temp_name +:+ "_")
      else temp_name
  end.

(** The same loop as a relation between the name it starts from and the
    name it ends with. *)
Inductive temp_name_while (cols : list label) : string → string → Prop :=
  | while_exit temp_name :
      VStr temp_name ∉ cols → temp_name_while cols temp_name temp_name
  | while_step temp_name r :
      VStr temp_name ∈ cols →
      temp_name_while cols (temp_name +:+ "_") r →
      temp_name_while cols temp_name r.

Definition rename_columns : M self (option DataFrame) :=
  st ← get_self;
  column1 ← call (list_item0 (dict_keys (columns_to_rename st)));
  column2 ← call (list_item0 (dict_values (columns_to_rename st)));
  d ← the_df AttributeError;
  let temp_name :=
    temp_name_loop (length (columns d)) (columns d) "__temp_name_for_swap__" in
  set_df (Some (df_rename
                  (dict_set (dict_set [] (VStr column1) (VStr temp_name))
                            (VStr column2) (VStr column1)) d));;
  d ← the_df AttributeError;
  set_df (Some (df_rename (dict_set [] (VStr temp_name) (VStr column2)) d));;
  log INFO ("Swapped columns: " +:+ column1 +:+ " with " +:+ column2);;
  st ← get_self;
  mret (df st).

(** [lambda crop: self.values_to_rename.get(crop, crop)] *)
Definition correct_value (vr : py_dict string value) (crop : value) : value :=
  match crop with
  | VStr k => dict_get vr k crop
  | _ => crop
  end.

Definition apply_corrections (column_name abs_column : string)
  : M self (option DataFrame) :=
  d ← the_df TypeError;
  s ← call (df_getitem (VStr abs_column) d);
  a ← call (series_abs s);
  set_df (Some (df_setitem (VStr abs_column) a d));;
  st ← get_self;
  d ← the_df TypeError;
  s ← call (df_getitem (VStr column_name) d);
  set_df (Some (df_setitem (VStr column_name)
                  (series_apply (correct_value (values_to_rename st)) s) d));;
  st ← get_self;
  mret (df st).

Definition weather_station_mapping : M self DataFrame :=
  st ← get_self;
  call (read_from_web_CSV (weather_map_data st)).

(** The body of [process] up to and including the merge. *)
Definition process_merge : M self unit :=
  d ← ingest_sql_data; set_df d;;
  d ← rename_columns; set_df d;;
  d ← apply_corrections "Crop_type" "Elevation"; set_df d;;
  weather_map_df ← weather_station_mapping;
  d ← the_df AttributeError;
  m ← call (df_merge_left (VStr "Field_ID") d weather_map_df);
  set_df (Some m).

(** The last statement of [process]. *)
Definition process_drop : M self unit :=
  d ← the_df AttributeError;
  m ← call (df_drop (VStr "Unnamed: 0") d);
  set_df (Some m).

(** The body ends without a [return]: the call evaluates to [None]. *)
Definition process : M self (option DataFrame) :=
  process_merge;;
  process_drop;;
  mret None.
End methods.
End FieldDataProcessor.

(** ** pandas: group-by, mean and unstack *)

(** The ascending order pandas sorts group keys in: numbers by magnitude,
    strings by code points; numbers before strings. *)
Definition value_le (a b : value) : Prop :=
  match a, b with
  | VNull, _ => True
  | _, VNull => False
  | VInt x, VInt y => (x ≤ y)%Z
  | VInt x, VFloat y => (Qc_of_Z x ≤ y)%Qc
  | VFloat x, VInt y => (x ≤ Qc_of_Z y)%Qc
  | VFloat x, VFloat y => (x ≤ y)%Qc
  | (VInt _ | VFloat _), VStr _ => True
  | VStr _, (VInt _ | VFloat _) => False
  | VStr x, VStr y => String.leb x y = true
  end.

#[global] Instance value_le_dec : RelDecision value_le.
Proof. intros [] []; simpl; apply _. Defined.

(** Keys of two levels, in lexicographic order. *)
Definition key_le (a b : value * value) : Prop :=
  if decide (a.1 = b.1) then value_le a.2 b.2 else value_le a.1 b.1.

#[global] Instance key_le_dec : RelDecision key_le.
Proof. intros a b; unfold key_le; destruct (decide (a.1 = b.1)); apply _. Defined.

(** A cell as a number, if it holds one; a string is no number. *)
Definition number (v : value) : result (option Qc) :=
  match v with
  | VNull => Ok None
  | VInt z => Ok (Some (Qc_of_Z z))
  | VFloat q => Ok (Some q)
  | VStr _ => Raise TypeError
  end.

Definition Qcsum (l : list Qc) : Qc := foldr Qcplus 0%Qc l.

(** The arithmetic mean of a non-empty list of numbers, in exact
    arithmetic. *)
Definition exact_mean (l : list Qc) : Qc :=
  (Qcsum l / Qc_of_Z (Z.of_nat (length l)))%Qc.

(** Numbers that float64 arithmetic can add up without overflow: at least
    one and at most 2^40 of them, with magnitudes that sum to 2^1023 at
    most. *)
Definition summable (l : list Qc) : Prop :=
  l ≠ [] ∧ (Z.of_nat (length l) ≤ 2 ^ 40)%Z
  ∧ (Qcsum (Qcabs <$> l) ≤ Qc_of_Z (2 ^ 1023))%Qc.

(** How far the mean computed in float64 can be from the exact one: 2^-51
    of the sum of the magnitudes (every addition, the division, and the
    conversion of an integer beyond 2^53 round to 53 bits), and 2^-1074
    where the quotient is below the least normal number. *)
Definition mean_error (l : list Qc) : Qc :=
  (Q2Qc (Qmake 1 (2 ^ 51)) * Qcsum (Qcabs <$> l) + Q2Qc (Qmake 1 (2 ^ 1074)))%Qc.

(** Floating-point arithmetic that rounds is a parameter of the
    development: [float64_mean l] is what [mean()] computes in float64 for
    the numbers [l], in that order, when there is at least one (their sum
    over their count, each operation rounded; an integer is first brought
    to float64).  It need not be the exact mean (for three times 0.1 it is
    0.10000000000000002), but it is within [mean_error] of it. *)
Class Float64 : Type := {
  float64_mean : list Qc → Qc;
  float64_mean_close (l : list Qc) :
    summable l →
    (exact_mean l - mean_error l ≤ float64_mean l)%Qc
    ∧ (float64_mean l ≤ exact_mean l + mean_error l)%Qc
}.

(** [mean()] of the cells of one group: missing cells are skipped, and the
    mean of nothing is missing. *)
Definition series_mean `{Float64} (s : Series) : result value :=
  xs ← sequence (number <$> s);
  match omap id xs with
  | [] => Ok VNull
  | ys => Ok (VFloat (float64_mean ys))
  end.

(** The rows that [groupby] keeps: those whose two keys are both present. *)
Definition grouped_rows (k1 k2 v : Series) : list ((value * value) * value) :=
  filter (λ r : (value * value) * value, r.1.1 ≠ VNull ∧ r.1.2 ≠ VNull)
         (zip (zip k1 k2) v).

(** The cells of the group of key [k]. *)
Definition group_cells (rows : list ((value * value) * value)) (k : value * value)
  : Series :=
  (filter (λ r : (value * value) * value, r.1 = k) rows).*2.

(** [df.groupby(by=[c1, c2])[c].mean()]: one entry per distinct key, keys
    ascending. *)
Definition groupby_mean `{Float64} (c1 c2 c : label) (d : DataFrame)
  : result (list ((value * value) * value)) :=
  k1 ← df_getitem c1 d;
  k2 ← df_getitem c2 d;
  v ← df_getitem c d;
  let rows := grouped_rows k1 k2 v in
  sequence ((λ k, m ← series_mean (group_cells rows k); Ok (k, m))
              <$> merge_sort key_le (remove_dups rows.*1)).

(** [s.unstack()] on a series keyed by two levels: a row per first-level
    key, a column per second-level key, missing where the series has no
    entry. *)
Definition unstack (s : list ((value * value) * value)) : DataFrame :=
  let idx := merge_sort value_le (remove_dups s.*1.*1) in
  let cols := merge_sort value_le (remove_dups s.*1.*2) in
  {| index := idx;
     frame := (λ c, (c, (λ r, dict_get s (r, c) VNull) <$> idx)) <$> cols |}.

(** The cell of [d] at row label [r] and column label [c]. *)
Definition df_at (d : DataFrame) (r c : label) : option value :=
  i ← list_find (λ x, x = r) (index d);
  s ← dict_lookup (frame d) c;
  s !! i.1.

(** The number in a cell, if there is one. *)
Definition as_number (v : value) : option Qc :=
  match v with
  | VInt z => Some (Qc_of_Z z)
  | VFloat q => Some q
  | _ => None
  end.

(** The cells of [v] in the rows where [k1] holds [s] and [k2] holds [m]:
    the observations of measurement [m] at station [s]. *)
Definition observations (k1 k2 v : Series) (s m : value) : Series :=
  (filter (λ r : (value * value) * value, r.1 = (s, m)) (zip (zip k1 k2) v)).*2.

(** The mean of the numbers among some cells; nothing when there is no
    number among them. *)
Definition mean_cell `{Float64} (s : Series) : value :=
  match omap as_number s with
  | [] => VNull
  | ys => VFloat (float64_mean ys)
  end.

(** ** Regular expressions and [float]

    [re.search] and [float] are parameters.  [re_search p m] is [None] when
    [p] matches nowhere in [m], and otherwise [match.groups()] of the match:
    one entry per capturing group, [None] for a group that took no part.
    [py_float s] is [None] when [float(s)] raises [ValueError]. *)
Class TextLib : Type := {
  pattern : Type;
  re_search : pattern → string → option (list (option string));
  py_float : string → option Qc
}.

(** ** weather_data_processor.py *)

Module WeatherDataProcessor.
Section methods.
Context `{DataIngestion} `{TextLib} `{Float64}.

Record self : Type := mk {
  weather_station_data : string;
  patterns : py_dict string pattern;
  weather_df : option DataFrame;
  logger : list log_record
}.

Definition set_weather_df (d : option DataFrame) : M self unit := λ st,
  (Ok tt, mk (weather_station_data st) (patterns st) d (logger st)).

Definition log (lvl : level) (msg : string) : M self unit := λ st,
  (Ok tt, mk (weather_station_data st) (patterns st) (weather_df st)
             (logger st ++ [(lvl, msg)])).

Definition weather_station_mapping : M self unit :=
  st ← get_self;
  d ← call (read_from_web_CSV (weather_station_data st));
  set_weather_df (Some d);;
  log INFO "Successfully loaded weather station data from the web.".

(** [next((x for x in groups if x is not None))] *)
Fixpoint first_not_none (groups : list (option string)) : result string :=
  match groups with
  | [] => Raise StopIteration
  | Some x :: _ => Ok x
  | None :: groups' => first_not_none groups'
  end.

(** [re.search(pattern, message)] on a cell: only a string can be
    searched. *)
Definition search (p : pattern) (message : value)
  : result (option (list (option string))) :=
  match message with
  | VStr m => Ok (re_search p m)
  | _ => Raise TypeError
  end.

(** The [for] loop over [self.patterns.items()]. *)
Fixpoint extract_loop (items : list (string * pattern)) (message : value)
  : M self (value * value) :=
  match items with
  | [] =>
      log DEBUG "No measurement match found.";;
      mret (VNull, VNull)
  | (key, p) :: items' =>
      r ← call (search p message);
      match r with
      | Some groups =>
          log DEBUG ("Measurement extracted: " +:+ key);;
          x ← call (first_not_none groups);
          match py_float x with
          | Some v => mret (VStr key, VFloat v)
          | None => raise ValueError
          end
      | None => extract_loop items' message
      end
  end.

(** The value the loop ends with, apart from what it logs. *)
Fixpoint extraction (items : list (string * pattern)) (message : value)
  : result (value * value) :=
  match items with
  | [] => Ok (VNull, VNull)
  | (key, p) :: items' =>
      r ← search p message;
      match r with
      | Some groups =>
          x ← first_not_none groups;
          match py_float x with
          | Some v => Ok (VStr key, VFloat v)
          | None => Raise ValueError
          end
      | None => extraction items' message
      end
  end.

(** The same object configured with other patterns. *)
Definition with_patterns (ps : py_dict string pattern) (st : self) : self :=
  mk (weather_station_data st) ps (weather_df st) (logger st).

(** The same object after one more call on its logger. *)
Definition logged (lvl : level) (msg : string) (st : self) : self :=
  mk (weather_station_data st) (patterns st) (weather_df st)
     (logger st ++ [(lvl, msg)]).

Definition extract_measurement (message : value) : M self (value * value) :=
  st ← get_self;
  extract_loop (dict_items (patterns st)) message.

(** [series.apply(f)] for a method [f] of the object. *)
Fixpoint apply_method {A} (f : value → M self A) (s : Series) : M self (list A) :=
  match s with
  | [] => mret []
  | x :: s' => a ← f x; as' ← apply_method f s'; mret (a :: as')
  end.

(** [a, b = zip( *result)] for a list of pairs. *)
Definition unzip_pairs {A B} (l : list (A * B)) : result (list A * list B) :=
  match l with
  | [] => Raise ValueError
  | _ => Ok (l.*1, l.*2)
  end.

Definition process_messages : M self (option DataFrame) :=
  st ← get_self;
  match weather_df st with
  | Some d =>
      msgs ← call (df_getitem (VStr "Message") d);
      result ← apply_method extract_measurement msgs;
      mv ← call (unzip_pairs result);
      d ← (st ← get_self; mret (weather_df st));
      set_weather_df (df_setitem (VStr "Measurement") mv.1 <$> d);;
      d ← (st ← get_self; mret (weather_df st));
      set_weather_df (df_setitem (VStr "Value") mv.2 <$> d);;
      log INFO "Messages processed and measurements extracted."
  | None =>
      log WARNING "weather_df is not initialized, skipping message processing."
  end;;
  st ← get_self;
  mret (weather_df st).

Definition calculate_means : M self (option DataFrame) :=
  st ← get_self;
  match weather_df st with
  | Some d =>
      means ← call (groupby_mean (VStr "Weather_station_ID")
                                 (VStr "Measurement") (VStr "Value") d);
      log INFO "Mean values calculated.";;
      mret (Some (unstack means))
  | None =>
      log WARNING "weather_df is not initialized, cannot calculate means.";;
      mret None
  end.

(** No [return]: the call evaluates to [None]. *)
Definition process : M self (option DataFrame) :=
  weather_station_mapping;;
  process_messages;;
  log INFO "Data processing completed.";;
  mret None.

(** An outcome of [process] that hands out the table of means: the table
    that [calculate_means] computes from the object as [process] left it
    is what the call returned, or what [weather_df] now holds. *)
Definition produces_means (out : result (option DataFrame) * self) : Prop :=
  ∃ T, (calculate_means out.2).1 = Ok (Some T)
       ∧ (out.1 = Ok (Some T) ∨ weather_df out.2 = Some T).
End methods.
End WeatherDataProcessor.

(** ** A matcher and a decimal reader, to run the model

    An instance of [TextLib] for a fragment of Python's [re] syntax
    (literals, [.], [\d], concatenation, [|], greedy [*], [+] and [?],
    capturing groups) and for decimal literals without exponent. *)

Module Re.
Inductive regex : Type :=
  | Eps
  | Chr (c : ascii)
  | Any
  | Digit
  | Cat (r1 r2 : regex)
  | Alt (r1 r2 : regex)
  | Star (r : regex)
  | Group (i : nat) (r : regex).

(** [r?] and, for an [r] without groups, [r+]. *)
Definition Opt (r : regex) : regex := Alt r Eps.
Definition Plus (r : regex) : regex := Cat r (Star r).

(** A literal text. *)
Fixpoint Lit (s : string) : regex :=
  match s with
  | EmptyString => Eps
  | String c s' => Cat (Chr c) (Lit s')
  end.

(** A pattern: the expression, whose groups are numbered from 0 in the
    order of their opening parenthesis, and the number of groups. *)
Record t : Type := mk { re : regex; groups : nat }.

Definition is_digit (a : ascii) : bool :=
  bool_decide (48 ≤ nat_of_ascii a ≤ 57)%nat.

Definition is_newline (a : ascii) : bool := bool_decide (nat_of_ascii a = 10%nat).

Definition captures : Type := list (option string).

(** Backtracking match of [r] at the head of [s], then [k] on the rest;
    the first alternative that leads to success wins. *)
Fixpoint run (r : regex) (s : list ascii) (caps : captures)
    (k : list ascii → captures → option captures) {struct r} : option captures :=
  match r with
  | Eps => k s caps
  | Chr c =>
      match s with
      | a :: s' => if decide (a = c) then k s' caps else None
      | [] => None
      end
  | Any =>
      match s with
      | a :: s' => if is_newline a then None else k s' caps
      | [] => None
      end
  | Digit =>
      match s with
      | a :: s' => if is_digit a then k s' caps else None
      | [] => None
      end
  | Cat r1 r2 => run r1 s caps (λ s' caps', run r2 s' caps' k)
  | Alt r1 r2 =>
      match run r1 s caps k with
      | Some c => Some c
      | None => run r2 s caps k
      end
  | Star r1 =>
      (fix iter (n : nat) (s : list ascii) (caps : captures) : option captures :=
         match n with
         | 0 => k s caps
         | S n' =>
             match run r1 s caps
                     (λ s' caps', if decide (length s' < length s)
                                  then iter n' s' caps' else None) with
             | Some c => Some c
             | None => k s caps
             end
         end) (length s) s caps
  | Group i r1 =>
      run r1 s caps
        (λ s' caps',
           k s' (<[i := Some (String.string_of_list_ascii
                                (take (length s - length s') s))]> caps'))
  end.

(** The leftmost match: [match.groups()], or [None]. *)
Fixpoint search_from (p : t) (s : list ascii) : option captures :=
  match run (re p) s (replicate (groups p) None) (λ _ c, Some c) with
  | Some c => Some c
  | None =>
      match s with
      | [] => None
      | _ :: s' => search_from p s'
      end
  end.

Definition search (p : t) (m : string) : option captures :=
  search_from p (String.list_ascii_of_string m).
End Re.

Module Decimal.
Definition digit (a : ascii) : option Z :=
  if Re.is_digit a then Some (Z.of_nat (nat_of_ascii a) - 48)%Z else None.

(** The number written by a run of digits, most significant first. *)
Fixpoint digits (acc : Z) (s : list ascii) : option Z :=
  match s with
  | [] => Some acc
  | a :: s' => d ← digit a; digits (10 * acc + d)%Z s'
  end.

(** The text before the first ['.'], and the text after it if there is
    one. *)
Fixpoint split_dot (s : list ascii) : list ascii * option (list ascii) :=
  match s with
  | [] => ([], None)
  | a :: s' =>
      if decide (a = "."%char) then ([], Some s')
      else let '(i, f) := split_dot s' in (a :: i, f)
  end.

Definition unsigned (s : list ascii) : option Qc :=
  let '(i, f) := split_dot s in
  let f := default [] f in
  if decide (i = [] ∧ f = []) then None
  else
    n ← digits 0 (i ++ f);
    Some (Q2Qc (Qmake n (Z.to_pos (10 ^ Z.of_nat (length f))))).

(** [float(s)] for [s] of the form [[+-]digits[.digits]]: the number that
    the literal denotes.  [float] gives the float64 nearest to it, which
    is that number for the literals of the sample data (20, 30, 7, 7.5,
    23.5). *)
Definition float (s : string) : option Qc :=
  match String.list_ascii_of_string s with
  | "-"%char :: s' => Qcopp <$> unsigned s'
  | "+"%char :: s' => unsigned s'
  | s' => unsigned s'
  end.
End Decimal.

(** The exact mean is within the error of itself. *)
Lemma Qcabs_nonneg (q : Qc) : (0 ≤ Qcabs q)%Qc.
Proof.
  unfold Qcabs. destruct (decide (q < 0)%Qc) as [Hneg|Hpos].
  - apply Qclt_le_weak in Hneg. apply Qcopp_le_compat in Hneg.
    by replace (- 0)%Qc with 0%Qc in Hneg by ring.
  - by apply Qcnot_lt_le.
Qed.

Lemma Qcsum_abs_nonneg (l : list Qc) : (0 ≤ Qcsum (Qcabs <$> l))%Qc.
Proof.
  induction l as [|x l IH]; [done|]. rewrite fmap_cons.
  cbn [Qcsum foldr]. apply Qcplus_nonneg_nonneg; [apply Qcabs_nonneg|exact IH].
Qed.

Lemma Q2Qc_unit_nonneg (p : positive) : (0 ≤ Q2Qc (Qmake 1 p))%Qc.
Proof. unfold Qcle. cbn [this Q2Qc]. by rewrite !Qred_correct. Qed.

Lemma mean_error_nonneg (l : list Qc) : (0 ≤ mean_error l)%Qc.
Proof.
  unfold mean_error. apply Qcplus_nonneg_nonneg; [|apply Q2Qc_unit_nonneg].
  apply Qcmult_nonneg_nonneg; [apply Q2Qc_unit_nonneg|apply Qcsum_abs_nonneg].
Qed.

Lemma exact_mean_close (l : list Qc) :
  summable l →
  (exact_mean l - mean_error l ≤ exact_mean l)%Qc
  ∧ (exact_mean l ≤ exact_mean l + mean_error l)%Qc.
Proof.
  intros _. pose proof (mean_error_nonneg l) as Hpos. split.
  - apply Qcle_minus_iff.
    by replace (exact_mean l + - (exact_mean l - mean_error l))%Qc
      with (mean_error l) by ring.
  - apply Qcle_minus_iff.
    by replace (exact_mean l + mean_error l + - exact_mean l)%Qc
      with (mean_error l) by ring.
Qed.

(** ** Sample data

    A small world to run the two pipelines in: a database with one query
    result, and two CSV resources. *)
Module Sample.
Definition field_table : DataFrame :=
  {| index := RangeIndex 2;
     frame := [ (VStr "Field_ID", [VInt 1; VInt 2]);
                (VStr "Elevation", [VFloat (Qc_of_Z (-5)); VFloat (Q2Qc (Qmake 21 2))]);
                (VStr "Annual_yield", [VStr "BEAN"; VStr "maize"]);
                (VStr "Crop_type", [VFloat (Q2Qc (Qmake 3 4)); VFloat (Q2Qc (Qmake 1 2))]) ] |}.

Definition mapping_table : DataFrame :=
  {| index := RangeIndex 2;
     frame := [ (VStr "Unnamed: 0", [VInt 0; VInt 1]);
                (VStr "Field_ID", [VInt 1; VInt 3]);
                (VStr "Weather_station", [VInt 4; VInt 0]) ] |}.

(** The same mapping, read without the index artifact. *)
Definition mapping_table_clean : DataFrame :=
  {| index := RangeIndex 2;
     frame := [ (VStr "Field_ID", [VInt 1; VInt 3]);
                (VStr "Weather_station", [VInt 4; VInt 0]) ] |}.

Definition weather_table : DataFrame :=
  {| index := RangeIndex 4;
     frame := [ (VStr "Weather_station_ID", [VInt 0; VInt 0; VInt 1; VInt 1]);
                (VStr "Message", [VStr "Temp: 20C"; VStr "Temp: 30C";
                                  VStr "Rain 7.5mm"; VStr "no data"]) ] |}.

#[local] Instance world : DataIngestion :=
  {| Engine := string;
     create_db_engine := λ path, Ok path;
     query_data := λ _ _, Ok field_table;
     read_from_web_CSV := λ url,
       if decide (url = "mapping.csv") then Ok mapping_table
       else if decide (url = "mapping_clean.csv") then Ok mapping_table_clean
       else if decide (url = "weather.csv") then Ok weather_table
       else Raise (OtherError "HTTPError") |}.

(** A field processor as [__init__] leaves it. *)
(** The table and the processor of the scenario of [apply_corrections]. *)
Definition bean_table : DataFrame :=
  {| index := RangeIndex 1;
     frame := [ (VStr "Field_ID", [VInt 1]);
                (VStr "Crop_type", [VStr "BEAN"]);
                (VStr "Elevation", [VInt (-5)]) ] |}.

Definition bean_table_corrected : DataFrame :=
  {| index := RangeIndex 1;
     frame := [ (VStr "Field_ID", [VInt 1]);
                (VStr "Crop_type", [VStr "Bean"]);
                (VStr "Elevation", [VInt 5]) ] |}.

Definition bean_processor : FieldDataProcessor.self :=
  FieldDataProcessor.mk "" "" [] [("BEAN", VStr "Bean")] "" []
    (Some bean_table) None.

(** The same scenario with the elevation held as text. *)
Definition bean_table_text : DataFrame :=
  {| index := RangeIndex 1;
     frame := [ (VStr "Field_ID", [VInt 1]);
                (VStr "Crop_type", [VStr "BEAN"]);
                (VStr "Elevation", [VStr "-5"]) ] |}.

Definition bean_processor_text : FieldDataProcessor.self :=
  FieldDataProcessor.mk "" "" [] [("BEAN", VStr "Bean")] "" []
    (Some bean_table_text) None.

Definition field_processor (csv : string) : FieldDataProcessor.self :=
  FieldDataProcessor.mk "sqlite:///farm.db" "SELECT * FROM fields"
    [("Annual_yield", "Crop_type"); ("Crop_type", "Annual_yield")]
    [("BEAN", VStr "Bean")]
    csv [] None None.

(** The processor as the merge of [process] leaves it. *)
Definition field_processor_merged (csv : string) : FieldDataProcessor.self :=
  (FieldDataProcessor.process_merge (field_processor csv)).2.

(** The field table, names exchanged and corrected, joined with
    [mapping_table]; and the same joined with [mapping_table_clean].  The
    second field has no station: the columns of the mapping, which were
    int64, are float64 in the merged table. *)
Definition merged_table : DataFrame :=
  {| index := RangeIndex 2;
     frame := [ (VStr "Field_ID", [VInt 1; VInt 2]);
                (VStr "Elevation", [VFloat (Qc_of_Z 5); VFloat (Q2Qc (Qmake 21 2))]);
                (VStr "Crop_type", [VStr "Bean"; VStr "maize"]);
                (VStr "Annual_yield", [VFloat (Q2Qc (Qmake 3 4)); VFloat (Q2Qc (Qmake 1 2))]);
                (VStr "Unnamed: 0", [VFloat (Qc_of_Z 0); VNull]);
                (VStr "Weather_station", [VFloat (Qc_of_Z 4); VNull]) ] |}.

Definition merged_table_clean : DataFrame :=
  {| index := RangeIndex 2;
     frame := [ (VStr "Field_ID", [VInt 1; VInt 2]);
                (VStr "Elevation", [VFloat (Qc_of_Z 5); VFloat (Q2Qc (Qmake 21 2))]);
                (VStr "Crop_type", [VStr "Bean"; VStr "maize"]);
                (VStr "Annual_yield", [VFloat (Q2Qc (Qmake 3 4)); VFloat (Q2Qc (Qmake 1 2))]);
                (VStr "Weather_station", [VFloat (Qc_of_Z 4); VNull]) ] |}.

(** The same processor after [ingest_sql_data]. *)
Definition field_processor_loaded : FieldDataProcessor.self :=
  FieldDataProcessor.mk "sqlite:///farm.db" "SELECT * FROM fields"
    [("Annual_yield", "Crop_type"); ("Crop_type", "Annual_yield")]
    [("BEAN", VStr "Bean")]
    "mapping.csv" [] (Some field_table) (Some "sqlite:///farm.db").

(** A loaded processor whose mapping has a second entry, which names two
    other columns of the table. *)
Definition field_processor_two_pairs : FieldDataProcessor.self :=
  FieldDataProcessor.mk "sqlite:///farm.db" "SELECT * FROM fields"
    [("Annual_yield", "Crop_type"); ("Field_ID", "Elevation")]
    [("BEAN", VStr "Bean")]
    "mapping.csv" [] (Some field_table) (Some "sqlite:///farm.db").

#[local] Instance text : TextLib :=
  {| pattern := Re.t; re_search := Re.search; py_float := Decimal.float |}.

(** The mean on the sample data, where every sum and every quotient is a
    float64 number again, so that nothing is rounded. *)
#[local] Instance floats : Float64 :=
  {| float64_mean := exact_mean; float64_mean_close := exact_mean_close |}.

(** The pattern [Temp: (\d+\.?\d{0,})C], that is, with [\d{0,}] written as
    a star. *)
Definition temperature : Re.t :=
  Re.mk (Re.Cat (Re.Lit "Temp: ")
           (Re.Cat (Re.Group 0 (Re.Cat (Re.Plus Re.Digit)
                                  (Re.Cat (Re.Opt (Re.Chr ".")) (Re.Star Re.Digit))))
                   (Re.Chr "C"))) 1.

(** The pattern [Rain (\d+\.?\d{0,})mm], likewise. *)
Definition rainfall : Re.t :=
  Re.mk (Re.Cat (Re.Lit "Rain ")
           (Re.Cat (Re.Group 0 (Re.Cat (Re.Plus Re.Digit)
                                  (Re.Cat (Re.Opt (Re.Chr ".")) (Re.Star Re.Digit))))
                   (Re.Lit "mm"))) 1.

(** The pattern [(\d+)mm|(\d+)C]: two groups, of which a match fills
    one. *)
Definition reading : Re.t :=
  Re.mk (Re.Alt (Re.Cat (Re.Group 0 (Re.Plus Re.Digit)) (Re.Lit "mm"))
                (Re.Cat (Re.Group 1 (Re.Plus Re.Digit)) (Re.Chr "C"))) 2.

(** A weather processor with three patterns, of which the last two match
    a temperature. *)
Definition weather_processor_three : WeatherDataProcessor.self :=
  WeatherDataProcessor.mk "weather.csv"
    [("rainfall", rainfall); ("reading", reading); ("temperature", temperature)]
    None [].

(** A weather processor as [__init__] leaves it. *)
Definition weather_processor : WeatherDataProcessor.self :=
  WeatherDataProcessor.mk "weather.csv"
    [("temperature", temperature); ("rainfall", rainfall)] None [].

(** [weather_table] with the measurements extracted. *)
Definition extracted_table : DataFrame :=
  {| index := RangeIndex 4;
     frame := [ (VStr "Weather_station_ID", [VInt 0; VInt 0; VInt 1; VInt 1]);
                (VStr "Message", [VStr "Temp: 20C"; VStr "Temp: 30C";
                                  VStr "Rain 7.5mm"; VStr "no data"]);
                (VStr "Measurement", [VStr "temperature"; VStr "temperature";
                                      VStr "rainfall"; VNull]);
                (VStr "Value", [VFloat (Qc_of_Z 20); VFloat (Qc_of_Z 30);
                                VFloat (Q2Qc (Qmake 15 2)); VNull]) ] |}.

Definition stations : Series := [VInt 0; VInt 0; VInt 1; VInt 1].
Definition measurements : Series :=
  [VStr "temperature"; VStr "temperature"; VStr "rainfall"; VNull].
Definition values : Series :=
  [VFloat (Qc_of_Z 20); VFloat (Qc_of_Z 30); VFloat (Q2Qc (Qmake 15 2)); VNull].

(** The means of [extracted_table], station by measurement. *)
Definition means_table : DataFrame :=
  {| index := [VInt 0; VInt 1];
     frame := [ (VStr "rainfall", [VNull; VFloat (Q2Qc (Qmake 15 2))]);
                (VStr "temperature", [VFloat (Qc_of_Z 25); VNull]) ] |}.

(** The weather processor after [process]. *)
Definition weather_processor_extracted : WeatherDataProcessor.self :=
  WeatherDataProcessor.mk "weather.csv"
    [("temperature", temperature); ("rainfall", rainfall)]
    (Some extracted_table) [].

(** [Temp], a pattern without a group, and [(Temp)], whose group does
    not capture a number. *)
Definition no_group : Re.t := Re.mk (Re.Lit "Temp") 0.
Definition word_group : Re.t := Re.mk (Re.Group 0 (Re.Lit "Temp")) 1.

Definition processor_with (ps : py_dict string Re.t) : WeatherDataProcessor.self :=
  WeatherDataProcessor.mk "weather.csv" ps None [].
(** A weather processor with its table loaded, before any extraction. *)
Definition weather_processor_loaded : WeatherDataProcessor.self :=
  WeatherDataProcessor.mk "weather.csv"
    [("temperature", temperature); ("rainfall", rainfall)]
    (Some weather_table) [].

(** The same with a pattern that has no group. *)
Definition weather_processor_no_group : WeatherDataProcessor.self :=
  WeatherDataProcessor.mk "weather.csv" [("temperature", no_group)]
    (Some weather_table) [].

(** A weather processor that holds a table without messages. *)
Definition weather_processor_wrong_table : WeatherDataProcessor.self :=
  WeatherDataProcessor.mk "weather.csv" [("temperature", temperature)]
    (Some mapping_table) [].

(** A table in which no message has matched, and a processor holding it. *)
Definition silent_table : DataFrame :=
  {| index := RangeIndex 2;
     frame := [ (VStr "Weather_station_ID", [VInt 0; VInt 1]);
                (VStr "Message", [VStr "no data"; VStr "nothing"]);
                (VStr "Measurement", [VNull; VNull]);
                (VStr "Value", [VNull; VNull]) ] |}.

Definition weather_processor_silent : WeatherDataProcessor.self :=
  WeatherDataProcessor.mk "weather.csv"
    [("temperature", temperature); ("rainfall", rainfall)]
    (Some silent_table) [].
End Sample.


(** The field table after the three first stages of [process], on a
    source that answers with the table [R]: names exchanged, elevations
    made absolute, crop names corrected.  [el] and [c] are the columns
    ["Elevation"] and ["Crop_type"] once the names are exchanged. *)
Definition corrected_table `{DataIngestion} (st : FieldDataProcessor.self)
    (A B : string) (R : DataFrame) (el c : Series) : DataFrame :=
  df_setitem (VStr "Crop_type")
    (FieldDataProcessor.correct_value (FieldDataProcessor.values_to_rename st) <$> c)
    (df_setitem (VStr "Elevation") (cell_abs <$> el)
       (df_swap_labels (VStr A) (VStr B) R)).

(** Key columns of one kind on both sides of a merge, and without missing
    keys: int64 on both sides, or strings on both sides. *)
Definition keys_alike (lk rk : Series) : Prop :=
  (Forall is_int64 lk ∧ Forall is_int64 rk) ∨ (Forall is_str lk ∧ Forall is_str rk).

#[global] Instance keys_alike_dec lk rk : Decision (keys_alike lk rk).
Proof. unfold keys_alike. apply _. Defined.

(** Two tables that share no column name but [key]: a merge on [key] has
    no name to tell apart by a suffix. *)
Definition only_shares (key : label) (l r : DataFrame) : Prop :=
  Forall (λ c, c ∈ columns r → c = key) (columns l).

#[global] Instance only_shares_dec key l r : Decision (only_shares key l r).
Proof. unfold only_shares. apply _. Defined.

(** A mapping of [values_to_rename] whose images are strings. *)
Definition to_strings (vr : py_dict string value) : Prop :=
  Forall (λ kv : string * value, is_str kv.2) vr.

#[global] Instance to_strings_dec vr : Decision (to_strings vr).
Proof. unfold to_strings. apply _. Defined.

(** A cell whose content a float64 holds exactly: no integer beyond 2^53
    in magnitude. *)
Definition exact_in_float64 (v : value) : Prop :=
  match v with
  | VInt z => (Z.abs z ≤ 2 ^ 53)%Z
  | _ => True
  end.

#[global] Instance exact_in_float64_dec v : Decision (exact_in_float64 v).
Proof. destruct v; simpl; apply _. Defined.

(** ** initialize_logging

    The two classes have the same [initialize_logging], each on the logger
    that [logging.getLogger] keeps under the name of the class: one object
    for all the instances of a class.  [Logger] holds the attributes of that
    object which the method reads or writes. *)

Module Logging.
(** A console handler, with the format of its formatter. *)
Record Handler : Type := StreamHandler { formatter : string }.

(** [threshold] is [None] as long as no level has been set. *)
Record Logger : Type := mkLogger {
  propagate : bool;
  disabled : bool;
  threshold : option level;
  handlers : list Handler
}.

(** [str.upper] on one character and on a string: the letters [a] to [z]
    are the only characters that [upper] can turn into letters of
    ["DEBUG"], ["INFO"] (but for its [I]) or ["NONE"]. *)
Definition upper_char (a : ascii) : ascii :=
  if bool_decide (97 ≤ nat_of_ascii a ≤ 122)%nat
  then ascii_of_nat (nat_of_ascii a - 32)
  else a.

Fixpoint upper (s : string) : string :=
  match s with
  | EmptyString => EmptyString
  | String a s' => String (upper_char a) (upper s')
  end.

(** [self.logger.setLevel(log_level)] and what follows it. *)
Definition set_level_and_handler (log_level : level) (lg : Logger) : Logger :=
  mkLogger (propagate lg) (disabled lg) (Some log_level)
    (match handlers lg with
     | [] => [StreamHandler "%(asctime)s - %(name)s - %(levelname)s - %(message)s"]
     | hs => hs
     end).

Definition initialize_logging (logging_level : string) (lg : Logger) : Logger :=
  let lg := mkLogger false (disabled lg) (threshold lg) (handlers lg) in
  if decide (upper logging_level = "DEBUG") then set_level_and_handler DEBUG lg
  else if decide (upper logging_level = "INFO") then set_level_and_handler INFO lg
  else if decide (upper logging_level = "NONE")
       then mkLogger (propagate lg) true (threshold lg) (handlers lg)
  else set_level_and_handler INFO lg.

(** The numeric value of a level. *)
Definition level_no (l : level) : nat :=
  match l with
  | DEBUG => 10
  | INFO => 20
  | WARNING => 30
  end.

(** [logger.isEnabledFor(lvl)] for a logger whose level has been set:
    whether a call at level [lvl] is handled at all. *)
Definition is_enabled_for (lg : Logger) (lvl : level) : option bool :=
  if disabled lg then Some false
  else (λ t, bool_decide (level_no t ≤ level_no lvl)%nat) <$> threshold lg.

(** A logger as [logging.getLogger] first makes it. *)
Definition fresh : Logger := mkLogger true false None [].
End Logging.

(** * Properties *)

(** ** Running a method *)

Ltac run_method :=
  unfold mbind, M_bind, mret, M_ret, get_self, call, raise; simpl.

Lemma string_length_app (s1 s2 : string) :
  String.length (s1 +:+ s2) = String.length s1 + String.length s2.
Proof. induction s1 as [|c s1 IH]; simpl; [done | by rewrite IH]. Qed.

(** ** The temporary name of [rename_columns] *)

Section temp_name.
Import FieldDataProcessor.

Lemma temp_name_loop_while (cols : list label) : ∀ fuel temp_name,
  length (filter (at_least (String.length temp_name)) cols) ≤ fuel →
  temp_name_while cols temp_name (temp_name_loop fuel cols temp_name).
Proof.
  induction fuel as [|fuel IH]; intros t Hle; simpl.
  - apply while_exit. intros Hin.
    assert (VStr t ∈ filter (at_least (String.length t)) cols) as Hf
      by (apply list_elem_of_filter; split; [simpl; lia | done]).
    destruct (filter _ cols); [by apply elem_of_nil in Hf | simpl in Hle; lia].
  - destruct (decide (VStr t ∈ cols)) as [Hin|Hnin]; [|by apply while_exit].
    apply while_step; [done|]. apply IH.
    rewrite string_length_app; simpl.
    rewrite <-(list_filter_filter_l _ (at_least (String.length t))).
    + assert (length (filter (at_least (String.length t + 1))
                        (filter (at_least (String.length t)) cols))
              < length (filter (at_least (String.length t)) cols)); [|lia].
      apply (length_filter_lt _ _ (VStr t)); [|simpl; lia].
      apply list_elem_of_filter; split; [simpl; lia | done].
    + intros [] ?; simpl in *; lia.
Qed.

(** The loop ends, within as many rounds as there are columns. *)
Lemma temp_name_terminates (cols : list label) (temp_name : string) :
  temp_name_while cols temp_name
    (temp_name_loop (length cols) cols temp_name).
Proof. apply temp_name_loop_while, length_filter. Qed.

Lemma temp_name_while_fresh cols t r : temp_name_while cols t r → VStr r ∉ cols.
Proof. induction 1; done. Qed.

Lemma temp_name_fresh (cols : list label) (temp_name : string) :
  VStr (temp_name_loop (length cols) cols temp_name) ∉ cols.
Proof. eapply temp_name_while_fresh, temp_name_terminates. Qed.
End temp_name.

(** ** rename_columns *)

Section rename_columns.
Context `{DataIngestion}.
Import FieldDataProcessor.

Lemma swap_label_involutive a b c : swap_label a b (swap_label a b c) = c.
Proof. unfold swap_label; repeat case_decide; congruence. Qed.

Lemma renamed_swap column1 column2 temp_name c :
  c ≠ VStr temp_name → column1 ≠ temp_name →
  renamed column1 column2 temp_name c = swap_label (VStr column1) (VStr column2) c.
Proof.
  intros Hc H1. unfold renamed, swap_label, dict_get; simpl.
  repeat (case_decide; simpl); simplify_eq; done.
Qed.

Lemma renamed_other column1 column2 temp_name c :
  c ≠ VStr temp_name → c ≠ VStr column1 → c ≠ VStr column2 →
  renamed column1 column2 temp_name c = c.
Proof.
  intros Hc H1 H2. unfold renamed, dict_get; simpl.
  repeat (case_decide; simpl); simplify_eq; done.
Qed.

(** What a call of [rename_columns] comes to, on a loaded table and a
    configuration that is not empty. *)
Lemma rename_columns_run st R column1 column2 rest :
  df st = Some R →
  columns_to_rename st = (column1, column2) :: rest →
  let temp_name :=
    temp_name_loop (length (columns R)) (columns R) "__temp_name_for_swap__" in
  let R' := {| index := index R;
               frame := (λ cs : label * Series,
                           (renamed column1 column2 temp_name cs.1, cs.2))
                        <$> frame R |} in
  rename_columns st =
    (Ok (Some R'),
     mk (db_path st) (sql_query st) (columns_to_rename st) (values_to_rename st)
        (weather_map_data st)
        (logger st ++ [(INFO, "Swapped columns: " +:+ column1 +:+ " with " +:+ column2)])
        (Some R') (engine st)).
Proof.
  intros Hdf Hcfg. unfold rename_columns, the_df, set_df, log. run_method.
  rewrite Hcfg, Hdf; simpl. unfold df_rename; simpl.
  rewrite <-list_fmap_compose, ?Hcfg. reflexivity.
Qed.

Lemma dict_lookup_relabel {V} (f : label → label) (l : list (label * V)) c :
  (∀ x y, f x = f y → x = y) →
  dict_lookup ((λ cs : label * V, (f cs.1, cs.2)) <$> l) (f c) = dict_lookup l c.
Proof.
  intros Hinj. induction l as [|[k v] l IH]; simpl; [done|].
  destruct (decide (k = c)) as [->|Hne].
  - by rewrite decide_True.
  - rewrite decide_False; [done | intros ?%Hinj; done].
Qed.

Lemma swap_label_inj a b x y : swap_label a b x = swap_label a b y → x = y.
Proof.
  intros Heq. rewrite <-(swap_label_involutive a b x), Heq.
  apply swap_label_involutive.
Qed.

Lemma df_swap_labels_involutive a b d :
  df_swap_labels a b (df_swap_labels a b d) = d.
Proof.
  destruct d as [idx fr]. unfold df_swap_labels; simpl. f_equal.
  rewrite <-list_fmap_compose. rewrite <-(list_fmap_id fr) at 2.
  apply list_fmap_ext. intros i [c s] _; simpl.
  by rewrite swap_label_involutive.
Qed.

Lemma df_getitem_swap a b c d :
  df_getitem (swap_label a b c) (df_swap_labels a b d) = df_getitem c d.
Proof.
  unfold df_getitem, df_swap_labels; simpl.
  by rewrite (dict_lookup_relabel (swap_label a b)) by apply swap_label_inj.
Qed.

(** One call exchanges the two names, when the first one labels a
    column. *)
Lemma rename_columns_swap st R A B rest :
  df st = Some R →
  columns_to_rename st = (A, B) :: rest →
  VStr A ∈ columns R →
  ∃ st', rename_columns st = (Ok (Some (df_swap_labels (VStr A) (VStr B) R)), st')
         ∧ df st' = Some (df_swap_labels (VStr A) (VStr B) R)
         ∧ columns_to_rename st' = columns_to_rename st.
Proof.
  intros Hdf Hcfg HA.
  pose proof (rename_columns_run st R A B rest Hdf Hcfg) as Hrun; simpl in Hrun.
  pose proof (temp_name_fresh (columns R) "__temp_name_for_swap__") as Hfresh.
  set (t := temp_name_loop _ _ _) in *.
  assert ((λ cs : label * Series, (renamed A B t cs.1, cs.2)) <$> frame R
          = frame (df_swap_labels (VStr A) (VStr B) R)) as Hfr.
  { unfold df_swap_labels; simpl. apply list_fmap_ext. intros i [c s] Hi; simpl.
    f_equal. apply renamed_swap.
    - intros ->. apply Hfresh. unfold columns.
      apply list_elem_of_fmap. exists (VStr t, s). split; [done|].
      by eapply list_elem_of_lookup_2.
    - intros ->. by apply Hfresh. }
  rewrite Hfr in Hrun. eexists. split; [exact Hrun|]. done.
Qed.

(** C1.  On a table whose columns include the two configured names [A]
    and [B] (first key and first value of [columns_to_rename]),
    [rename_columns] exchanges the two names: the columns stay where they
    are with the cells they had, the one named [A] is now named [B] and
    the other way round, every other name is kept, so that what was read
    under [A] is read under [B] and conversely; and a second call gives
    the table back, names and cells. *)
Theorem rename_columns_exchanges st R A B rest :
  df st = Some R →
  columns_to_rename st = (A, B) :: rest →
  VStr A ∈ columns R →
  VStr B ∈ columns R →
  ∃ R' st',
    rename_columns st = (Ok (Some R'), st') ∧ df st' = Some R'
    ∧ index R' = index R
    ∧ frame R' = (λ cs : label * Series,
                    (swap_label (VStr A) (VStr B) cs.1, cs.2)) <$> frame R
    ∧ df_getitem (VStr B) R' = df_getitem (VStr A) R
    ∧ df_getitem (VStr A) R' = df_getitem (VStr B) R
    ∧ (∀ c, c ≠ VStr A → c ≠ VStr B → df_getitem c R' = df_getitem c R)
    ∧ ∃ st'', rename_columns st' = (Ok (Some R), st'') ∧ df st'' = Some R.
Proof.
  intros Hdf Hcfg HA HB.
  destruct (rename_columns_swap st R A B rest Hdf Hcfg HA) as (st' & Hrun & Hdf' & Hcfg').
  exists (df_swap_labels (VStr A) (VStr B) R), st'.
  split_and!; try done.
  - rewrite <-(df_getitem_swap (VStr A) (VStr B) (VStr A) R).
    unfold swap_label. by rewrite decide_True.
  - rewrite <-(df_getitem_swap (VStr A) (VStr B) (VStr B) R).
    unfold swap_label. rewrite (decide_True (P := VStr B = VStr B)) by done.
    by case_decide; simplify_eq.
  - intros c HcA HcB.
    rewrite <-(df_getitem_swap (VStr A) (VStr B) c R).
    unfold swap_label. by rewrite !decide_False.
  - assert (VStr A ∈ columns (df_swap_labels (VStr A) (VStr B) R)) as HA'.
    { unfold columns, df_swap_labels; simpl. rewrite <-list_fmap_compose.
      apply list_elem_of_fmap in HB as ([c s] & Hc & Hin); simpl in Hc; subst c.
      apply list_elem_of_fmap. exists (VStr B, s). split; [|done]. simpl.
      unfold swap_label. rewrite (decide_True (P := VStr B = VStr B)) by done.
      by case_decide; simplify_eq. }
    rewrite Hcfg in Hcfg'.
    destruct (rename_columns_swap st' _ A B rest Hdf' Hcfg' HA')
      as (st'' & Hrun' & Hdf'' & _).
    rewrite df_swap_labels_involutive in Hrun', Hdf''. eauto.
Qed.

(** C10.  With more than one entry in [columns_to_rename], only the first
    key [A] and the first value [B] count.  The column named [A] is
    renamed to [B], and the column named [B] to [A] (when there is a
    column named [A]); every other column keeps its name, its place and
    its cells, and so do the columns that the further entries of the
    mapping name.  The call does what it does when the mapping holds the
    pair [(A, B)] alone, and logs that pair. *)
Theorem rename_columns_first_pair_only st R A B rest :
  df st = Some R →
  columns_to_rename st = (A, B) :: rest →
  rest ≠ [] →
  ∃ R' st1 st2,
    rename_columns st = (Ok (Some R'), st1)
    ∧ rename_columns (with_columns_to_rename [(A, B)] st) = (Ok (Some R'), st2)
    ∧ df st1 = Some R' ∧ df st2 = Some R' ∧ logger st1 = logger st2
    ∧ logger st1
      = logger st ++ [(INFO, "Swapped columns: " +:+ A +:+ " with " +:+ B)]
    ∧ index R' = index R
    ∧ length (frame R') = length (frame R)
    ∧ (∀ i s, frame R !! i = Some (VStr A, s) → frame R' !! i = Some (VStr B, s))
    ∧ (VStr A ∈ columns R →
       ∀ i s, frame R !! i = Some (VStr B, s) → frame R' !! i = Some (VStr A, s))
    ∧ (∀ i c s, frame R !! i = Some (c, s) → c ≠ VStr A → c ≠ VStr B →
                frame R' !! i = Some (c, s))
    ∧ (∀ C D i c s, (C, D) ∈ rest → frame R !! i = Some (c, s) →
         c = VStr C ∨ c = VStr D → c ≠ VStr A → c ≠ VStr B →
         frame R' !! i = Some (c, s)).
Proof.
  intros Hdf Hcfg _.
  pose proof (rename_columns_run st R A B rest Hdf Hcfg) as Hrun; simpl in Hrun.
  pose proof (rename_columns_run (with_columns_to_rename [(A, B)] st) R A B []
                Hdf eq_refl) as Hrun1; simpl in Hrun1.
  pose proof (temp_name_fresh (columns R) "__temp_name_for_swap__") as Hfresh.
  set (t := temp_name_loop _ _ _) in *.
  assert (∀ i c s, frame R !! i = Some (c, s) → c ≠ VStr t) as Hcol.
  { intros i c s Hi ->. apply Hfresh. unfold columns.
    apply list_elem_of_fmap. exists (VStr t, s). split; [done|].
    by eapply list_elem_of_lookup_2. }
  assert (∀ i c s, frame R !! i = Some (c, s) → c ≠ VStr A → c ≠ VStr B →
            ((λ cs : label * Series, (renamed A B t cs.1, cs.2)) <$> frame R) !! i
            = Some (c, s)) as Hother.
  { intros i c s Hi HcA HcB. rewrite list_lookup_fmap.
    unfold label, Series in *. rewrite Hi; simpl.
    rewrite renamed_other; try done. by eapply Hcol. }
  eexists _, _, _. split; [exact Hrun|]. split; [exact Hrun1|].
  split_and!; try done; simpl.
  - by rewrite length_fmap.
  - intros i s Hi. rewrite list_lookup_fmap.
    unfold label, Series in *. rewrite Hi; simpl.
    rewrite renamed_swap.
    + unfold swap_label. by rewrite decide_True.
    + by eapply Hcol.
    + intros ->. by eapply Hcol.
  - intros HA i s Hi. rewrite list_lookup_fmap.
    unfold label, Series in *. rewrite Hi; simpl.
    rewrite renamed_swap.
    + unfold swap_label. rewrite (decide_True (P := VStr B = VStr B)) by done.
      by case_decide; simplify_eq.
    + by eapply Hcol.
    + intros ->. by apply Hfresh.
  - intros C D i c s _ Hi _ HcA HcB. by apply Hother.
Qed.
End rename_columns.

(** ** Columns of a table *)

Section dict.
Context {K V : Type} `{EqDecision K}.

Lemma dict_lookup_set (d : py_dict K V) k v :
  dict_lookup (dict_set d k v) k = Some v.
Proof.
  induction d as [|[k' v'] d IH]; simpl.
  - by rewrite decide_True.
  - destruct (decide (k' = k)) as [->|Hne]; simpl.
    + by rewrite decide_True.
    + by rewrite decide_False.
Qed.

Lemma dict_lookup_set_ne (d : py_dict K V) k v k' :
  k ≠ k' → dict_lookup (dict_set d k v) k' = dict_lookup d k'.
Proof.
  intros Hne. induction d as [|[k0 v0] d IH]; simpl.
  - by rewrite decide_False.
  - destruct (decide (k0 = k)) as [->|Hne0]; simpl.
    + by rewrite !decide_False.
    + destruct (decide (k0 = k')); done.
Qed.

End dict.

Lemma df_getitem_setitem c s d : df_getitem c (df_setitem c s d) = Ok s.
Proof. unfold df_getitem, df_setitem; simpl. by rewrite dict_lookup_set. Qed.

Lemma df_getitem_setitem_ne c s d c' :
  c ≠ c' → df_getitem c' (df_setitem c s d) = df_getitem c' d.
Proof.
  intros. unfold df_getitem, df_setitem; simpl. by rewrite dict_lookup_set_ne.
Qed.

(** ** apply_corrections *)

Lemma sequence_fmap_Ok {A B} (f : A → result B) (g : A → B) (l : list A) :
  (∀ x, x ∈ l → f x = Ok (g x)) → sequence (f <$> l) = Ok (g <$> l).
Proof.
  induction l as [|x l IH]; intros Hf; [done|].
  rewrite !fmap_cons. simpl. rewrite (Hf x) by apply list_elem_of_here. simpl.
  rewrite IH; [done|]. intros y Hy. apply Hf. by apply list_elem_of_further.
Qed.

Lemma Qcabs_idemp q : Qcabs (Qcabs q) = Qcabs q.
Proof.
  unfold Qcabs. destruct (decide (q < 0)%Qc) as [Hneg|Hpos].
  - rewrite decide_False; [done|].
    apply Qcle_not_lt, Qclt_le_weak.
    apply Qclt_minus_iff in Hneg. by rewrite Qcplus_0_l in Hneg.
  - by rewrite decide_False.
Qed.

Lemma int64_abs_idemp z : int64_abs (int64_abs z) = int64_abs z.
Proof.
  unfold int64_abs. destruct (decide (z = int64_min)) as [->|Hz].
  - by rewrite decide_True.
  - case_decide; [done|]. apply Z.abs_idemp.
Qed.

Lemma int64_abs_range z :
  (int64_min ≤ z ≤ int64_max)%Z → (int64_min ≤ int64_abs z ≤ int64_max)%Z.
Proof.
  unfold int64_abs. case_decide; [done|].
  unfold int64_min, int64_max in *. lia.
Qed.

Lemma cell_abs_idemp v : cell_abs (cell_abs v) = cell_abs v.
Proof.
  destruct v; simpl; [done| |by rewrite Qcabs_idemp|done].
  by rewrite int64_abs_idemp.
Qed.

Lemma cell_abs_not_text v : not_text v → not_text (cell_abs v).
Proof. by destruct v. Qed.

(** A float64 column is no int64 column. *)
Lemma float64_not_int64 (s : Series) : float64_column s → ¬ int64_column s.
Proof.
  intros [_ Hex] [_ Hall]. apply Exists_exists in Hex as (v & Hin & Hv).
  eapply Forall_forall in Hall; [|done]. by destruct v.
Qed.

(** The absolute values keep a numeric column numeric. *)
Lemma cell_abs_numeric (s : Series) :
  numeric_column s → numeric_column (cell_abs <$> s).
Proof.
  intros [Hint|[Hall Hex]]; [left|right; split].
  - apply Forall_fmap. eapply Forall_impl; [exact Hint|].
    intros [| z | |]; simpl; try done. apply int64_abs_range.
  - apply Forall_fmap. eapply Forall_impl; [exact Hall|]. by intros [].
  - apply Exists_fmap. eapply Exists_impl; [exact Hex|]. by intros [].
Qed.

(** [abs] on a numeric column is [abs] on each of its cells. *)
Lemma series_abs_numeric (s : Series) :
  numeric_column s → series_abs s = Ok (cell_abs <$> s).
Proof.
  intros Hnum. unfold series_abs, dtype_of. apply sequence_fmap_Ok.
  intros v Hv. destruct Hnum as [Hint|Hfl].
  - rewrite decide_True.
    + eapply Forall_forall in Hint; [|done]. by destruct v.
    + split; [|done]. intros ->. by apply elem_of_nil in Hv.
  - rewrite decide_False by (by apply float64_not_int64).
    rewrite decide_True by done.
    destruct Hfl as [Hall _]. eapply Forall_forall in Hall; [|done].
    by destruct v.
Qed.

Section apply_corrections.
Context `{DataIngestion}.
Import FieldDataProcessor.

Lemma correct_value_key vr k v :
  dict_lookup vr k = Some v → correct_value vr (VStr k) = v.
Proof. intros Hk. unfold correct_value, dict_get. by rewrite Hk. Qed.

Lemma correct_value_other vr v :
  (∀ k, v = VStr k → dict_lookup vr k = None) → correct_value vr v = v.
Proof.
  intros Hk. destruct v as [| | |k]; try done.
  unfold correct_value, dict_get. by rewrite (Hk k).
Qed.

(** What a call comes to, on a loaded table that has the two columns and
    numbers under the second. *)
Lemma apply_corrections_run st R column_name abs_column e c :
  df st = Some R →
  df_getitem (VStr abs_column) R = Ok e →
  numeric_column e →
  df_getitem (VStr column_name) (df_setitem (VStr abs_column) (cell_abs <$> e) R)
    = Ok c →
  let R1 := df_setitem (VStr column_name)
              (correct_value (values_to_rename st) <$> c)
              (df_setitem (VStr abs_column) (cell_abs <$> e) R) in
  apply_corrections column_name abs_column st =
    (Ok (Some R1),
     mk (db_path st) (sql_query st) (columns_to_rename st) (values_to_rename st)
        (weather_map_data st) (logger st) (Some R1) (engine st)).
Proof.
  intros Hdf He Hnum Hc. unfold apply_corrections, the_df, set_df. run_method.
  rewrite Hdf, He; simpl. rewrite (series_abs_numeric e Hnum); simpl.
  rewrite Hc; simpl. done.
Qed.

(** C6, as the code has it.  On a table that has the category column and
    the elevation-like column, two different columns, the latter numeric
    (int64, or float64 with [NaN] for a missing value) and the former of
    one kind, with strings for the images of [values_to_rename],
    [apply_corrections] succeeds; every cell of the elevation-like column
    then holds the absolute value of what it held (the least int64, which
    has no opposite, and [NaN] stay as they are); every category that is a
    key of [values_to_rename] is replaced by its image and every other
    category is kept; a second call leaves the elevation-like column as
    the first call made it; and the table
    [{Field_ID: 1, Crop_type: "BEAN", Elevation: -5}] with the map
    [{"BEAN": "Bean"}] becomes
    [{Field_ID: 1, Crop_type: "Bean", Elevation: 5}]. *)
Theorem apply_corrections_corrects st R column_name abs_column e c :
  df st = Some R →
  NoDup (columns R) →
  df_getitem (VStr abs_column) R = Ok e →
  df_getitem (VStr column_name) R = Ok c →
  column_name ≠ abs_column →
  numeric_column e →
  plain_column c →
  to_strings (values_to_rename st) →
  (∃ R1 st1 a c1,
    apply_corrections column_name abs_column st = (Ok (Some R1), st1)
    ∧ df st1 = Some R1
    ∧ df_getitem (VStr abs_column) R1 = Ok a
    ∧ df_getitem (VStr column_name) R1 = Ok c1
    ∧ length a = length e ∧ length c1 = length c
    ∧ (∀ i z, e !! i = Some (VInt z) →
         a !! i = Some (VInt (if decide (z = int64_min) then z else Z.abs z)))
    ∧ (∀ i q, e !! i = Some (VFloat q) →
         a !! i = Some (VFloat (if decide (q < 0)%Qc then (- q)%Qc else q)))
    ∧ (∀ i, e !! i = Some VNull → a !! i = Some VNull)
    ∧ (∀ i k v, c !! i = Some (VStr k) →
         dict_lookup (values_to_rename st) k = Some v → c1 !! i = Some v)
    ∧ (∀ i x, c !! i = Some x →
         (∀ k, x = VStr k → dict_lookup (values_to_rename st) k = None) →
         c1 !! i = Some x)
    ∧ ∃ R2 st2,
        apply_corrections column_name abs_column st1 = (Ok (Some R2), st2)
        ∧ df st2 = Some R2
        ∧ df_getitem (VStr abs_column) R2 = Ok a)
  ∧ (apply_corrections "Crop_type" "Elevation" Sample.bean_processor).1
      = Ok (Some Sample.bean_table_corrected).
Proof.
  intros Hdf _ He Hc Hne Hnum _ _. split; [|done].
  assert (VStr abs_column ≠ VStr column_name) as Hne' by congruence.
  assert (VStr column_name ≠ VStr abs_column) as Hne'' by congruence.
  assert (df_getitem (VStr column_name)
            (df_setitem (VStr abs_column) (cell_abs <$> e) R) = Ok c) as Hc1
    by (by rewrite df_getitem_setitem_ne).
  pose proof (apply_corrections_run st R _ _ e c Hdf He Hnum Hc1) as Hrun.
  simpl in Hrun. set (R1 := df_setitem (VStr column_name) _ _) in *.
  assert (df_getitem (VStr abs_column) R1 = Ok (cell_abs <$> e)) as He1.
  { unfold R1. rewrite df_getitem_setitem_ne by done. apply df_getitem_setitem. }
  assert (df_getitem (VStr column_name) R1
          = Ok (correct_value (values_to_rename st) <$> c)) as Hc2
    by apply df_getitem_setitem.
  exists R1. eexists. exists (cell_abs <$> e), (correct_value (values_to_rename st) <$> c).
  split; [exact Hrun|]. split_and!; try done.
  - by rewrite length_fmap.
  - by rewrite length_fmap.
  - intros i z Hi. unfold Series in *. by rewrite list_lookup_fmap, Hi.
  - intros i q Hi. unfold Series in *. by rewrite list_lookup_fmap, Hi.
  - intros i Hi. unfold Series in *. by rewrite list_lookup_fmap, Hi.
  - intros i k v Hi Hk. unfold Series in *. rewrite list_lookup_fmap, Hi. simpl.
    f_equal. by apply correct_value_key.
  - intros i x Hi Hx. unfold Series in *. rewrite list_lookup_fmap, Hi. simpl.
    f_equal. by apply correct_value_other.
  - eexists _, _. split; [|split].
    + eapply apply_corrections_run;
        [done|exact He1|by apply cell_abs_numeric|].
      rewrite df_getitem_setitem_ne by done. exact Hc2.
    + reflexivity.
    + simpl. rewrite df_getitem_setitem_ne by done.
      rewrite df_getitem_setitem. f_equal.
      rewrite <-list_fmap_compose. apply list_fmap_ext.
      intros i v _; simpl. apply cell_abs_idemp.
Qed.
End apply_corrections.

(** ** The left join *)

Lemma elem_of_key_positions (k : value) (keys : Series) j :
  j ∈ key_positions k keys ↔ ∃ k', keys !! j = Some k' ∧ same_key k k'.
Proof.
  unfold key_positions. rewrite list_elem_of_fmap. split.
  - intros ([j' x] & -> & [Hx Hin]%list_elem_of_filter). simpl in *.
    apply elem_of_lookup_imap in Hin as (i & y & [= -> ->] & Hi). eauto.
  - intros (k' & Hj & Hk). exists (j, k'). split; [done|].
    apply list_elem_of_filter. split; [done|].
    apply elem_of_lookup_imap. eauto.
Qed.

(** The rows of the join: every row comes from a row of the left table,
    paired with a row of the right table that has the same key, or with
    none when no row of the right table has that key. *)
Lemma elem_of_join_rows (lk rk : Series) i oj :
  (i, oj) ∈ join_rows lk rk
  ↔ ∃ k, lk !! i = Some k
         ∧ match oj with
           | Some j => ∃ k', rk !! j = Some k' ∧ same_key k k'
           | None => ∀ k', k' ∈ rk → ¬ same_key k k'
           end.
Proof.
  unfold join_rows. rewrite list_elem_of_join. split.
  - intros (l & Hin & (i' & k & -> & Hi)%elem_of_lookup_imap).
    destruct (key_positions k rk) as [|j0 js] eqn:Hpos.
    + apply list_elem_of_singleton in Hin as [= -> ->]. exists k. split; [done|].
      intros k' (j & Hj)%list_elem_of_lookup Hk.
      assert (j ∈ key_positions k rk) as Hin
        by (apply elem_of_key_positions; eauto).
      rewrite Hpos in Hin. by apply elem_of_nil in Hin.
    + apply list_elem_of_fmap in Hin as (j & [= -> ->] & Hj).
      exists k. split; [done|]. apply elem_of_key_positions. by rewrite Hpos.
  - intros (k & Hi & Hoj).
    exists (match key_positions k rk with
            | [] => [(i, None)]
            | js => (λ j, (i, Some j)) <$> js
            end). split.
    + destruct oj as [j|].
      * apply elem_of_key_positions in Hoj.
        destruct (key_positions k rk) as [|j0 js]; [by apply elem_of_nil in Hoj|].
        apply list_elem_of_fmap. eauto.
      * destruct (key_positions k rk) as [|j0 js] eqn:Hpos;
          [apply list_elem_of_here|].
        assert (j0 ∈ key_positions k rk) as Hin
          by (rewrite Hpos; apply list_elem_of_here).
        apply elem_of_key_positions in Hin as (k' & Hj & Hk).
        destruct (Hoj k'); [|done]. by eapply list_elem_of_lookup_2.
    + apply elem_of_lookup_imap. eauto.
Qed.

(** Every row of the left table is kept. *)
Lemma join_rows_keeps_left (lk rk : Series) i :
  i < length lk → ∃ oj, (i, oj) ∈ join_rows lk rk.
Proof.
  intros (k & Hi)%lookup_lt_is_Some_2.
  destruct (decide (Exists (same_key k) rk)) as [Hex|Hno].
  - apply Exists_exists in Hex as (k' & (j & Hj)%list_elem_of_lookup & Hk).
    exists (Some j). apply elem_of_join_rows. eauto.
  - exists None. apply elem_of_join_rows. exists k. split; [done|].
    intros k' Hin Hk. apply Hno. apply Exists_exists. eauto.
Qed.

(** ** FieldDataProcessor.process *)

Section field_process.
Context `{DataIngestion}.
Import FieldDataProcessor.

(** The three ways [process] can end. *)
Lemma process_cases st :
  (∃ e st1, process_merge st = (Raise e, st1) ∧ process st = (Raise e, st1))
  ∨ (∃ st1 e st2, process_merge st = (Ok tt, st1)
                  ∧ process_drop st1 = (Raise e, st2)
                  ∧ process st = (Raise e, st2))
  ∨ (∃ st1 st2, process_merge st = (Ok tt, st1)
                ∧ process_drop st1 = (Ok tt, st2)
                ∧ process st = (Ok None, st2)).
Proof.
  unfold process. run_method.
  destruct (process_merge st) as [[[]|e] st1]; [|left; eauto].
  right. destruct (process_drop st1) as [[[]|e] st2] eqn:Hd; [right|left]; eauto 10.
Qed.

Lemma process_drop_run st m :
  df st = Some m →
  process_drop st =
    match df_drop (VStr "Unnamed: 0") m with
    | Ok m' => (Ok tt, mk (db_path st) (sql_query st) (columns_to_rename st)
                          (values_to_rename st) (weather_map_data st)
                          (logger st) (Some m') (engine st))
    | Raise e => (Raise e, st)
    end.
Proof.
  intros Hdf. unfold process_drop, the_df, set_df. run_method. rewrite Hdf.
  by destruct (df_drop _ m).
Qed.

(** C4, on the code.  Whenever [process] ends without an exception, the
    value of the call is [None], not a table: the body has no [return].
    The merged table, less the column ["Unnamed: 0"], is left in
    [self.df]. *)
Theorem process_returns_none st r st' :
  process st = (Ok r, st') →
  r = None
  ∧ ∃ st1 m m', process_merge st = (Ok tt, st1) ∧ df st1 = Some m
                ∧ df_drop (VStr "Unnamed: 0") m = Ok m' ∧ df st' = Some m'.
Proof.
  intros Hp.
  destruct (process_cases st) as [(e & st1 & _ & Hp')|[(st1 & e & st2 & _ & _ & Hp')
    |(st1 & st2 & Hm & Hd & Hp')]]; rewrite Hp' in Hp; simplify_eq.
  split; [done|].
  destruct (df st1) as [m|] eqn:Hdf.
  - rewrite (process_drop_run st1 m Hdf) in Hd.
    destruct (df_drop _ m) as [m'|e] eqn:Hdrop; simplify_eq. eauto 10.
  - unfold process_drop, the_df in Hd. revert Hd. run_method. by rewrite Hdf.
Qed.

(** C9, as the code has it.  When the merged table has the column
    ["Unnamed: 0"], the last step of [process] removes it, keeping every
    other column, and [process] ends normally; when the merged table has
    no such column, the step raises [KeyError], [process] ends with that
    exception, and [self.df] keeps the merged table. *)
Theorem process_drop_unnamed st st1 m :
  process_merge st = (Ok tt, st1) →
  df st1 = Some m →
  (VStr "Unnamed: 0" ∈ columns m →
     ∃ st2 m', process st = (Ok None, st2) ∧ df st2 = Some m'
       ∧ index m' = index m
       ∧ frame m' = filter (λ cs : label * Series, cs.1 ≠ VStr "Unnamed: 0") (frame m)
       ∧ VStr "Unnamed: 0" ∉ columns m')
  ∧ (VStr "Unnamed: 0" ∉ columns m →
     process st = (Raise KeyError, st1) ∧ df st1 = Some m).
Proof.
  intros Hm Hdf. pose proof (process_drop_run st1 m Hdf) as Hd.
  unfold df_drop in Hd. split; intros Hin.
  - rewrite decide_True in Hd by done.
    eexists _, _. split.
    + unfold process. run_method. rewrite Hm; simpl. by rewrite Hd.
    + split_and!; try done. simpl. unfold columns; simpl.
      intros ([c s] & Hc & Hf%list_elem_of_filter)%list_elem_of_fmap.
      simpl in *. by destruct Hf.
  - rewrite decide_False in Hd by done. split; [|done].
    unfold process. run_method. rewrite Hm; simpl. by rewrite Hd.
Qed.
End field_process.

(** ** extract_measurement *)

Section extract_measurement.
Context `{TextLib}.
Import WeatherDataProcessor.

(** The loop keeps the configuration and the table, and adds to the log. *)
Lemma extract_loop_state items message st :
  patterns (extract_loop items message st).2 = patterns st
  ∧ weather_df (extract_loop items message st).2 = weather_df st
  ∧ weather_station_data (extract_loop items message st).2
      = weather_station_data st.
Proof.
  induction items as [|[key p] items IH]; simpl; [done|].
  unfold log. run_method.
  destruct (search p message) as [[groups|]|e]; simpl; [|done|done].
  destruct (first_not_none groups) as [x|e]; simpl; [|done].
  by destruct (py_float x).
Qed.

Lemma extract_loop_value items message st :
  (extract_loop items message st).1 = extraction items message.
Proof.
  induction items as [|[key p] items IH]; simpl; [done|].
  unfold log. run_method.
  destruct (search p message) as [[groups|]|e]; simpl; [|done|done].
  destruct (first_not_none groups) as [x|e]; simpl; [|done].
  by destruct (py_float x).
Qed.

Lemma extract_measurement_value message st :
  (extract_measurement message st).1 = extraction (patterns st) message.
Proof. unfold extract_measurement. run_method. apply extract_loop_value. Qed.

(** Patterns that do not match are passed over. *)
Lemma extraction_skip pre items (m : string) :
  (∀ k p, (k, p) ∈ pre → re_search p m = None) →
  extraction (pre ++ items) (VStr m) = extraction items (VStr m).
Proof.
  induction pre as [|[k p] pre IH]; intros Hpre; simpl; [done|].
  rewrite (Hpre k p) by apply list_elem_of_here. simpl.
  apply IH. intros k' p' Hin. apply (Hpre k' p'). by apply list_elem_of_further.
Qed.

(** The first pattern that matches decides, whatever follows it. *)
Lemma extraction_match k p post (m : string) groups :
  re_search p m = Some groups →
  extraction ((k, p) :: post) (VStr m)
  = (x ← first_not_none groups;
     match py_float x with
     | Some v => Ok (VStr k, VFloat v)
     | None => Raise ValueError
     end).
Proof. intros Hm. simpl. by rewrite Hm. Qed.

Lemma extraction_absent items (m : string) :
  extraction items (VStr m) = Ok (VNull, VNull)
  ↔ ∀ k p, (k, p) ∈ items → re_search p m = None.
Proof.
  induction items as [|[k p] items IH]; simpl.
  - split; [|done]. intros _ k p Hin. by apply elem_of_nil in Hin.
  - destruct (re_search p m) as [groups|] eqn:Hm; simpl.
    + split.
      * intros Hx. destruct (first_not_none groups) as [x|]; simpl in Hx; [|done].
        by destruct (py_float x).
      * intros Hno. by rewrite (Hno k p) in Hm by apply list_elem_of_here.
    + rewrite IH. split.
      * intros Hno k' p' [[= -> ->]|Hin]%elem_of_cons; eauto.
      * intros Hno k' p' Hin. apply (Hno k' p'). by apply list_elem_of_further.
Qed.

(** The first capture that is not [None] is the one that [next] finds. *)
Lemma first_not_none_skip (nones : list (option string)) x rest :
  Forall (λ g, g = None) nones →
  first_not_none (nones ++ Some x :: rest) = Ok x.
Proof. induction 1 as [|g nones -> _ IH]; simpl; done. Qed.

(** C2.  [extract_measurement] on a message [m] returns [(None, None)]
    exactly when no configured pattern matches [m].  Otherwise the first
    pattern in declaration order that matches decides alone: when [x] is
    its first capture that is not [None] (the captures before [x] are all
    [None]) and [float(x)] is [v], the call returns the name of that
    pattern paired with [v], logs that name, and returns the same
    whatever patterns are declared after that one. *)
Theorem extract_measurement_first_match (st : self) (m : string) :
  ((extract_measurement (VStr m) st).1 = Ok (VNull, VNull)
     ↔ ∀ k p, (k, p) ∈ patterns st → re_search p m = None)
  ∧ ∀ pre k p post nones x rest v,
      patterns st = pre ++ (k, p) :: post →
      (∀ k' p', (k', p') ∈ pre → re_search p' m = None) →
      re_search p m = Some (nones ++ Some x :: rest) →
      Forall (λ g, g = None) nones →
      py_float x = Some v →
      extract_measurement (VStr m) st
        = (Ok (VStr k, VFloat v),
           logged DEBUG ("Measurement extracted: " +:+ k) st)
      ∧ ∀ post',
          (extract_measurement (VStr m)
             (with_patterns (pre ++ (k, p) :: post') st)).1
          = Ok (VStr k, VFloat v).
Proof.
  split.
  - rewrite extract_measurement_value. apply extraction_absent.
  - intros pre k p post nones x rest v Hps Hpre Hm Hnones Hv.
    assert (∀ post', extraction (pre ++ (k, p) :: post') (VStr m)
              = Ok (VStr k, VFloat v)) as Hall.
    { intros post'. rewrite extraction_skip by done.
      rewrite (extraction_match _ _ _ _ _ Hm).
      rewrite first_not_none_skip by done. simpl. by rewrite Hv. }
    split.
    + unfold extract_measurement. run_method. rewrite Hps.
      clear Hps Hall. induction pre as [|[k' p'] pre IH]; simpl.
      * unfold log, logged. run_method. rewrite Hm; simpl.
        rewrite first_not_none_skip by done. simpl. by rewrite Hv.
      * run_method. rewrite (Hpre k' p') by apply list_elem_of_here. simpl.
        apply IH. intros k'' p'' Hin. apply (Hpre k'' p'').
        by apply list_elem_of_further.
    + intros post'. rewrite extract_measurement_value. simpl. apply Hall.
Qed.

Lemma first_not_none_exhausted groups :
  (∀ x, Some x ∉ groups) → first_not_none groups = Raise StopIteration.
Proof.
  induction groups as [|[x|] groups IH]; intros Hno; simpl; [done| |].
  - by destruct (Hno x); apply list_elem_of_here.
  - apply IH. intros x Hin. apply (Hno x). by apply list_elem_of_further.
Qed.

(** C7, as the code has it.  When the first pattern that matches a
    message yields no capture other than [None], [extract_measurement]
    raises [StopIteration]; when the first such capture is no number,
    it raises [ValueError].  In both cases an exception leaves the call
    and nothing is returned. *)
Theorem extract_measurement_raises (st : self) (m : string) pre k p post groups :
  patterns st = pre ++ (k, p) :: post →
  (∀ k' p', (k', p') ∈ pre → re_search p' m = None) →
  re_search p m = Some groups →
  ((∀ x, Some x ∉ groups) →
     (extract_measurement (VStr m) st).1 = Raise StopIteration)
  ∧ (∀ x, first_not_none groups = Ok x → py_float x = None →
       (extract_measurement (VStr m) st).1 = Raise ValueError).
Proof.
  intros Hps Hpre Hm.
  rewrite extract_measurement_value, Hps, extraction_skip by done.
  rewrite (extraction_match _ _ _ _ _ Hm). split.
  - intros Hno. by rewrite first_not_none_exhausted.
  - intros x Hx Hv. by rewrite Hx; simpl; rewrite Hv.
Qed.
End extract_measurement.

(** ** process_messages, calculate_means and WeatherDataProcessor.process *)

Section weather.
Context `{DataIngestion} `{TextLib} `{Float64}.
Import WeatherDataProcessor.

(** C8.  While no table is loaded ([weather_df] is [None]),
    [process_messages] and [calculate_means] both end without an
    exception, return [None], and make one call on the logger, at level
    WARNING; nothing else of the object changes. *)
Theorem not_loaded_warns (st : self) :
  weather_df st = None →
  process_messages st
    = (Ok None,
       logged WARNING "weather_df is not initialized, skipping message processing." st)
  ∧ calculate_means st
    = (Ok None,
       logged WARNING "weather_df is not initialized, cannot calculate means." st).
Proof.
  intros Hdf. unfold process_messages, calculate_means, log, logged. run_method.
  rewrite Hdf; simpl. by rewrite Hdf.
Qed.

(** Extraction over a column: the object keeps its configuration and its
    table, and the values are those of [extraction], up to the first
    exception. *)
Lemma apply_method_extract (msgs : Series) (st : self) :
  patterns (apply_method extract_measurement msgs st).2 = patterns st
  ∧ weather_df (apply_method extract_measurement msgs st).2 = weather_df st
  ∧ weather_station_data (apply_method extract_measurement msgs st).2
      = weather_station_data st
  ∧ (apply_method extract_measurement msgs st).1
      = sequence (extraction (patterns st) <$> msgs).
Proof.
  revert st. induction msgs as [|m msgs IH]; intros st; [done|].
  rewrite fmap_cons. simpl. run_method.
  pose proof (extract_measurement_value m st) as Hv.
  pose proof (extract_loop_state (patterns st) m st) as (Hp & Hd & Hu).
  unfold extract_measurement in *. revert Hv. run_method.
  destruct (extract_loop _ m st) as [[r|e] st1]; simpl in *; intros <-; [|done].
  destruct (IH st1) as (Hp1 & Hd1 & Hu1 & Hv1).
  destruct (apply_method _ msgs st1) as [[rs|e] st2]; simpl in *;
    rewrite Hp in Hv1; rewrite <-Hv1; simpl; split_and!; congruence.
Qed.

(** C5, as the code has it.  A successful [process] has loaded the table
    and extracted one measurement per row, in row order, into the columns
    [Measurement] and [Value] of [weather_df]; the call returns [None].
    It does not compute the means. *)
Theorem process_loads_and_extracts (st : self) r st' :
  process st = (Ok r, st') →
  r = None
  ∧ ∃ R msgs results,
      read_from_web_CSV (weather_station_data st) = Ok R
      ∧ df_getitem (VStr "Message") R = Ok msgs
      ∧ sequence (extraction (patterns st) <$> msgs) = Ok results
      ∧ length results = length msgs
      ∧ weather_df st'
        = Some (df_setitem (VStr "Value") results.*2
                  (df_setitem (VStr "Measurement") results.*1 R)).
Proof.
  unfold process, weather_station_mapping, process_messages, set_weather_df, log.
  run_method.
  destruct (read_from_web_CSV _) as [R|e] eqn:HR; simpl; [|done].
  destruct (df_getitem _ R) as [msgs|e] eqn:Hmsgs; simpl; [|done].
  match goal with |- context [apply_method _ msgs ?s] =>
    pose proof (apply_method_extract msgs s) as (Hp & Hd & Hu & Hv);
    destruct (apply_method extract_measurement msgs s) as [[results|e] st2]
  end; simpl in *; [|done].
  destruct results as [|r0 results]; simpl; [done|].
  rewrite Hd; simpl. intros [= <- <-]. split; [done|].
  exists R, msgs, (r0 :: results). split_and!; try done.
  symmetry in Hv. clear -Hv. revert Hv. generalize (r0 :: results). clear.
  induction msgs as [|m msgs IH]; intros rs; simpl.
  - by intros [= <-].
  - destruct (extraction _ m); simpl; [|done].
    destruct (sequence _) as [rs'|] eqn:Hs; simpl; [|done].
    intros [= <-]. simpl. f_equal. by apply IH.
Qed.
End weather.

(** ** Group-by, mean and unstack *)

Section group_by.
Context `{Float64}.

Lemma number_not_text v : not_text v → number v = Ok (as_number v).
Proof. by destruct v. Qed.

Lemma omap_id_fmap {A B} (f : A → option B) (l : list A) :
  omap id (f <$> l) = omap f l.
Proof.
  induction l as [|x l IH]; [done|]. csimpl.
  destruct (f x); csimpl; by rewrite IH.
Qed.

(** The mean of a group without text: nothing when it holds no number, and
    otherwise the sum of its numbers over their count. *)
Lemma series_mean_not_text (s : Series) :
  Forall not_text s →
  series_mean s = Ok (mean_cell s).
Proof.
  intros Hs. unfold series_mean, mean_cell.
  rewrite (sequence_fmap_Ok number as_number).
  - simpl. rewrite omap_id_fmap. by destruct (omap as_number s).
  - intros x Hx. apply number_not_text. by eapply Forall_forall in Hs.
Qed.

Lemma dict_lookup_tabulate {K V} `{EqDecision K} (f : K → V) (l : list K) k :
  dict_lookup ((λ c, (c, f c)) <$> l) k = if decide (k ∈ l) then Some (f k) else None.
Proof.
  induction l as [|x l IH]; [done|]. rewrite fmap_cons. simpl.
  destruct (decide (x = k)) as [->|Hne].
  - by rewrite decide_True by apply list_elem_of_here.
  - rewrite IH. destruct (decide (k ∈ l)) as [Hin|Hnin].
    + by rewrite decide_True by (by apply list_elem_of_further).
    + rewrite decide_False; [done|]. intros [?|?]%elem_of_cons; done.
Qed.

Lemma elem_of_sorted_dups `{EqDecision A} (R : relation A)
    `{∀ x y, Decision (R x y)} (l : list A) x :
  x ∈ merge_sort R (remove_dups l) ↔ x ∈ l.
Proof. by rewrite merge_sort_Permutation, elem_of_remove_dups. Qed.

Lemma NoDup_sorted_dups `{EqDecision A} (R : relation A)
    `{∀ x y, Decision (R x y)} (l : list A) :
  NoDup (merge_sort R (remove_dups l)).
Proof. rewrite merge_sort_Permutation. apply NoDup_remove_dups. Qed.

(** The cells of a group that is kept are the observations under its key. *)
Lemma group_cells_observations k1 k2 v s m :
  s ≠ VNull → m ≠ VNull →
  group_cells (grouped_rows k1 k2 v) (s, m) = observations k1 k2 v s m.
Proof.
  intros Hs Hm. unfold group_cells, grouped_rows, observations.
  rewrite list_filter_filter_l; [done|]. by intros [[s' m'] x] [= -> ->].
Qed.

Lemma grouped_rows_lookup k1 k2 v s m x :
  ((s, m), x) ∈ grouped_rows k1 k2 v
  ↔ s ≠ VNull ∧ m ≠ VNull
    ∧ ∃ i, k1 !! i = Some s ∧ k2 !! i = Some m ∧ v !! i = Some x.
Proof.
  unfold grouped_rows. rewrite list_elem_of_filter; simpl.
  rewrite list_elem_of_lookup.
  setoid_rewrite lookup_zip_Some. setoid_rewrite lookup_zip_Some.
  split.
  - intros [[Hs Hm] (i & [[H1 H2] H3])]. eauto 10.
  - intros (Hs & Hm & i & H1 & H2 & H3). eauto 10.
Qed.

Lemma groupby_mean_run c1 c2 c d k1 k2 v :
  df_getitem c1 d = Ok k1 →
  df_getitem c2 d = Ok k2 →
  df_getitem c d = Ok v →
  Forall (λ r : (value * value) * value, not_text r.2) (grouped_rows k1 k2 v) →
  groupby_mean c1 c2 c d
  = Ok ((λ k, (k, mean_cell (group_cells (grouped_rows k1 k2 v) k)))
          <$> merge_sort key_le (remove_dups (grouped_rows k1 k2 v).*1)).
Proof.
  intros H1 H2 Hv Hnum. unfold groupby_mean. rewrite H1, H2, Hv. simpl.
  apply sequence_fmap_Ok. intros k _.
  rewrite series_mean_not_text; [done|].
  unfold group_cells. apply Forall_fmap.
  apply Forall_forall. intros r [_ Hr]%list_elem_of_filter.
  by eapply Forall_forall in Hnum.
Qed.

Lemma tabulate_keys {K V} (f : K → V) (l : list K) :
  ((λ c, (c, f c)) <$> l).*1 = l.
Proof.
  rewrite <-list_fmap_compose. rewrite <-(list_fmap_id l) at 2.
  by apply list_fmap_ext.
Qed.

(** The cell of an unstacked series at a row and a column that it has. *)
Lemma unstack_at (f : value * value → value) (keys : list (value * value)) s m :
  s ∈ keys.*1 →
  m ∈ keys.*2 →
  df_at (unstack ((λ k, (k, f k)) <$> keys)) s m
  = Some (if decide ((s, m) ∈ keys) then f (s, m) else VNull).
Proof.
  intros Hs Hm. unfold df_at, unstack; simpl. rewrite tabulate_keys.
  set (idx := merge_sort value_le (remove_dups keys.*1)).
  set (cols := merge_sort value_le (remove_dups keys.*2)).
  assert (s ∈ idx) as Hsi by (by apply elem_of_sorted_dups).
  assert (m ∈ cols) as Hmc by (by apply elem_of_sorted_dups).
  destruct (list_find_elem_of (λ x, x = s) idx s Hsi eq_refl) as [[i s'] Hfind].
  rewrite Hfind; simpl.
  apply list_find_Some in Hfind as (Hi & -> & _).
  rewrite dict_lookup_tabulate, decide_True by done. simpl.
  unfold Series, label in *. rewrite list_lookup_fmap, Hi; simpl. f_equal.
  unfold dict_get. rewrite dict_lookup_tabulate. by case_decide.
Qed.

Lemma observations_absent k1 k2 v s m :
  (s, m) ∉ (grouped_rows k1 k2 v).*1 →
  s ≠ VNull → m ≠ VNull →
  observations k1 k2 v s m = [].
Proof.
  intros Hno Hs Hm. rewrite <-group_cells_observations by done.
  unfold group_cells.
  destruct (filter _ _) as [|r rs] eqn:Hf; [done|].
  assert (r ∈ filter (λ r : (value * value) * value, r.1 = (s, m))
                (grouped_rows k1 k2 v)) as [Hr Hin]%list_elem_of_filter
    by (rewrite Hf; apply list_elem_of_here).
  destruct Hno. rewrite <-Hr. by apply list_elem_of_fmap_2.
Qed.

Lemma elem_of_group_keys k1 k2 v s m :
  (s, m) ∈ merge_sort key_le (remove_dups (grouped_rows k1 k2 v).*1)
  ↔ s ≠ VNull ∧ m ≠ VNull
    ∧ ∃ i x, k1 !! i = Some s ∧ k2 !! i = Some m ∧ v !! i = Some x.
Proof.
  rewrite elem_of_sorted_dups, list_elem_of_fmap. split.
  - intros ([[s' m'] x] & [= <- <-] & Hin).
    apply grouped_rows_lookup in Hin as (Hs & Hm & i & Hi). eauto 10.
  - intros (Hs & Hm & i & x & Hi). exists ((s, m), x). split; [done|].
    apply grouped_rows_lookup. eauto 10.
Qed.

Lemma unstack_rectangular (means : list ((value * value) * value)) c s :
  (c, s) ∈ frame (unstack means) → length s = length (index (unstack means)).
Proof.
  unfold unstack; simpl. intros (m & [= -> ->] & _)%list_elem_of_fmap.
  by rewrite length_fmap.
Qed.

Lemma grouped_rows_not_text (k1 k2 v : Series) :
  Forall not_text v →
  Forall (λ r : (value * value) * value, not_text r.2) (grouped_rows k1 k2 v).
Proof.
  intros Hv. apply Forall_forall. intros [[s m] x] [_ Hin]%list_elem_of_filter.
  apply elem_of_zip_r in Hin. simpl. by eapply Forall_forall in Hv.
Qed.

Lemma numeric_not_text (s : Series) : numeric_column s → Forall not_text s.
Proof.
  intros [Hint|[Hfl _]]; (eapply Forall_impl; [done|]); by intros [].
Qed.

(** The order of the keys is total: numbers by magnitude, then strings by
    code points. *)
#[global] Instance value_le_total : Total value_le.
Proof.
  intros [|x|x|x] [|y|y|y]; simpl; auto.
  - lia.
  - destruct (Qclt_le_dec y (Qc_of_Z x)); [right; by apply Qclt_le_weak|by left].
  - destruct (Qclt_le_dec x (Qc_of_Z y)); [left; by apply Qclt_le_weak|by right].
  - destruct (Qclt_le_dec y x); [right; by apply Qclt_le_weak|by left].
  - apply String.leb_total.
Qed.

End group_by.

Section calculate_means.
Context `{TextLib} `{Float64}.
Import WeatherDataProcessor.

(** C3, as the code has it.  On a loaded table that has the columns
    [Weather_station_ID], [Measurement] and [Value], the first two of one
    kind each and the last numeric, [calculate_means] returns a
    rectangular table with one row per station identifier and one column
    per measurement name (those that occur together in some row, each
    once, in ascending order).  Its cell at a station and a measurement is
    the mean, as float64 arithmetic gives it, of the numbers under [Value]
    in the rows of that station and that measurement, taken in row order:
    a float within [mean_error] of their arithmetic mean; it is missing,
    not zero, when there is no such number. *)
Theorem calculate_means_table (st : self) R k1 k2 v :
  weather_df st = Some R →
  NoDup (columns R) →
  df_getitem (VStr "Weather_station_ID") R = Ok k1 →
  df_getitem (VStr "Measurement") R = Ok k2 →
  df_getitem (VStr "Value") R = Ok v →
  plain_column k1 →
  plain_column k2 →
  numeric_column v →
  ∃ T,
    calculate_means st = (Ok (Some T), logged INFO "Mean values calculated." st)
    ∧ NoDup (index T) ∧ NoDup (columns T)
    ∧ Sorted value_le (index T) ∧ Sorted value_le (columns T)
    ∧ (∀ c s, (c, s) ∈ frame T → length s = length (index T))
    ∧ (∀ s, s ∈ index T ↔
         s ≠ VNull ∧ ∃ m i x, m ≠ VNull ∧ k1 !! i = Some s
                              ∧ k2 !! i = Some m ∧ v !! i = Some x)
    ∧ (∀ m, m ∈ columns T ↔
         m ≠ VNull ∧ ∃ s i x, s ≠ VNull ∧ k1 !! i = Some s
                              ∧ k2 !! i = Some m ∧ v !! i = Some x)
    ∧ (∀ s m, s ∈ index T → m ∈ columns T →
         df_at T s m
         = Some (match omap as_number (observations k1 k2 v s m) with
                 | [] => VNull
                 | ys => VFloat (float64_mean ys)
                 end))
    ∧ (∀ s m ys, s ∈ index T → m ∈ columns T →
         omap as_number (observations k1 k2 v s m) = ys →
         summable ys →
         ∃ q, df_at T s m = Some (VFloat q)
              ∧ (exact_mean ys - mean_error ys ≤ q)%Qc
              ∧ (q ≤ exact_mean ys + mean_error ys)%Qc).
Proof.
  intros Hdf _ H1 H2 Hv _ _ Hnumeric.
  assert (Forall (λ r : (value * value) * value, not_text r.2)
            (grouped_rows k1 k2 v)) as Hnum.
  { apply grouped_rows_not_text. by apply numeric_not_text. }
  pose proof (groupby_mean_run _ _ _ R k1 k2 v H1 H2 Hv Hnum) as Hg.
  set (rows := grouped_rows k1 k2 v) in *.
  set (keys := merge_sort key_le (remove_dups rows.*1)) in *.
  set (means := (λ k, (k, mean_cell (group_cells rows k))) <$> keys) in *.
  assert (∀ s, s ∈ index (unstack means) ↔ s ∈ keys.*1) as Hidx.
  { intros s. unfold unstack, means; simpl. rewrite tabulate_keys.
    apply elem_of_sorted_dups. }
  assert (∀ m, m ∈ columns (unstack means) ↔ m ∈ keys.*2) as Hcols.
  { intros m. unfold columns, unstack, means; simpl.
    rewrite !tabulate_keys. apply elem_of_sorted_dups. }
  assert (∀ s m, s ∈ index (unstack means) → m ∈ columns (unstack means) →
            df_at (unstack means) s m
            = Some (mean_cell (observations k1 k2 v s m))) as Hcell.
  { intros s m Hs%Hidx Hm%Hcols. unfold means. rewrite unstack_at by done.
    f_equal.
    apply list_elem_of_fmap in Hs as ([s1 m1] & -> & Hs).
    apply list_elem_of_fmap in Hm as ([s2 m2] & -> & Hm). simpl.
    apply elem_of_group_keys in Hs as (Hs1 & _).
    apply elem_of_group_keys in Hm as (_ & Hm2 & _).
    case_decide as Hk.
    - unfold rows. by rewrite group_cells_observations.
    - rewrite observations_absent; [done| |done|done].
      intros Hin. apply Hk. by apply elem_of_sorted_dups. }
  exists (unstack means). split_and!.
  - unfold calculate_means, log, logged. run_method. rewrite Hdf; simpl.
    by rewrite Hg, ?Hdf.
  - unfold unstack; simpl. apply NoDup_sorted_dups.
  - unfold columns, unstack; simpl. rewrite tabulate_keys.
    apply NoDup_sorted_dups.
  - unfold unstack; simpl. apply Sorted_merge_sort, _.
  - unfold columns, unstack; simpl. rewrite tabulate_keys.
    apply Sorted_merge_sort, _.
  - apply unstack_rectangular.
  - intros s. rewrite Hidx, list_elem_of_fmap. split.
    + intros ([s' m] & -> & (Hs & Hm & i & x & Hi)%elem_of_group_keys).
      eauto 10.
    + intros (Hs & m & i & x & Hm & Hi). exists (s, m). split; [done|].
      apply elem_of_group_keys. eauto 10.
  - intros m. rewrite Hcols, list_elem_of_fmap. split.
    + intros ([s m'] & -> & (Hs & Hm & i & x & Hi)%elem_of_group_keys).
      eauto 10.
    + intros (Hm & s & i & x & Hs & Hi). exists (s, m). split; [done|].
      apply elem_of_group_keys. eauto 10.
  - done.
  - intros s m ys Hs Hm Hys Hsum. rewrite Hcell by done. unfold mean_cell.
    rewrite Hys. pose proof (float64_mean_close ys Hsum) as [Hlo Hhi].
    destruct Hsum as [Hne _]. destruct ys as [|y ys']; [done|]. eauto.
Qed.
End calculate_means.

(** ** The pipelines on the sample data *)

Ltac by_compute := apply (bool_decide_unpack _); vm_compute; exact I.

Lemma pair_eta_fst {A B} (p : A * B) (a : A) : p.1 = a → p = (a, p.2).
Proof. intros <-. by destruct p. Defined.

Section runs.
Import Sample.
#[local] Existing Instance world.
#[local] Existing Instance text.
#[local] Existing Instance floats.

Lemma rename_columns_exchanges_sample :
  ∃ R' st',
    FieldDataProcessor.rename_columns field_processor_loaded = (Ok (Some R'), st')
    ∧ FieldDataProcessor.df st' = Some R'
    ∧ index R' = index field_table
    ∧ frame R' = (λ cs : label * Series,
                    (swap_label (VStr "Annual_yield") (VStr "Crop_type") cs.1, cs.2))
                 <$> frame field_table
    ∧ df_getitem (VStr "Crop_type") R' = df_getitem (VStr "Annual_yield") field_table
    ∧ df_getitem (VStr "Annual_yield") R' = df_getitem (VStr "Crop_type") field_table
    ∧ (∀ c, c ≠ VStr "Annual_yield" → c ≠ VStr "Crop_type" →
            df_getitem c R' = df_getitem c field_table)
    ∧ ∃ st'', FieldDataProcessor.rename_columns st' = (Ok (Some field_table), st'')
              ∧ FieldDataProcessor.df st'' = Some field_table.
Proof.
  apply (rename_columns_exchanges field_processor_loaded field_table
           "Annual_yield" "Crop_type" [("Crop_type", "Annual_yield")]).
  - reflexivity.
  - reflexivity.
  - by_compute.
  - by_compute.
Defined.

Lemma rename_columns_first_pair_only_sample :
  ∃ R' st1 st2,
    FieldDataProcessor.rename_columns field_processor_two_pairs = (Ok (Some R'), st1)
    ∧ FieldDataProcessor.rename_columns
        (FieldDataProcessor.with_columns_to_rename
           [("Annual_yield", "Crop_type")] field_processor_two_pairs)
      = (Ok (Some R'), st2)
    ∧ FieldDataProcessor.df st1 = Some R' ∧ FieldDataProcessor.df st2 = Some R'
    ∧ FieldDataProcessor.logger st1 = FieldDataProcessor.logger st2
    ∧ FieldDataProcessor.logger st1
      = FieldDataProcessor.logger field_processor_two_pairs
        ++ [(INFO, "Swapped columns: " +:+ "Annual_yield" +:+ " with "
                     +:+ "Crop_type")]
    ∧ index R' = index field_table
    ∧ length (frame R') = length (frame field_table)
    ∧ (∀ i s, frame field_table !! i = Some (VStr "Annual_yield", s) →
              frame R' !! i = Some (VStr "Crop_type", s))
    ∧ (VStr "Annual_yield" ∈ columns field_table →
       ∀ i s, frame field_table !! i = Some (VStr "Crop_type", s) →
              frame R' !! i = Some (VStr "Annual_yield", s))
    ∧ (∀ i c s, frame field_table !! i = Some (c, s) →
                c ≠ VStr "Annual_yield" → c ≠ VStr "Crop_type" →
                frame R' !! i = Some (c, s))
    ∧ (∀ C D i c s, (C, D) ∈ [("Field_ID", "Elevation")] →
         frame field_table !! i = Some (c, s) →
         c = VStr C ∨ c = VStr D →
         c ≠ VStr "Annual_yield" → c ≠ VStr "Crop_type" →
         frame R' !! i = Some (c, s)).
Proof.
  apply (rename_columns_first_pair_only field_processor_two_pairs field_table
           "Annual_yield" "Crop_type" [("Field_ID", "Elevation")]).
  - reflexivity.
  - reflexivity.
  - discriminate.
Defined.

Lemma apply_corrections_corrects_sample :
  (∃ R1 st1 a c1,
    FieldDataProcessor.apply_corrections "Crop_type" "Elevation" bean_processor
      = (Ok (Some R1), st1)
    ∧ FieldDataProcessor.df st1 = Some R1
    ∧ df_getitem (VStr "Elevation") R1 = Ok a
    ∧ df_getitem (VStr "Crop_type") R1 = Ok c1
    ∧ length a = length [VInt (-5)] ∧ length c1 = length [VStr "BEAN"]
    ∧ (∀ i z, [VInt (-5)] !! i = Some (VInt z) →
         a !! i = Some (VInt (if decide (z = int64_min) then z else Z.abs z)))
    ∧ (∀ i q, [VInt (-5)] !! i = Some (VFloat q) →
         a !! i = Some (VFloat (if decide (q < 0)%Qc then (- q)%Qc else q)))
    ∧ (∀ i, [VInt (-5)] !! i = Some VNull → a !! i = Some VNull)
    ∧ (∀ i k v, [VStr "BEAN"] !! i = Some (VStr k) →
         dict_lookup [("BEAN", VStr "Bean")] k = Some v → c1 !! i = Some v)
    ∧ (∀ i x, [VStr "BEAN"] !! i = Some x →
         (∀ k, x = VStr k → dict_lookup [("BEAN", VStr "Bean")] k = None) →
         c1 !! i = Some x)
    ∧ ∃ R2 st2,
        FieldDataProcessor.apply_corrections "Crop_type" "Elevation" st1
          = (Ok (Some R2), st2)
        ∧ FieldDataProcessor.df st2 = Some R2
        ∧ df_getitem (VStr "Elevation") R2 = Ok a)
  ∧ (FieldDataProcessor.apply_corrections "Crop_type" "Elevation" bean_processor).1
      = Ok (Some bean_table_corrected).
Proof.
  apply (apply_corrections_corrects bean_processor bean_table
           "Crop_type" "Elevation" [VInt (-5)] [VStr "BEAN"]).
  - reflexivity.
  - by_compute.
  - reflexivity.
  - reflexivity.
  - discriminate.
  - by_compute.
  - by_compute.
  - by_compute.
Defined.

(** The same scenario with the elevation held as text: the table has the
    two columns, and the call raises [TypeError] on the first statement of
    the method; the category is not corrected. *)
Lemma apply_corrections_fails_on_text :
  df_getitem (VStr "Crop_type") bean_table_text = Ok [VStr "BEAN"]
  ∧ df_getitem (VStr "Elevation") bean_table_text = Ok [VStr "-5"]
  ∧ (FieldDataProcessor.apply_corrections "Crop_type" "Elevation"
       bean_processor_text).1 = Raise TypeError
  ∧ FieldDataProcessor.df
      (FieldDataProcessor.apply_corrections "Crop_type" "Elevation"
         bean_processor_text).2 = Some bean_table_text.
Proof. split_and!; by_compute. Qed.

Lemma process_returns_none_sample :
  @None DataFrame = None
  ∧ ∃ st1 m m',
      FieldDataProcessor.process_merge (field_processor "mapping.csv") = (Ok tt, st1)
      ∧ FieldDataProcessor.df st1 = Some m
      ∧ df_drop (VStr "Unnamed: 0") m = Ok m'
      ∧ FieldDataProcessor.df
          (FieldDataProcessor.process (field_processor "mapping.csv")).2 = Some m'.
Proof.
  apply (process_returns_none (field_processor "mapping.csv") None
           (FieldDataProcessor.process (field_processor "mapping.csv")).2).
  vm_compute. reflexivity.
Defined.

Lemma process_drop_unnamed_sample :
  (VStr "Unnamed: 0" ∈ columns merged_table →
   ∃ st2 m',
     FieldDataProcessor.process (field_processor "mapping.csv") = (Ok None, st2)
     ∧ FieldDataProcessor.df st2 = Some m'
     ∧ index m' = index merged_table
     ∧ frame m' = filter (λ cs : label * Series, cs.1 ≠ VStr "Unnamed: 0")
                    (frame merged_table)
     ∧ VStr "Unnamed: 0" ∉ columns m')
  ∧ (VStr "Unnamed: 0" ∉ columns merged_table →
     FieldDataProcessor.process (field_processor "mapping.csv")
       = (Raise KeyError, field_processor_merged "mapping.csv")
     ∧ FieldDataProcessor.df (field_processor_merged "mapping.csv")
       = Some merged_table).
Proof.
  apply (process_drop_unnamed (field_processor "mapping.csv")
           (field_processor_merged "mapping.csv") merged_table).
  - vm_compute. reflexivity.
  - by_compute.
Defined.

(** The mapping read without the index artifact: the merge succeeds, the
    merged table has no column ["Unnamed: 0"], and the last step of
    [process] raises [KeyError] instead of leaving the table as it is. *)
Lemma process_drop_fails_without_unnamed :
  (FieldDataProcessor.process_merge (field_processor "mapping_clean.csv")).1 = Ok tt
  ∧ FieldDataProcessor.df (field_processor_merged "mapping_clean.csv")
    = Some merged_table_clean
  ∧ (VStr "Unnamed: 0" ∉ columns merged_table_clean)
  ∧ (FieldDataProcessor.process_drop (field_processor_merged "mapping_clean.csv")).1
    = Raise KeyError
  ∧ (FieldDataProcessor.process (field_processor "mapping_clean.csv")).1
    = Raise KeyError.
Proof. split_and!; by_compute. Qed.

(** A run of [process] that succeeds: the call evaluates to [None], not
    to the merged table, which is only to be found in [self.df]. *)
Lemma process_sample_returns_none :
  (FieldDataProcessor.process (field_processor "mapping.csv")).1 = Ok None
  ∧ FieldDataProcessor.df (FieldDataProcessor.process (field_processor "mapping.csv")).2
    = Some merged_table_clean.
Proof. split; by_compute. Qed.

Lemma extract_measurement_first_match_sample :
  ((WeatherDataProcessor.extract_measurement (VStr "no data")
      weather_processor_three).1 = Ok (VNull, VNull)
   ↔ ∀ k p, (k, p) ∈ WeatherDataProcessor.patterns weather_processor_three →
            re_search p "no data" = None)
  ∧ WeatherDataProcessor.extract_measurement (VStr "Temp: 7C")
      weather_processor_three
    = (Ok (VStr "reading", VFloat (Qc_of_Z 7)),
       WeatherDataProcessor.logged DEBUG ("Measurement extracted: " +:+ "reading")
         weather_processor_three)
  ∧ ∀ post',
      (WeatherDataProcessor.extract_measurement (VStr "Temp: 7C")
         (WeatherDataProcessor.with_patterns
            ([("rainfall", rainfall)] ++ ("reading", reading) :: post')
            weather_processor_three)).1
      = Ok (VStr "reading", VFloat (Qc_of_Z 7)).
Proof.
  split.
  - apply (extract_measurement_first_match weather_processor_three "no data").
  - assert (re_search rainfall "Temp: 7C" = None) as Hrain by by_compute.
    assert (re_search reading "Temp: 7C" = Some ([None] ++ Some "7" :: []))
      as Hreading by by_compute.
    assert (py_float "7" = Some (Qc_of_Z 7)) as Hfloat by by_compute.
    apply (proj2 (extract_measurement_first_match weather_processor_three
                    "Temp: 7C")
             [("rainfall", rainfall)] "reading" reading
             [("temperature", temperature)] [None] "7" [] (Qc_of_Z 7)).
    + reflexivity.
    + intros k p [[= -> ->]|Hin%elem_of_nil]%elem_of_cons; done.
    + exact Hreading.
    + by repeat constructor.
    + exact Hfloat.
Defined.

Lemma extract_measurement_raises_sample :
  ((∀ x : string, Some x ∉ ([] : list (option string))) →
     (WeatherDataProcessor.extract_measurement (VStr "Temp: 23.5C")
        (processor_with [("temperature", no_group)])).1 = Raise StopIteration)
  ∧ (∀ x, WeatherDataProcessor.first_not_none [] = Ok x → py_float x = None →
       (WeatherDataProcessor.extract_measurement (VStr "Temp: 23.5C")
          (processor_with [("temperature", no_group)])).1 = Raise ValueError).
Proof.
  apply (extract_measurement_raises (processor_with [("temperature", no_group)])
           "Temp: 23.5C" [] "temperature" no_group [] []).
  - reflexivity.
  - intros k p Hin. by apply elem_of_nil in Hin.
  - by_compute.
Defined.

(** Two messages that match a pattern without a usable capture: the
    exception that leaves [extract_measurement] is the built-in
    [StopIteration], respectively [ValueError], and no [ExtractionError]. *)
Lemma extract_measurement_no_extraction_error :
  re_search no_group "Temp: 23.5C" = Some []
  ∧ (WeatherDataProcessor.extract_measurement (VStr "Temp: 23.5C")
       (processor_with [("temperature", no_group)])).1 = Raise StopIteration
  ∧ (WeatherDataProcessor.extract_measurement (VStr "Temp: 23.5C")
       (processor_with [("temperature", no_group)])).1
    ≠ Raise (OtherError "ExtractionError")
  ∧ re_search word_group "Temp: 23.5C" = Some [Some "Temp"]
  ∧ py_float "Temp" = None
  ∧ (WeatherDataProcessor.extract_measurement (VStr "Temp: 23.5C")
       (processor_with [("temperature", word_group)])).1 = Raise ValueError
  ∧ (WeatherDataProcessor.extract_measurement (VStr "Temp: 23.5C")
       (processor_with [("temperature", word_group)])).1
    ≠ Raise (OtherError "ExtractionError").
Proof. split_and!; by_compute. Qed.

Lemma not_loaded_warns_sample :
  WeatherDataProcessor.process_messages weather_processor
    = (Ok None,
       WeatherDataProcessor.logged WARNING
         "weather_df is not initialized, skipping message processing."
         weather_processor)
  ∧ WeatherDataProcessor.calculate_means weather_processor
    = (Ok None,
       WeatherDataProcessor.logged WARNING
         "weather_df is not initialized, cannot calculate means."
         weather_processor).
Proof. apply (not_loaded_warns weather_processor). reflexivity. Defined.

Lemma process_loads_and_extracts_sample :
  @None DataFrame = None
  ∧ ∃ R msgs results,
      read_from_web_CSV "weather.csv" = Ok R
      ∧ df_getitem (VStr "Message") R = Ok msgs
      ∧ sequence (WeatherDataProcessor.extraction
                    (WeatherDataProcessor.patterns weather_processor) <$> msgs)
        = Ok results
      ∧ length results = length msgs
      ∧ WeatherDataProcessor.weather_df
          (WeatherDataProcessor.process weather_processor).2
        = Some (df_setitem (VStr "Value") results.*2
                  (df_setitem (VStr "Measurement") results.*1 R)).
Proof.
assert ((WeatherDataProcessor.process weather_processor).1 = Ok None) as Hrun
  by by_compute.
apply (process_loads_and_extracts weather_processor None
         (WeatherDataProcessor.process weather_processor).2
         (pair_eta_fst _ _ Hrun)).
Defined.

(** A run of [process] that succeeds without handing out the means: the
    call evaluates to [None], [weather_df] holds the table with one
    extraction per row, and the table of means, which [calculate_means]
    computes from it, is another table. *)
Lemma process_does_not_aggregate :
  (WeatherDataProcessor.process weather_processor).1 = Ok None
  ∧ WeatherDataProcessor.weather_df
      (WeatherDataProcessor.process weather_processor).2 = Some extracted_table
  ∧ (WeatherDataProcessor.calculate_means
       (WeatherDataProcessor.process weather_processor).2).1 = Ok (Some means_table)
  ∧ extracted_table ≠ means_table
  ∧ ¬ WeatherDataProcessor.produces_means
        (WeatherDataProcessor.process weather_processor).
Proof.
  assert ((WeatherDataProcessor.process weather_processor).1 = Ok None) as Hr
    by by_compute.
  assert (WeatherDataProcessor.weather_df
            (WeatherDataProcessor.process weather_processor).2
          = Some extracted_table) as Hdf by by_compute.
  assert ((WeatherDataProcessor.calculate_means
             (WeatherDataProcessor.process weather_processor).2).1
          = Ok (Some means_table)) as Hm by by_compute.
  assert (extracted_table ≠ means_table) as Hne by discriminate.
  split_and!; try done.
  intros (T & HT & [HrT | HdT]).
  - rewrite Hr in HrT. discriminate.
  - rewrite Hm in HT. rewrite Hdf in HdT. congruence.
Qed.

Lemma calculate_means_table_sample :
  ∃ T,
    WeatherDataProcessor.calculate_means weather_processor_extracted
      = (Ok (Some T),
         WeatherDataProcessor.logged INFO "Mean values calculated."
           weather_processor_extracted)
    ∧ NoDup (index T) ∧ NoDup (columns T)
    ∧ Sorted value_le (index T) ∧ Sorted value_le (columns T)
    ∧ (∀ c s, (c, s) ∈ frame T → length s = length (index T))
    ∧ (∀ s, s ∈ index T ↔
         s ≠ VNull ∧ ∃ m i x, m ≠ VNull ∧ stations !! i = Some s
                              ∧ measurements !! i = Some m ∧ values !! i = Some x)
    ∧ (∀ m, m ∈ columns T ↔
         m ≠ VNull ∧ ∃ s i x, s ≠ VNull ∧ stations !! i = Some s
                              ∧ measurements !! i = Some m ∧ values !! i = Some x)
    ∧ (∀ s m, s ∈ index T → m ∈ columns T →
         df_at T s m
         = Some (match omap as_number (observations stations measurements values s m)
                 with
                 | [] => VNull
                 | ys => VFloat (float64_mean ys)
                 end))
    ∧ (∀ s m ys, s ∈ index T → m ∈ columns T →
         omap as_number (observations stations measurements values s m) = ys →
         summable ys →
         ∃ q, df_at T s m = Some (VFloat q)
              ∧ (exact_mean ys - mean_error ys ≤ q)%Qc
              ∧ (q ≤ exact_mean ys + mean_error ys)%Qc).
Proof.
  apply (calculate_means_table weather_processor_extracted extracted_table
           stations measurements values).
  - reflexivity.
  - by_compute.
  - reflexivity.
  - reflexivity.
  - reflexivity.
  - by_compute.
  - by_compute.
  - by_compute.
Defined.

(** A loaded table on which [process_messages] has not run: it has no
    column [Measurement] and no column [Value], and [calculate_means]
    raises [KeyError]. *)
Lemma calculate_means_fails_before_extraction :
  WeatherDataProcessor.weather_df weather_processor_loaded = Some weather_table
  ∧ columns weather_table = [VStr "Weather_station_ID"; VStr "Message"]
  ∧ (WeatherDataProcessor.calculate_means weather_processor_loaded).1
    = Raise KeyError.
Proof. split_and!; by_compute. Qed.

(** The scenario of the temperatures 20 and 30 at one station: their
    mean is 25. *)
Example mean_of_20_and_30 :
  mean_cell [VFloat (Qc_of_Z 20); VFloat (Qc_of_Z 30)] = VFloat (Qc_of_Z 25)
  ∧ (WeatherDataProcessor.calculate_means weather_processor_extracted).1
    = Ok (Some means_table).
Proof. split; by_compute. Qed.
End runs.

(** ** initialize_logging *)

Section logging.
Import Logging.

Lemma upper_char_idemp a : upper_char (upper_char a) = upper_char a.
Proof.
  unfold upper_char.
  destruct (bool_decide (97 ≤ nat_of_ascii a ≤ 122)%nat) eqn:Ha; [|by rewrite Ha].
  apply bool_decide_eq_true in Ha. rewrite bool_decide_false; [done|].
  pose proof (nat_ascii_bounded a) as Hb.
  rewrite nat_ascii_embedding; lia.
Qed.

Lemma upper_idemp s : upper (upper s) = upper s.
Proof. induction s as [|a s IH]; simpl; [done|]. by rewrite upper_char_idemp, IH. Qed.

Lemma initialize_logging_handlers s lg :
  handlers (initialize_logging s lg)
  = if decide (upper s = "NONE") then handlers lg
    else match handlers lg with
         | [] => [StreamHandler "%(asctime)s - %(name)s - %(levelname)s - %(message)s"]
         | hs => hs
         end.
Proof.
  unfold initialize_logging.
  destruct (decide (upper s = "DEBUG")) as [Hd|Hd];
    [by rewrite Hd, decide_False|].
  destruct (decide (upper s = "INFO")) as [Hi|Hi];
    [by rewrite Hi, decide_False|].
  by destruct (decide (upper s = "NONE")).
Qed.

Lemma initialize_logging_disabled s lg :
  disabled (initialize_logging s lg)
  = disabled lg || bool_decide (upper s = "NONE").
Proof.
  unfold initialize_logging.
  destruct (decide (upper s = "DEBUG")) as [Hd|Hd];
    [by rewrite Hd, bool_decide_false, orb_false_r|].
  destruct (decide (upper s = "INFO")) as [Hi|Hi];
    [by rewrite Hi, bool_decide_false, orb_false_r|].
  destruct (decide (upper s = "NONE")) as [Hn|Hn]; simpl.
  - by rewrite bool_decide_true, orb_true_r.
  - by rewrite bool_decide_false, orb_false_r.
Qed.

(** X1.  However many instances are made and whatever their levels, the logger
    of a class never gets a second handler: a handler is added only to a
    logger that has none, and the handlers a logger has are kept. *)
Theorem initialize_logging_one_handler (levels : list string) (lg : Logger) :
  length (handlers lg) ≤ 1 →
  length (handlers (foldl (λ l s, initialize_logging s l) lg levels)) ≤ 1
  ∧ (handlers lg ≠ [] →
     handlers (foldl (λ l s, initialize_logging s l) lg levels) = handlers lg).
Proof.
  revert lg. induction levels as [|s levels IH]; intros lg Hlen; simpl; [done|].
  assert (length (handlers (initialize_logging s lg)) ≤ 1
          ∧ (handlers lg ≠ [] → handlers (initialize_logging s lg) = handlers lg))
    as [Hlen' Hkeep].
  { rewrite initialize_logging_handlers.
    destruct (decide (upper s = "NONE")); [done|].
    by destruct (handlers lg). }
  destruct (IH _ Hlen') as [IH1 IH2]. split; [done|].
  intros Hne. rewrite IH2; [by apply Hkeep|]. by rewrite Hkeep.
Qed.

(** X2.  The level ["NONE"] of one instance silences the logger of the class
    for good: no later call of [initialize_logging], with whatever level,
    enables it again, so that no call on the logger is handled any more. *)
Theorem initialize_logging_none_is_final (s : string) (later : list string)
    (lg : Logger) (lvl : level) :
  upper s = "NONE" →
  disabled (foldl (λ l s', initialize_logging s' l) (initialize_logging s lg) later)
    = true
  ∧ is_enabled_for
      (foldl (λ l s', initialize_logging s' l) (initialize_logging s lg) later) lvl
    = Some false.
Proof.
  intros Hs.
  assert (disabled (initialize_logging s lg) = true) as Hd
    by (by rewrite initialize_logging_disabled, bool_decide_true, orb_true_r).
  revert Hd. generalize (initialize_logging s lg). clear.
  induction later as [|s' later IH]; intros lg Hd; simpl.
  - unfold is_enabled_for. by rewrite Hd.
  - apply IH. by rewrite initialize_logging_disabled, Hd.
Qed.

(** X3.  The level is read without regard to case, and every level other than
    DEBUG, INFO and NONE counts as INFO. *)
Theorem initialize_logging_level_names (s : string) (lg : Logger) :
  initialize_logging (upper s) lg = initialize_logging s lg
  ∧ (upper s ≠ "DEBUG" → upper s ≠ "NONE" →
     initialize_logging s lg = initialize_logging "INFO" lg).
Proof.
  split.
  - unfold initialize_logging. by rewrite upper_idemp.
  - intros Hd Hn. unfold initialize_logging.
    rewrite !(decide_False (P := upper s = "DEBUG")) by done.
    rewrite !(decide_False (P := upper s = "NONE")) by done.
    by destruct (decide (upper s = "INFO")).
Qed.

(** X4.  On a logger that is not disabled, the call decides which calls are
    handled: none with NONE, all with DEBUG, and with any other level all
    but those at level DEBUG; the logger no longer propagates to the root
    logger. *)
Theorem initialize_logging_enables (s : string) (lg : Logger) (lvl : level) :
  disabled lg = false →
  is_enabled_for (initialize_logging s lg) lvl
  = Some (if decide (upper s = "NONE") then false
          else if decide (upper s = "DEBUG") then true
          else bool_decide (lvl ≠ DEBUG))
  ∧ propagate (initialize_logging s lg) = false.
Proof.
  intros Hen. unfold initialize_logging, is_enabled_for.
  destruct (decide (upper s = "DEBUG")) as [Hd|Hd].
  { rewrite Hd; simpl. rewrite Hen. by destruct lvl. }
  destruct (decide (upper s = "INFO")) as [Hi|Hi].
  { rewrite Hi; simpl. rewrite Hen. by destruct lvl. }
  destruct (decide (upper s = "NONE")) as [Hn|Hn]; simpl; [done|].
  rewrite Hen. by destruct lvl.
Qed.
End logging.

(** ** rename_columns: errors and invariants *)

Section rename_columns_more.
Context `{DataIngestion}.
Import FieldDataProcessor.

Lemma renamed_inj column1 column2 temp_name x y :
  x ≠ VStr temp_name → y ≠ VStr temp_name →
  renamed column1 column2 temp_name x = renamed column1 column2 temp_name y →
  x = y.
Proof.
  intros Hx Hy. unfold renamed, dict_get; simpl.
  repeat (case_decide; simpl); simplify_eq; try done;
    repeat (case_decide; simpl); simplify_eq; done.
Qed.

Lemma renamed_same column1 temp_name c :
  c ≠ VStr temp_name → renamed column1 column1 temp_name c = c.
Proof.
  intros Hc. unfold renamed, dict_get; simpl.
  repeat (case_decide; simpl); simplify_eq; done.
Qed.

Lemma renamed_only_second column1 column2 temp_name c :
  c ≠ VStr temp_name → c ≠ VStr column1 → column1 ≠ temp_name →
  renamed column1 column2 temp_name c
  = if decide (c = VStr column2) then VStr column1 else c.
Proof.
  intros Hc H1 Ht. unfold renamed, dict_get; simpl.
  repeat (case_decide; simpl); simplify_eq; done.
Qed.

Lemma prefix_app_r p t u :
  String.prefix p t = true → String.prefix p (t +:+ u) = true.
Proof.
  revert t. induction p as [|a p IH]; intros [|b t]; simpl; try done.
  - intros _. by destruct u.
  - destruct (Ascii.ascii_dec a b); [apply IH | done].
Qed.

Lemma temp_name_loop_prefix p fuel cols t :
  String.prefix p t = true →
  String.prefix p (temp_name_loop fuel cols t) = true.
Proof.
  revert t. induction fuel as [|fuel IH]; intros t Hp; simpl; [done|].
  case_decide; [|done]. by apply IH, prefix_app_r.
Qed.

Lemma column_not_temp (R : DataFrame) (c : label) (s : Series) i :
  frame R !! i = Some (c, s) →
  c ≠ VStr (temp_name_loop (length (columns R)) (columns R) "__temp_name_for_swap__").
Proof.
  intros Hi ->.
  apply (temp_name_fresh (columns R) "__temp_name_for_swap__").
  unfold columns. apply list_elem_of_fmap. eexists. split; [|by eapply list_elem_of_lookup_2].
  done.
Qed.

(** X5.  The two failures of [rename_columns]: an empty [columns_to_rename]
    gives [IndexError], whether or not a table is loaded, and a mapping
    that is not empty without a loaded table gives [AttributeError]; the
    object is as it was in both cases. *)
Theorem rename_columns_errors (st : self) :
  (columns_to_rename st = [] → rename_columns st = (Raise IndexError, st))
  ∧ (columns_to_rename st ≠ [] → df st = None →
     rename_columns st = (Raise AttributeError, st)).
Proof.
  split.
  - intros Hcfg. unfold rename_columns. run_method. by rewrite Hcfg.
  - intros Hcfg Hdf. unfold rename_columns, the_df. run_method.
    destruct (columns_to_rename st) as [|[a b] rest]; [done|]. simpl.
    by rewrite Hdf.
Qed.

(** X6.  On a loaded table and a mapping that is not empty, [rename_columns]
    always succeeds, whether or not the two names are columns of the
    table: the row labels, the columns' cells and their order are the
    same, the configuration is the same, and labels that were pairwise
    distinct stay so. *)
Theorem rename_columns_keeps_cells (st : self) (R : DataFrame) :
  df st = Some R →
  columns_to_rename st ≠ [] →
  ∃ R' st',
    rename_columns st = (Ok (Some R'), st') ∧ df st' = Some R'
    ∧ index R' = index R
    ∧ (frame R').*2 = (frame R).*2
    ∧ (NoDup (columns R) → NoDup (columns R'))
    ∧ columns_to_rename st' = columns_to_rename st
    ∧ values_to_rename st' = values_to_rename st
    ∧ weather_map_data st' = weather_map_data st
    ∧ engine st' = engine st.
Proof.
  intros Hdf Hcfg.
  destruct (columns_to_rename st) as [|[A B] rest] eqn:Hc; [done|].
  pose proof (rename_columns_run st R A B rest Hdf Hc) as Hrun; simpl in Hrun.
  eexists _, _. split; [exact Hrun|]. simpl. split_and!; try done.
  - rewrite <-list_fmap_compose. by apply list_fmap_ext.
  - intros Hnd. unfold columns; simpl.
    set (t := temp_name_loop _ _ _).
    assert (((λ cs : label * Series, (renamed A B t cs.1, cs.2)) <$> frame R).*1
            = renamed A B t <$> (frame R).*1) as ->
      by (rewrite <-!list_fmap_compose; by apply list_fmap_ext).
    apply NoDup_fmap_2_strong; [|done].
    intros x y ([x' sx] & -> & (i & Hx)%list_elem_of_lookup)%list_elem_of_fmap
               ([y' sy] & -> & (j & Hy)%list_elem_of_lookup)%list_elem_of_fmap.
    apply renamed_inj; by eapply column_not_temp.
Qed.

(** The frame that [rename_columns] leaves, given what the two calls of
    [rename] make of each label of the table. *)
Lemma rename_columns_frame (st : self) R A B rest (f : label → label) :
  df st = Some R →
  columns_to_rename st = (A, B) :: rest →
  (∀ i c s, frame R !! i = Some (c, s) →
     renamed A B (temp_name_loop (length (columns R)) (columns R)
                    "__temp_name_for_swap__") c = f c) →
  ∃ st', rename_columns st
         = (Ok (Some {| index := index R;
                        frame := (λ cs : label * Series, (f cs.1, cs.2))
                                 <$> frame R |}), st')
         ∧ df st' = Some {| index := index R;
                            frame := (λ cs : label * Series, (f cs.1, cs.2))
                                     <$> frame R |}.
Proof.
  intros Hdf Hcfg Hf.
  pose proof (rename_columns_run st R A B rest Hdf Hcfg) as Hrun; simpl in Hrun.
  set (t := temp_name_loop _ _ _) in *.
  assert ((λ cs : label * Series, (renamed A B t cs.1, cs.2)) <$> frame R
          = (λ cs : label * Series, (f cs.1, cs.2)) <$> frame R) as Hfr.
  { apply list_fmap_ext. intros i [c s] Hi; simpl. f_equal. by eapply Hf. }
  rewrite Hfr in Hrun. eexists. split; [exact Hrun|done].
Qed.

Lemma fmap_relabel_id (R : DataFrame) (f : label → label) :
  (∀ i c s, frame R !! i = Some (c, s) → f c = c) →
  {| index := index R;
     frame := (λ cs : label * Series, (f cs.1, cs.2)) <$> frame R |} = R.
Proof.
  intros Hf. destruct R as [idx fr]; simpl in *. f_equal.
  rewrite <-(list_fmap_id fr) at 2. apply list_fmap_ext.
  intros i [c s] Hi; simpl. f_equal. by eapply Hf.
Qed.

(** X7.  When the two configured names are one and the same, or when neither
    is a column of the table, [rename_columns] succeeds and leaves the
    table as it is: a name that is missing raises nothing. *)
Theorem rename_columns_no_effect (st : self) R A B rest :
  df st = Some R →
  columns_to_rename st = (A, B) :: rest →
  A = B ∨ ((VStr A ∉ columns R) ∧ (VStr B ∉ columns R)) →
  ∃ st', rename_columns st = (Ok (Some R), st') ∧ df st' = Some R.
Proof.
  intros Hdf Hcfg Hcase.
  destruct (rename_columns_frame st R A B rest (λ c, c) Hdf Hcfg)
    as (st' & Hrun & Hdf').
  - intros i c s Hi. pose proof (column_not_temp R c s i Hi) as Hc.
    destruct Hcase as [Heq|[HA HB]].
    + subst B. by apply renamed_same.
    + apply renamed_other; [done| |]; intros ->.
      * apply HA. unfold columns. apply list_elem_of_fmap.
        eexists. split; [|by eapply list_elem_of_lookup_2]. done.
      * apply HB. unfold columns. apply list_elem_of_fmap.
        eexists. split; [|by eapply list_elem_of_lookup_2]. done.
  - assert ({| index := index R;
               frame := (λ cs : label * Series, (cs.1, cs.2)) <$> frame R |} = R)
      as E by (by apply (fmap_relabel_id R (λ c, c))).
    cbv beta in Hrun, Hdf'. rewrite E in Hrun, Hdf'. eauto.
Qed.

(** X8.  When only one of the two names is a column, that column takes the
    other name and nothing else changes: the first name alone is renamed
    to the second, and the second alone to the first, unless the first is
    itself a candidate for the temporary name. *)
Theorem rename_columns_one_sided (st : self) R A B rest :
  df st = Some R →
  columns_to_rename st = (A, B) :: rest →
  (VStr A ∈ columns R → VStr B ∉ columns R →
   ∃ st', rename_columns st
          = (Ok (Some (df_rename [(VStr A, VStr B)] R)), st'))
  ∧ (VStr A ∉ columns R → VStr B ∈ columns R →
     String.prefix "__temp_name_for_swap__" A = false →
     ∃ st', rename_columns st
            = (Ok (Some (df_rename [(VStr B, VStr A)] R)), st')).
Proof.
  intros Hdf Hcfg. split.
  - intros HA HB.
    destruct (rename_columns_frame st R A B rest
                (λ c, dict_get [(VStr A, VStr B)] c c) Hdf Hcfg)
      as (st' & Hrun & _); [|by eauto].
    intros i c s Hi. pose proof (column_not_temp R c s i Hi) as Hc.
    rewrite renamed_swap; [|done|].
    + unfold swap_label, dict_get; simpl.
      destruct (decide (VStr A = c)) as [<-|Hne].
      * by rewrite decide_True.
      * rewrite decide_False by done. rewrite decide_False; [done|].
        intros ->. apply HB. unfold columns. apply list_elem_of_fmap.
        eexists. split; [|by eapply list_elem_of_lookup_2]. done.
    + intros ->. by apply (temp_name_fresh (columns R) "__temp_name_for_swap__").
  - intros HA HB Hpre.
    destruct (rename_columns_frame st R A B rest
                (λ c, dict_get [(VStr B, VStr A)] c c) Hdf Hcfg)
      as (st' & Hrun & _); [|by eauto].
    intros i c s Hi. pose proof (column_not_temp R c s i Hi) as Hc.
    rewrite renamed_only_second; [|done| |].
    + unfold dict_get; simpl.
      destruct (decide (VStr B = c)) as [<-|Hne].
      * by rewrite decide_True.
      * by rewrite decide_False.
    + intros ->. apply HA. unfold columns. apply list_elem_of_fmap.
      eexists. split; [|by eapply list_elem_of_lookup_2]. done.
    + intros ->.
      by rewrite (temp_name_loop_prefix "__temp_name_for_swap__") in Hpre.
Qed.
End rename_columns_more.

(** ** apply_corrections: errors and invariants *)

Lemma dict_set_present {K V} `{EqDecision K} (d : py_dict K V) k v :
  is_Some (dict_lookup d k) → (dict_set d k v).*1 = d.*1.
Proof.
  induction d as [|[k' v'] d IH]; simpl; [by intros [? [=]]|].
  destruct (decide (k' = k)) as [->|Hne]; simpl; [done|].
  intros Hs. f_equal. by apply IH.
Qed.

Lemma dict_lookup_None {K V} `{EqDecision K} (d : py_dict K V) k :
  dict_lookup d k = None ↔ k ∉ d.*1.
Proof.
  induction d as [|[k' v'] d IH]; simpl.
  - split; [intros _; apply not_elem_of_nil | done].
  - rewrite not_elem_of_cons. destruct (decide (k' = k)) as [->|Hne].
    + split; [done | by intros [? _]].
    + rewrite IH. split; [by intros ?; split | by intros [_ ?]].
Qed.

Lemma df_getitem_missing c d : c ∉ columns d ↔ df_getitem c d = Raise KeyError.
Proof.
  unfold df_getitem, columns. rewrite <-dict_lookup_None.
  destruct (dict_lookup (frame d) c); split; done.
Qed.

Lemma df_getitem_Ok c d s : df_getitem c d = Ok s → dict_lookup (frame d) c = Some s.
Proof. unfold df_getitem. destruct (dict_lookup (frame d) c); by intros [= <-]. Qed.

Lemma series_abs_text (s : Series) :
  Exists (λ v, ¬ not_text v) s → series_abs s = Raise TypeError.
Proof.
  unfold series_abs. generalize (dtype_of s). intros t.
  induction s as [|v s IH]; intros Hex.
  - by apply Exists_nil in Hex.
  - rewrite fmap_cons. simpl. destruct (value_abs t v) as [a|x] eqn:E; simpl.
    + apply Exists_cons in Hex as [Hv|Hex].
      * destruct v; simpl in *; try (by destruct Hv); discriminate.
      * by rewrite IH.
    + destruct v, t; simpl in E; by simplify_eq.
Qed.

Section apply_corrections_more.
Context `{DataIngestion}.
Import FieldDataProcessor.

(** X9.  Whenever [apply_corrections] succeeds on a loaded table, the table it
    leaves has the same row labels and the same columns in the same order,
    every column other than the two named ones is as it was, and nothing
    is logged. *)
Theorem apply_corrections_keeps_rest (st : self) R column_name abs_column r st1 :
  df st = Some R →
  apply_corrections column_name abs_column st = (Ok r, st1) →
  ∃ R1, r = Some R1 ∧ df st1 = Some R1
        ∧ index R1 = index R
        ∧ columns R1 = columns R
        ∧ (∀ c, c ≠ VStr column_name → c ≠ VStr abs_column →
                df_getitem c R1 = df_getitem c R)
        ∧ logger st1 = logger st.
Proof.
  intros Hdf. unfold apply_corrections, the_df, set_df. run_method.
  rewrite Hdf; simpl.
  destruct (df_getitem (VStr abs_column) R) as [e|?] eqn:He; simpl; [|done].
  destruct (series_abs e) as [a|?] eqn:Ha; simpl; [|done].
  destruct (df_getitem (VStr column_name) _) as [c|?] eqn:Hc; simpl; [|done].
  pose proof (df_getitem_Ok _ _ _ He) as He'.
  pose proof (df_getitem_Ok _ _ _ Hc) as Hc'. simpl in Hc'.
  intros [= <- <-]. eexists. split_and!; try done.
  - unfold columns, df_setitem; simpl.
    rewrite dict_set_present by (by rewrite Hc').
    rewrite dict_set_present by (by rewrite He').
    done.
  - intros c' H1 H2. by rewrite !df_getitem_setitem_ne.
Qed.

(** X10.  The failures of [apply_corrections] that leave the object as it was:
    no table loaded ([TypeError]), no column of the second name
    ([KeyError]), and a text cell in that column ([TypeError]). *)
Theorem apply_corrections_fails_clean (st : self) column_name abs_column :
  (df st = None →
   apply_corrections column_name abs_column st = (Raise TypeError, st))
  ∧ (∀ R, df st = Some R → VStr abs_column ∉ columns R →
     apply_corrections column_name abs_column st = (Raise KeyError, st))
  ∧ (∀ R e, df st = Some R → df_getitem (VStr abs_column) R = Ok e →
     Exists (λ v, ¬ not_text v) e →
     apply_corrections column_name abs_column st = (Raise TypeError, st)).
Proof.
  unfold apply_corrections, the_df, set_df. run_method. split_and!.
  - intros Hdf. by rewrite Hdf.
  - intros R Hdf Hno%df_getitem_missing. by rewrite Hdf; simpl; rewrite Hno.
  - intros R e Hdf He Hex. rewrite Hdf; simpl. rewrite He; simpl.
    by rewrite series_abs_text.
Qed.

(** X11.  When the table has the second column, a numeric one (int64, or
    float64 with [NaN] for a missing value), but no column of the first
    name, [apply_corrections] raises [KeyError] after it has replaced the
    second column by its absolute values: the table is left half
    corrected. *)
Theorem apply_corrections_fails_half_done (st : self) R column_name abs_column e :
  df st = Some R →
  NoDup (columns R) →
  df_getitem (VStr abs_column) R = Ok e →
  numeric_column e →
  VStr column_name ∉ columns R →
  ∃ st1 R1 a,
    apply_corrections column_name abs_column st = (Raise KeyError, st1)
    ∧ df st1 = Some R1
    ∧ index R1 = index R ∧ columns R1 = columns R
    ∧ (∀ c, c ≠ VStr abs_column → df_getitem c R1 = df_getitem c R)
    ∧ df_getitem (VStr abs_column) R1 = Ok a
    ∧ length a = length e
    ∧ (∀ i z, e !! i = Some (VInt z) →
         a !! i = Some (VInt (if decide (z = int64_min) then z else Z.abs z)))
    ∧ (∀ i q, e !! i = Some (VFloat q) →
         a !! i = Some (VFloat (if decide (q < 0)%Qc then (- q)%Qc else q)))
    ∧ (∀ i, e !! i = Some VNull → a !! i = Some VNull).
Proof.
  intros Hdf _ He Hnum Hno.
  unfold apply_corrections, the_df, set_df. run_method.
  rewrite Hdf; simpl. rewrite He; simpl.
  rewrite (series_abs_numeric e Hnum); simpl.
  assert (df_getitem (VStr column_name)
            (df_setitem (VStr abs_column) (cell_abs <$> e) R) = Raise KeyError)
    as ->.
  { apply df_getitem_missing. unfold columns, df_setitem; simpl.
    pose proof (df_getitem_Ok _ _ _ He) as He'.
    rewrite dict_set_present by (by rewrite He').
    done. }
  eexists _, _, (cell_abs <$> e). split; [done|]. simpl. split_and!; try done.
  - unfold columns, df_setitem; simpl.
    pose proof (df_getitem_Ok _ _ _ He) as He'.
    by rewrite dict_set_present by (by rewrite He').
  - intros c Hc. by rewrite df_getitem_setitem_ne.
  - apply df_getitem_setitem.
  - by rewrite length_fmap.
  - intros i z Hi. unfold Series in *. by rewrite list_lookup_fmap, Hi.
  - intros i q Hi. unfold Series in *. by rewrite list_lookup_fmap, Hi.
  - intros i Hi. unfold Series in *. by rewrite list_lookup_fmap, Hi.
Qed.
End apply_corrections_more.

(** ** The merge of [process] *)

Lemma key_positions_NoDup (k : value) (keys : Series) : NoDup (key_positions k keys).
Proof.
  unfold key_positions.
  eapply sublist_NoDup; [|apply fmap_sublist, sublist_filter].
  rewrite fmap_imap. rewrite (imap_ext _ (λ j _, id j)) by done.
  rewrite imap_seq_0, list_fmap_id. apply NoDup_seq.
Qed.

(** Keys of one kind are the same key when they are the same value. *)
Lemma same_key_alike (a b : value) :
  (is_int64 a ∧ is_int64 b) ∨ (is_str a ∧ is_str b) → same_key a b ↔ a = b.
Proof. destruct a, b; simpl; intros [[]|[]]; done. Qed.

Lemma keys_alike_cell (lk rk : Series) k k' :
  keys_alike lk rk → k ∈ lk → k' ∈ rk → same_key k k' ↔ k = k'.
Proof.
  intros [[Hl Hr]|[Hl Hr]] Hk Hk'; apply same_key_alike.
  - left. split; [exact (proj1 (Forall_forall _ _) Hl _ Hk)
                 |exact (proj1 (Forall_forall _ _) Hr _ Hk')].
  - right. split; [exact (proj1 (Forall_forall _ _) Hl _ Hk)
                  |exact (proj1 (Forall_forall _ _) Hr _ Hk')].
Qed.

Lemma Forall_Exists_clash {A} (P Q : A → Prop) (l : list A) :
  (∀ x, P x → Q x → False) → Forall P l → Exists Q l → False.
Proof.
  intros HPQ Hall (x & Hin & Hx)%Exists_exists.
  eapply HPQ; [|done]. by eapply Forall_forall.
Qed.

(** pandas does not refuse keys of one kind. *)
Lemma keys_alike_no_clash (lk rk : Series) : keys_alike lk rk → ¬ keys_clash lk rk.
Proof.
  intros [[Hl Hr]|[Hl Hr]] [[Hn [_ Hex]]|[[_ Hex] Hn]].
  - apply (Forall_Exists_clash is_int64 is_str rk); [|done..]. by intros [].
  - apply (Forall_Exists_clash is_int64 is_str lk); [|done..]. by intros [].
  - destruct Hn as [[Hne Hint]|[_ Hfl]].
    + destruct lk as [|k lk]; [done|].
      apply Forall_cons in Hl as [Hk _]. apply Forall_cons in Hint as [Hk' _].
      by destruct k.
    + apply (Forall_Exists_clash is_str is_float lk); [|done..]. by intros [].
  - destruct Hn as [[Hne Hint]|[_ Hfl]].
    + destruct rk as [|k rk]; [done|].
      apply Forall_cons in Hr as [Hk _]. apply Forall_cons in Hint as [Hk' _].
      by destruct k.
    + apply (Forall_Exists_clash is_str is_float rk); [|done..]. by intros [].
Qed.

Lemma key_positions_alike (lk rk : Series) k j :
  keys_alike lk rk → k ∈ lk →
  j ∈ key_positions k rk ↔ rk !! j = Some k.
Proof.
  intros Halike Hk. rewrite elem_of_key_positions. split.
  - intros (k' & Hj & Hsame).
    apply (keys_alike_cell lk rk) in Hsame; [by subst|done..|].
    by eapply list_elem_of_lookup_2.
  - intros Hj. exists k. split; [done|].
    apply (keys_alike_cell lk rk); [done..| |done].
    by eapply list_elem_of_lookup_2.
Qed.

Lemma key_positions_unique (lk rk : Series) k :
  keys_alike lk rk → k ∈ lk → NoDup rk → length (key_positions k rk) ≤ 1.
Proof.
  intros Halike Hin Hnd. pose proof (key_positions_NoDup k rk) as Hpos.
  destruct (key_positions k rk) as [|j1 [|j2 js]] eqn:Hk; simpl; [lia|lia|].
  assert (rk !! j1 = Some k) as H1
    by (eapply key_positions_alike; [done..|]; rewrite Hk; apply list_elem_of_here).
  assert (rk !! j2 = Some k) as H2
    by (eapply key_positions_alike; [done..|]; rewrite Hk;
        apply list_elem_of_further, list_elem_of_here).
  pose proof (NoDup_lookup _ _ _ _ Hnd H1 H2) as ->.
  apply NoDup_cons in Hpos as [Hno _]. destruct Hno. apply list_elem_of_here.
Qed.

Lemma key_positions_nil (lk rk : Series) k :
  keys_alike lk rk → k ∈ lk → key_positions k rk = [] ↔ k ∉ rk.
Proof.
  intros Halike Hin. split.
  - intros Hnil (j & Hj)%list_elem_of_lookup.
    eapply key_positions_alike in Hj; [|done..].
    rewrite Hnil in Hj. by apply elem_of_nil in Hj.
  - intros Hno. destruct (key_positions k rk) as [|j js] eqn:Hk; [done|].
    destruct Hno. apply list_elem_of_lookup. exists j.
    eapply key_positions_alike; [done..|]. rewrite Hk. apply list_elem_of_here.
Qed.

Lemma mjoin_imap_singleton {A B} (h : nat → A → B) (l : list A) :
  mjoin (imap (λ i x, [h i x]) l) = imap h l.
Proof.
  revert h. induction l as [|x l IH]; intros h; simpl; [done|].
  f_equal. apply (IH (h ∘ S)).
Qed.

(** With distinct keys on the right, the join has one row per row of the
    left table, in the same order. *)
Lemma join_rows_unique (lk rk : Series) :
  keys_alike lk rk → NoDup rk →
  join_rows lk rk = imap (λ i k, (i, head (key_positions k rk))) lk.
Proof.
  intros Halike Hnd. unfold join_rows.
  rewrite <-(mjoin_imap_singleton (λ i k, (i, head (key_positions k rk))) lk).
  f_equal.
  apply imap_ext. intros i k Hi.
  assert (k ∈ lk) as Hin by (by eapply list_elem_of_lookup_2).
  pose proof (key_positions_unique lk rk k Halike Hin Hnd) as Hlen.
  destruct (key_positions k rk) as [|j [|j' js]]; simpl in *; [done|done|lia].
Qed.

Lemma take_left_unique (s lk rk : list value) :
  keys_alike lk rk → NoDup rk → length s = length lk →
  take_left s (join_rows lk rk) = s.
Proof.
  intros Halike Hnd Hlen. unfold take_left. rewrite join_rows_unique by done.
  unfold Series in *.
  apply list_eq. intros i. rewrite list_lookup_fmap, list_lookup_imap.
  destruct (lk !! i) as [k|] eqn:Hi; simpl.
  - symmetry. apply list_lookup_lookup_total_lt.
    rewrite Hlen. by eapply lookup_lt_Some.
  - symmetry. apply lookup_ge_None. rewrite Hlen. by apply lookup_ge_None.
Qed.

(** A row of the join is without a match when a key of the left table is
    no key of the right table. *)
Lemma join_rows_unmatched (lk rk : Series) :
  keys_alike lk rk →
  Exists (λ p : nat * option nat, p.2 = None) (join_rows lk rk)
  ↔ Exists (λ k, k ∉ rk) lk.
Proof.
  intros Halike. rewrite !Exists_exists. split.
  - intros ([i oj] & Hin & Hoj). simpl in Hoj. subst oj.
    apply elem_of_join_rows in Hin as (k & Hi & Hno).
    assert (k ∈ lk) as Hk by (by eapply list_elem_of_lookup_2).
    exists k. split; [done|]. intros Hin. apply (Hno k Hin).
    by apply (keys_alike_cell lk rk).
  - intros (k & (i & Hi)%list_elem_of_lookup & Hno).
    exists (i, None). split; [|done]. apply elem_of_join_rows.
    exists k. split; [done|]. intros k' Hin Hsame.
    apply (keys_alike_cell lk rk) in Hsame; [by subst|done| |done].
    by eapply list_elem_of_lookup_2.
Qed.

Lemma take_right_unique (s lk rk : list value) i k :
  keys_alike lk rk → NoDup rk → lk !! i = Some k →
  take_right s (join_rows lk rk) !! i
  = Some ((if decide (int64_column s ∧ Exists (λ k', k' ∉ rk) lk)
           then to_float else id)
            (from_option (λ j, s !!! j) VNull (head (key_positions k rk)))).
Proof.
  intros Halike Hnd Hi. unfold take_right.
  pose proof (join_rows_unmatched lk rk Halike) as Hex.
  assert (((λ p : nat * option nat, from_option (λ j, s !!! j) VNull p.2)
             <$> join_rows lk rk) !! i
          = Some (from_option (λ j, s !!! j) VNull (head (key_positions k rk))))
    as Hcell.
  { rewrite join_rows_unique by done. unfold Series in *.
    by rewrite list_lookup_fmap, list_lookup_imap, Hi. }
  destruct (decide (int64_column s ∧ Exists (λ k', k' ∉ rk) lk)) as [Hup|Hno].
  - rewrite decide_True by (split; [apply Hup|apply Hex, Hup]).
    unfold Series in *. by rewrite list_lookup_fmap, Hcell.
  - rewrite decide_False; [done|].
    intros [? ?%Hex]. by apply Hno.
Qed.

Lemma take_right_length (s : Series) (ps : list (nat * option nat)) :
  length (take_right s ps) = length ps.
Proof. unfold take_right. case_decide; by rewrite ?length_fmap. Qed.

(** The merge of two tables that share no name but the key, on keys of
    one kind: the columns of the left table, then those of the right
    table but the key, all under their own names. *)
Lemma df_merge_left_run (key : label) (l r : DataFrame) lk rk :
  df_getitem key l = Ok lk →
  df_getitem key r = Ok rk →
  keys_alike lk rk →
  only_shares key l r →
  df_merge_left key l r
  = Ok {| index := RangeIndex (length (join_rows lk rk));
          frame :=
            ((λ cs : label * Series, (cs.1, take_left cs.2 (join_rows lk rk)))
               <$> frame l)
            ++ ((λ cs : label * Series, (cs.1, take_right cs.2 (join_rows lk rk)))
                  <$> filter (λ cs : label * Series, cs.1 ≠ key) (frame r)) |}.
Proof.
  intros Hl Hr Halike Hshare. unfold df_merge_left. rewrite Hl, Hr. simpl.
  rewrite decide_False by (by apply keys_alike_no_clash).
  assert (∀ c, bool_decide (c ≠ key ∧ c ∈ columns l ∧ c ∈ columns r) = false)
    as Hover.
  { intros c. apply bool_decide_eq_false. intros (Hc & Hcl & Hcr).
    unfold only_shares in Hshare. rewrite Forall_forall in Hshare. auto. }
  do 2 f_equal. f_equal.
  - apply list_fmap_ext. intros i [c s] _. simpl. by rewrite Hover.
  - apply list_fmap_ext. intros i [c s] _. simpl. by rewrite Hover.
Qed.

(** X12.  The merge of two tables that share no column name but the key,
    on keys of one kind (int64 on both sides, or strings on both sides)
    that are pairwise distinct in the mapping: the merged table has
    exactly the rows of the field table, in order, with every field
    column as it was; and a mapping column holds, in the row of a field,
    the cell of the mapping row with the field's key, or nothing when no
    mapping row has that key.  When some field has no mapping row, the
    int64 columns of the mapping come out as float64 columns. *)
Theorem df_merge_left_unique_keys (key : label) (l r : DataFrame) lk rk :
  df_getitem key l = Ok lk →
  df_getitem key r = Ok rk →
  NoDup (columns l) → NoDup (columns r) →
  only_shares key l r →
  keys_alike lk rk →
  NoDup rk →
  (∀ c s, (c, s) ∈ frame l → length s = length lk) →
  (∀ c s, (c, s) ∈ frame r → length s = length rk ∧ Forall exact_in_float64 s) →
  ∃ m, df_merge_left key l r = Ok m
       ∧ index m = RangeIndex (length lk)
       ∧ length (frame m)
         = length (frame l)
           + length (filter (λ cs : label * Series, cs.1 ≠ key) (frame r))
       ∧ (∀ n c s, frame l !! n = Some (c, s) → frame m !! n = Some (c, s))
       ∧ (∀ n c s, filter (λ cs : label * Series, cs.1 ≠ key) (frame r) !! n
                   = Some (c, s) →
            ∃ s', frame m !! (length (frame l) + n) = Some (c, s')
                  ∧ length s' = length lk
                  ∧ ∀ i k, lk !! i = Some k →
                      (k ∉ rk → s' !! i = Some VNull)
                      ∧ (∀ j x, rk !! j = Some k → s !! j = Some x →
                           s' !! i
                           = Some (if decide (int64_column s
                                              ∧ Exists (λ k', k' ∉ rk) lk)
                                   then to_float x
                                   else x))).
Proof.
  intros Hl Hr _ _ Hshare Halike Hnd Hwf _.
  rewrite (df_merge_left_run key l r lk rk Hl Hr Halike Hshare).
  eexists. split; [done|]. simpl. split_and!.
  - by rewrite join_rows_unique, length_imap.
  - by rewrite length_app, !length_fmap.
  - intros n c s Hn. unfold label, Series in *.
    rewrite lookup_app_l by (rewrite length_fmap; by eapply lookup_lt_Some).
    rewrite list_lookup_fmap, Hn. simpl. rewrite take_left_unique; [done..|].
    apply (Hwf c). by eapply list_elem_of_lookup_2.
  - intros n c s Hn. unfold label, Series in *.
    rewrite lookup_app_r by (rewrite length_fmap; lia).
    rewrite length_fmap, Nat.add_comm, Nat.add_sub.
    rewrite list_lookup_fmap, Hn. simpl.
    eexists. split; [done|]. split.
    + by rewrite take_right_length, join_rows_unique, length_imap.
    + intros i k Hi.
      assert (k ∈ lk) as Hin by (by eapply list_elem_of_lookup_2).
      pose proof (take_right_unique s lk rk i k Halike Hnd Hi) as Ht.
      unfold Series in *. rewrite Ht. clear Ht. split.
      * intros Hno. apply (key_positions_nil lk rk k Halike Hin) in Hno.
        rewrite Hno. simpl. by case_decide.
      * intros j x Hj Hx. eapply key_positions_alike in Hj; [|done..].
        pose proof (key_positions_unique lk rk k Halike Hin Hnd) as Hlen.
        destruct (key_positions k rk) as [|j0 [|j1 js]]; simpl in *;
          [by apply elem_of_nil in Hj| |lia].
        apply list_elem_of_singleton in Hj as ->.
        rewrite (list_lookup_total_correct _ _ _ Hx). by case_decide.
Qed.

Lemma join_rows_length (lk rk : Series) :
  length (join_rows lk rk)
  = sum_list ((λ k, Nat.max 1 (length (key_positions k rk))) <$> lk).
Proof.
  unfold join_rows. rewrite length_join, fmap_imap.
  rewrite (imap_ext _ (const (λ k, Nat.max 1 (length (key_positions k rk))))).
  - by rewrite imap_const.
  - intros i k _. simpl.
    destruct (key_positions k rk) as [|j js]; simpl; [done|].
    by rewrite length_fmap.
Qed.

Lemma filter_imap_length {A} (P : A → Prop) `{∀ x, Decision (P x)}
    (h : nat → A → nat * A) (l : list A) :
  (∀ i x, (h i x).2 = x) →
  length (filter (λ jx : nat * A, P jx.2) (imap h l)) = length (filter P l).
Proof.
  revert h. induction l as [|x l IH]; intros h Hh; [done|].
  cbn [imap]. rewrite !filter_cons.
  specialize (IH (h ∘ S) (λ i y, Hh (S i) y)).
  destruct (decide (P (h 0 x).2)) as [HP|HP], (decide (P x)) as [HP'|HP'];
    rewrite Hh in HP; try done; simpl; by rewrite IH.
Qed.

Lemma key_positions_count (lk rk : Series) k :
  keys_alike lk rk → k ∈ lk →
  length (key_positions k rk) = length (filter (λ k', k' = k) rk).
Proof.
  intros Halike Hk. unfold key_positions. rewrite length_fmap.
  rewrite (filter_imap_length (same_key k) pair rk) by done.
  f_equal.
  assert (Forall (λ k', same_key k k' ↔ k' = k) rk) as Hall.
  { apply Forall_forall. intros k' Hk'.
    rewrite (keys_alike_cell lk rk) by done. split; congruence. }
  clear Halike Hk. induction Hall as [|k' rk' Hk' _ IH]; [done|].
  destruct (decide (k' = k)) as [He|He].
  - rewrite (filter_cons_True (same_key k)) by (by apply Hk').
    rewrite (filter_cons_True (λ x, x = k)) by done. by rewrite IH.
  - rewrite (filter_cons_False (same_key k)) by (by rewrite Hk').
    by rewrite (filter_cons_False (λ x, x = k)) by done.
Qed.

(** X13.  The rows of the merge of two tables that share no column name
    but the key, on keys of one kind: the merged table has, for every
    field row, as many rows as the mapping has rows with its key, and one
    row when it has none; it has no fewer rows than the field table, as
    many when the keys of the mapping are pairwise distinct, and every one
    of its columns has one cell per row. *)
Theorem df_merge_left_rows (key : label) (l r : DataFrame) lk rk :
  df_getitem key l = Ok lk →
  df_getitem key r = Ok rk →
  NoDup (columns l) → NoDup (columns r) →
  only_shares key l r →
  keys_alike lk rk →
  ∃ m, df_merge_left key l r = Ok m
       ∧ length (index m)
         = sum_list ((λ k, Nat.max 1 (length (filter (λ k', k' = k) rk))) <$> lk)
       ∧ length lk ≤ length (index m)
       ∧ (NoDup rk → length (index m) = length lk)
       ∧ ∀ c s, (c, s) ∈ frame m → length s = length (index m).
Proof.
  intros Hl Hr _ _ Hshare Halike.
  rewrite (df_merge_left_run key l r lk rk Hl Hr Halike Hshare).
  eexists. split; [done|]. simpl.
  assert (length (RangeIndex (length (join_rows lk rk)))
          = length (join_rows lk rk)) as Hidx
    by (unfold RangeIndex; by rewrite length_fmap, length_seq).
  rewrite Hidx.
  assert (length (join_rows lk rk)
          = sum_list ((λ k, Nat.max 1 (length (filter (λ k', k' = k) rk))) <$> lk))
    as Hlen.
  { rewrite join_rows_length. f_equal. apply list_fmap_ext.
    intros i k Hi. rewrite (key_positions_count lk rk); [done|done|].
    by eapply list_elem_of_lookup_2. }
  split_and!.
  - done.
  - rewrite Hlen. clear.
    induction lk as [|k lk IH]; csimpl; [done|].
    pose proof (Nat.le_max_l 1 (length (filter (λ k', k' = k) rk))). lia.
  - intros Hnd. by rewrite join_rows_unique, length_imap.
  - intros c s [Hin|Hin]%elem_of_app.
    + apply list_elem_of_fmap in Hin as ([c0 s0] & [= -> ->] & _).
      unfold take_left. by rewrite length_fmap.
    + apply list_elem_of_fmap in Hin as ([c0 s0] & [= -> ->] & _).
      apply take_right_length.
Qed.

(** ** FieldDataProcessor.process, stage by stage *)

Section field_pipeline.
Context `{DataIngestion}.
Import FieldDataProcessor.

Lemma rename_columns_swap_run (st : self) R A B rest :
  df st = Some R →
  columns_to_rename st = (A, B) :: rest →
  VStr A ∈ columns R →
  rename_columns st
  = (Ok (Some (df_swap_labels (VStr A) (VStr B) R)),
     mk (db_path st) (sql_query st) (columns_to_rename st) (values_to_rename st)
        (weather_map_data st)
        (logger st ++ [(INFO, "Swapped columns: " +:+ A +:+ " with " +:+ B)])
        (Some (df_swap_labels (VStr A) (VStr B) R)) (engine st)).
Proof.
  intros Hdf Hcfg HA.
  pose proof (rename_columns_run st R A B rest Hdf Hcfg) as Hrun; simpl in Hrun.
  pose proof (temp_name_fresh (columns R) "__temp_name_for_swap__") as Hfresh.
  set (t := temp_name_loop _ _ _) in *.
  assert ((λ cs : label * Series, (renamed A B t cs.1, cs.2)) <$> frame R
          = frame (df_swap_labels (VStr A) (VStr B) R)) as Hfr.
  { unfold df_swap_labels; simpl. apply list_fmap_ext. intros i [c s] Hi; simpl.
    f_equal. apply renamed_swap.
    - by eapply column_not_temp.
    - intros ->. by apply Hfresh. }
  by rewrite Hfr in Hrun.
Qed.

Lemma process_merge_run (st : self) e R A B rest el c :
  create_db_engine (db_path st) = Ok e →
  query_data e (sql_query st) = Ok R →
  columns_to_rename st = (A, B) :: rest →
  VStr A ∈ columns R →
  df_getitem (VStr "Elevation") (df_swap_labels (VStr A) (VStr B) R) = Ok el →
  numeric_column el →
  df_getitem (VStr "Crop_type") (df_swap_labels (VStr A) (VStr B) R) = Ok c →
  let st3 d :=
    mk (db_path st) (sql_query st) (columns_to_rename st) (values_to_rename st)
       (weather_map_data st)
       ((logger st ++ [(INFO, "Sucessfully loaded data.")])
          ++ [(INFO, "Swapped columns: " +:+ A +:+ " with " +:+ B)])
       (Some d) (Some e) in
  process_merge st
  = match read_from_web_CSV (weather_map_data st) with
    | Raise x => (Raise x, st3 (corrected_table st A B R el c))
    | Ok W =>
        match df_merge_left (VStr "Field_ID") (corrected_table st A B R el c) W with
        | Raise x => (Raise x, st3 (corrected_table st A B R el c))
        | Ok m => (Ok tt, st3 m)
        end
    end.
Proof.
  intros He HR Hcfg HA Hel Hnum Hc st3.
  unfold process_merge, ingest_sql_data, weather_station_mapping.
  unfold the_df, set_df, set_engine, log. run_method.
  rewrite He; simpl. rewrite HR; simpl.
  erewrite rename_columns_swap_run; [|done|exact Hcfg|done]. simpl.
  erewrite apply_corrections_run; [|done|exact Hel|done|].
  2:{ rewrite df_getitem_setitem_ne by done. exact Hc. }
  simpl. destruct (read_from_web_CSV _) as [W|x]; simpl; [|done].
  unfold corrected_table.
  by destruct (df_merge_left _ _ W).
Qed.

(** X14.  A run of [process] in which every stage succeeds.  The query
    result has numeric elevations (int64, or float64 with [NaN] for a
    missing value) and crop names of one kind, corrected to strings; the
    mapping has the column ["Unnamed: 0"], keys of the kind of those of the
    field table, no integer beyond 2^53, and no other name in common with
    the field table than ["Field_ID"].  Then the table left in [self.df]
    is the query result with the two names exchanged, the elevations made
    absolute and the crop names corrected, joined with the mapping on
    ["Field_ID"], less the column ["Unnamed: 0"]; the engine is kept, and
    two messages are logged. *)
Theorem process_composes (st : self) e R A B rest el c W lk rk :
  create_db_engine (db_path st) = Ok e →
  query_data e (sql_query st) = Ok R →
  NoDup (columns R) →
  columns_to_rename st = (A, B) :: rest →
  VStr A ∈ columns R →
  df_getitem (VStr "Elevation") (df_swap_labels (VStr A) (VStr B) R) = Ok el →
  numeric_column el →
  df_getitem (VStr "Crop_type") (df_swap_labels (VStr A) (VStr B) R) = Ok c →
  plain_column c →
  to_strings (values_to_rename st) →
  read_from_web_CSV (weather_map_data st) = Ok W →
  NoDup (columns W) →
  (∀ c s, (c, s) ∈ frame W → Forall exact_in_float64 s) →
  df_getitem (VStr "Field_ID") (corrected_table st A B R el c) = Ok lk →
  df_getitem (VStr "Field_ID") W = Ok rk →
  keys_alike lk rk →
  only_shares (VStr "Field_ID") (corrected_table st A B R el c) W →
  VStr "Unnamed: 0" ∈ columns W →
  ∃ st' m m',
    df_merge_left (VStr "Field_ID") (corrected_table st A B R el c) W = Ok m
    ∧ df_drop (VStr "Unnamed: 0") m = Ok m'
    ∧ process st = (Ok None, st')
    ∧ df st' = Some m'
    ∧ engine st' = Some e
    ∧ logger st'
      = logger st ++ [(INFO, "Sucessfully loaded data.");
                      (INFO, "Swapped columns: " +:+ A +:+ " with " +:+ B)].
Proof.
  intros He HR _ Hcfg HA Hel Hnum Hc _ _ HW _ _ Hlk Hrk Halike Hshare Hun.
  pose proof (process_merge_run st e R A B rest el c He HR Hcfg HA Hel Hnum Hc)
    as Hrun. simpl in Hrun. rewrite HW in Hrun.
  pose proof (df_merge_left_run _ _ _ lk rk Hlk Hrk Halike Hshare) as Hm.
  rewrite Hm in Hrun.
  match type of Hm with _ = Ok ?x => set (m := x) in * end.
  assert (VStr "Unnamed: 0" ∈ columns m) as Hin.
  { unfold columns, m; simpl. rewrite fmap_app. apply elem_of_app. right.
    apply list_elem_of_fmap in Hun as ([c0 s0] & Hc0 & Hin0).
    simpl in Hc0. subst c0.
    apply list_elem_of_fmap.
    exists (VStr "Unnamed: 0", take_right s0 (join_rows lk rk)). split; [done|].
    apply list_elem_of_fmap. exists (VStr "Unnamed: 0", s0). split; [done|].
    apply list_elem_of_filter. split; [done|done]. }
  assert (df_drop (VStr "Unnamed: 0") m
          = Ok {| index := index m;
                  frame := filter (λ cs : label * Series, cs.1 ≠ VStr "Unnamed: 0")
                             (frame m) |}) as Hd.
  { unfold df_drop. by rewrite decide_True. }
  eexists _, m, _. split; [exact Hm|]. split; [exact Hd|].
  unfold process. run_method. rewrite Hrun; simpl.
  erewrite process_drop_run by done. rewrite Hd. simpl.
  split_and!; try done. by rewrite <-app_assoc.
Qed.

(** X15.  When the source of the field data fails, so does [process], with the
    same exception: a failed connection leaves the object as it was, and a
    failed query leaves it with the engine stored, no table and nothing
    logged. *)
Theorem process_ingestion_failure (st : self) :
  (∀ x, create_db_engine (db_path st) = Raise x → process st = (Raise x, st))
  ∧ (∀ e x, create_db_engine (db_path st) = Ok e →
       query_data e (sql_query st) = Raise x →
       ∃ st', process st = (Raise x, st')
              ∧ engine st' = Some e ∧ df st' = df st ∧ logger st' = logger st).
Proof.
  unfold process, process_merge, ingest_sql_data, set_engine. run_method. split.
  - intros x Hx. by rewrite Hx.
  - intros e x He Hx. rewrite He; simpl. rewrite Hx; simpl. eauto.
Qed.

(** X16.  When the first three stages succeed, on a query result with
    numeric elevations and crop names of one kind, corrected to strings,
    and the mapping cannot be fetched, or has no column ["Field_ID"],
    [process] fails (with the exception of the fetch, respectively
    [KeyError]) and leaves in [self.df] the corrected field table, not
    yet merged. *)
Theorem process_mapping_failure (st : self) e R A B rest el c :
  create_db_engine (db_path st) = Ok e →
  query_data e (sql_query st) = Ok R →
  NoDup (columns R) →
  columns_to_rename st = (A, B) :: rest →
  VStr A ∈ columns R →
  df_getitem (VStr "Elevation") (df_swap_labels (VStr A) (VStr B) R) = Ok el →
  numeric_column el →
  df_getitem (VStr "Crop_type") (df_swap_labels (VStr A) (VStr B) R) = Ok c →
  plain_column c →
  to_strings (values_to_rename st) →
  (∀ x, read_from_web_CSV (weather_map_data st) = Raise x →
     ∃ st', process st = (Raise x, st')
            ∧ df st' = Some (corrected_table st A B R el c))
  ∧ (∀ W, read_from_web_CSV (weather_map_data st) = Ok W →
       VStr "Field_ID" ∉ columns W →
       ∃ st', process st = (Raise KeyError, st')
              ∧ df st' = Some (corrected_table st A B R el c)).
Proof.
  intros He HR _ Hcfg HA Hel Hnum Hc _ _.
  pose proof (process_merge_run st e R A B rest el c He HR Hcfg HA Hel Hnum Hc)
    as Hrun. simpl in Hrun.
  unfold process. run_method. rewrite Hrun. split.
  - intros x Hx. rewrite Hx. eauto.
  - intros W HW Hno%df_getitem_missing. rewrite HW.
    unfold df_merge_left. rewrite Hno.
    destruct (df_getitem _ (corrected_table _ _ _ _ _ _)) as [lk|x] eqn:E;
      simpl; [by eauto|].
    unfold df_getitem in E. destruct (dict_lookup _ _); simplify_eq. eauto.
Qed.
End field_pipeline.

(** ** extract_measurement: the shape of a result, and the log *)

Section extract_more.
Context `{TextLib}.
Import WeatherDataProcessor.

Lemma extraction_shape items message a b :
  extraction items message = Ok (a, b) →
  (a = VNull ∧ b = VNull)
  ∨ ∃ k p v, (k, p) ∈ items ∧ a = VStr k ∧ b = VFloat v.
Proof.
  induction items as [|[k p] items IH]; simpl.
  - intros [= <- <-]. by left.
  - destruct (search p message) as [[groups|]|e]; simpl; [| |done].
    + destruct (first_not_none groups) as [x|e]; simpl; [|done].
      destruct (py_float x) as [v|]; [|done].
      intros [= <- <-]. right. exists k, p, v. split; [apply list_elem_of_here|done].
    + intros [Hn|(k' & p' & v & Hin & Hab)]%IH; [by left|right].
      exists k', p', v. split; [by apply list_elem_of_further|done].
Qed.

(** X17.  Whatever [extract_measurement] returns is either the pair
    [(None, None)] or the name of a configured pattern with a float: the
    name is missing exactly when the value is. *)
Theorem extract_measurement_shape (st : self) (message : value) a b :
  (extract_measurement message st).1 = Ok (a, b) →
  ((a = VNull ∧ b = VNull)
   ∨ ∃ k p v, (k, p) ∈ patterns st ∧ a = VStr k ∧ b = VFloat v)
  ∧ (a = VNull ↔ b = VNull).
Proof.
  rewrite extract_measurement_value.
  intros [[-> ->]|(k & p & v & Hin & -> & ->)]%extraction_shape.
  - split; [by left|done].
  - split; [right; eauto 10|done].
Qed.

(** X18.  A message that is no string (a missing cell, a number) makes
    [extract_measurement] raise [TypeError] as soon as one pattern is
    configured; with no pattern at all, every message, string or not, is
    answered by [(None, None)]. *)
Theorem extract_measurement_message_type (st : self) (message : value) :
  (patterns st = [] →
   extract_measurement message st
   = (Ok (VNull, VNull), logged DEBUG "No measurement match found." st))
  ∧ (patterns st ≠ [] → (∀ m, message ≠ VStr m) →
     extract_measurement message st = (Raise TypeError, st)).
Proof.
  unfold extract_measurement. run_method. split.
  - intros ->. done.
  - intros Hps Hm. destruct (patterns st) as [|[k p] items]; [done|]. simpl.
    run_method. destruct message; try done. by destruct (Hm s).
Qed.

(** X19.  All that [extract_measurement] does to the object is to log: one call
    at level DEBUG, unless the message is no string, and then nothing. *)
Theorem extract_measurement_only_logs (st : self) (message : value) :
  (extract_measurement message st).2 = st
  ∨ ∃ text, (extract_measurement message st).2 = logged DEBUG text st.
Proof.
  unfold extract_measurement. run_method.
  induction (patterns st) as [|[k p] items IH]; simpl.
  - right. eauto.
  - unfold log. run_method.
    destruct (search p message) as [[groups|]|e]; simpl; [|done|by left].
    right. exists ("Measurement extracted: " +:+ k).
    destruct (first_not_none groups) as [x|e]; simpl; [|done].
    by destruct (py_float x).
Qed.
End extract_more.

(** ** process_messages: failures, and running it twice *)

Lemma dict_set_same {K V} `{EqDecision K} (d : py_dict K V) k v :
  dict_lookup d k = Some v → dict_set d k v = d.
Proof.
  induction d as [|[k' v'] d IH]; simpl; [done|].
  destruct (decide (k' = k)) as [->|Hne]; [by intros [= ->]|].
  intros Hl. by rewrite IH.
Qed.

Lemma df_setitem_same c s d : df_getitem c d = Ok s → df_setitem c s d = d.
Proof.
  intros Hc%df_getitem_Ok. destruct d as [idx fr]. unfold df_setitem; simpl in *.
  by rewrite dict_set_same.
Qed.

Section process_messages_more.
Context `{DataIngestion} `{TextLib}.
Import WeatherDataProcessor.

(** What a call comes to on a loaded table. *)
Lemma process_messages_loaded (st : self) (d : DataFrame) :
  weather_df st = Some d →
  process_messages st
  = match df_getitem (VStr "Message") d with
    | Raise x => (Raise x, st)
    | Ok msgs =>
        let out := apply_method extract_measurement msgs st in
        match out.1 with
        | Raise x => (Raise x, out.2)
        | Ok results =>
            match unzip_pairs results with
            | Raise x => (Raise x, out.2)
            | Ok mv =>
                let T := df_setitem (VStr "Value") mv.2
                           (df_setitem (VStr "Measurement") mv.1 d) in
                (Ok (Some T),
                 mk (weather_station_data out.2) (patterns out.2) (Some T)
                    (logger out.2
                       ++ [(INFO, "Messages processed and measurements extracted.")]))
            end
        end
    end.
Proof.
  intros Hdf. unfold process_messages, set_weather_df, log. run_method.
  rewrite Hdf; simpl.
  destruct (df_getitem _ d) as [msgs|x]; simpl; [|done].
  pose proof (apply_method_extract msgs st) as (_ & Hd & _).
  destruct (apply_method extract_measurement msgs st) as [[results|x] s2];
    simpl in *; [|done].
  destruct (unzip_pairs results) as [mv|x]; simpl; [|done].
  by rewrite Hd, Hdf.
Qed.

(** X20.  A call of [process_messages] that fails, for whatever reason, leaves
    the table and the configuration as they were: no column is added
    before the whole column of messages has been gone through. *)
Theorem process_messages_failure_keeps_table (st : self) x st' :
  process_messages st = (Raise x, st') →
  weather_df st' = weather_df st ∧ patterns st' = patterns st.
Proof.
  destruct (weather_df st) as [d|] eqn:Hdf.
  - rewrite (process_messages_loaded st d Hdf).
    destruct (df_getitem _ d) as [msgs|x']; [|by intros [= <- <-]].
    pose proof (apply_method_extract msgs st) as (Hp & Hd & _).
    destruct (apply_method extract_measurement msgs st) as [[results|x'] s2];
      simpl in *.
    + destruct (unzip_pairs results) as [mv|x'']; [done|].
      intros [= <- <-]. by rewrite Hd, Hp.
    + intros [= <- <-]. by rewrite Hd, Hp.
  - unfold process_messages, log. run_method. by rewrite Hdf; simpl; rewrite Hdf.
Qed.

(** X21.  On a loaded table without a column ["Message"], [process_messages]
    raises [KeyError]; on one whose column ["Message"] has no row, it
    raises [ValueError], as there is nothing to unpack.  The object is as
    it was in both cases. *)
Theorem process_messages_edges (st : self) (d : DataFrame) :
  weather_df st = Some d →
  (VStr "Message" ∉ columns d → process_messages st = (Raise KeyError, st))
  ∧ (df_getitem (VStr "Message") d = Ok [] →
     process_messages st = (Raise ValueError, st)).
Proof.
  intros Hdf. rewrite (process_messages_loaded st d Hdf). split.
  - intros Hno%df_getitem_missing. by rewrite Hno.
  - intros Hm. by rewrite Hm.
Qed.

(** X22.  Running [process_messages] again on the table it has produced gives
    the same table: the columns ["Measurement"] and ["Value"] are written
    over with what they hold. *)
Theorem process_messages_idempotent (st : self) T st1 :
  process_messages st = (Ok (Some T), st1) →
  weather_df st1 = Some T
  ∧ ∃ st2, process_messages st1 = (Ok (Some T), st2) ∧ weather_df st2 = Some T.
Proof.
  destruct (weather_df st) as [d|] eqn:Hdf.
  2:{ unfold process_messages, log. run_method. rewrite Hdf; simpl.
      by rewrite Hdf. }
  rewrite (process_messages_loaded st d Hdf).
  destruct (df_getitem _ d) as [msgs|x] eqn:Hmsgs; [|done].
  pose proof (apply_method_extract msgs st) as (Hp & Hd & _ & Hv).
  destruct (apply_method extract_measurement msgs st) as [[results|x] s2];
    simpl in *; [|done].
  destruct results as [|r0 results]; [done|]. simpl.
  intros [= <- <-]. split; [done|].
  set (rs := r0 :: results) in *.
  set (T := df_setitem (VStr "Value") rs.*2 (df_setitem (VStr "Measurement") rs.*1 d)).
  set (st1 := mk _ _ _ _).
  assert (weather_df st1 = Some T) as Hdf1 by done.
  rewrite (process_messages_loaded st1 T Hdf1).
  assert (df_getitem (VStr "Message") T = Ok msgs) as ->.
  { unfold T. by rewrite !df_getitem_setitem_ne. }
  pose proof (apply_method_extract msgs st1) as (Hp1 & Hd1 & _ & Hv1).
  assert (patterns st1 = patterns st) as Hps by done. rewrite Hps, <-Hv in Hv1.
  destruct (apply_method extract_measurement msgs st1) as [[results'|x] s3];
    simpl in *; [|done].
  injection Hv1 as ->.
  change (unzip_pairs rs) with (Ok (rs.*1, rs.*2) : result _).
  cbv beta iota zeta. cbn [fst snd].
  assert (df_setitem (VStr "Value") rs.*2 (df_setitem (VStr "Measurement") rs.*1 T)
          = T) as ->.
  { rewrite (df_setitem_same (VStr "Measurement") rs.*1 T).
    - apply df_setitem_same. unfold T. apply df_getitem_setitem.
    - unfold T. rewrite df_getitem_setitem_ne by done. apply df_getitem_setitem. }
  eauto.
Qed.
End process_messages_more.

(** ** calculate_means: failures, shape, and after [process] *)

Lemma df_getitem_cases c d :
  (∃ s, df_getitem c d = Ok s ∧ c ∈ columns d)
  ∨ (df_getitem c d = Raise KeyError ∧ c ∉ columns d).
Proof.
  destruct (decide (c ∈ columns d)) as [Hin|Hno].
  - left. destruct (df_getitem c d) as [s|x] eqn:E; [by eauto|].
    unfold df_getitem in E. destruct (dict_lookup _ _) eqn:El; [done|].
    by apply dict_lookup_None in El.
  - right. split; [|done]. by apply df_getitem_missing.
Qed.

Lemma sequence_Ok_elem {A B} (f : A → result B) (l : list A) rs :
  sequence (f <$> l) = Ok rs → ∀ r, r ∈ rs → ∃ x, x ∈ l ∧ f x = Ok r.
Proof.
  revert rs. induction l as [|x l IH]; intros rs; csimpl.
  - intros [= <-] r Hr. by apply elem_of_nil in Hr.
  - destruct (f x) as [b|] eqn:Hx; csimpl; [|done].
    destruct (sequence (f <$> l)) as [bs|] eqn:Hl; csimpl; [|done].
    intros [= <-] r [->|Hr]%elem_of_cons.
    + exists x. split; [apply list_elem_of_here|done].
    + destruct (IH bs eq_refl r Hr) as (y & Hy & Hfy).
      exists y. split; [by apply list_elem_of_further|done].
Qed.

Section calculate_means_more.
Context `{DataIngestion} `{TextLib} `{Float64}.
Import WeatherDataProcessor.

(** X23.  On a loaded table that lacks one of the columns
    ["Weather_station_ID"], ["Measurement"] and ["Value"] (a table on
    which [process_messages] has not run, for one), [calculate_means]
    raises [KeyError], and neither logs nor changes anything. *)
Theorem calculate_means_missing_column (st : self) (d : DataFrame) :
  weather_df st = Some d →
  VStr "Weather_station_ID" ∉ columns d ∨ VStr "Measurement" ∉ columns d
    ∨ VStr "Value" ∉ columns d →
  calculate_means st = (Raise KeyError, st).
Proof.
  intros Hdf Hmiss. unfold calculate_means. run_method. rewrite Hdf; simpl.
  assert (groupby_mean (VStr "Weather_station_ID") (VStr "Measurement")
            (VStr "Value") d = Raise KeyError) as ->; [|done].
  unfold groupby_mean.
  destruct (df_getitem_cases (VStr "Weather_station_ID") d)
    as [(k1 & -> & Hk1)|[-> _]]; [|reflexivity]. simpl.
  destruct (df_getitem_cases (VStr "Measurement") d)
    as [(k2 & -> & Hk2)|[-> _]]; [|reflexivity]. simpl.
  destruct (df_getitem_cases (VStr "Value") d)
    as [(v & -> & Hk3)|[-> _]]; [|reflexivity].
  by destruct Hmiss as [?|[?|?]].
Qed.

(** X24.  Whenever [calculate_means] returns a table, all it has done to the
    object is one call on the logger, and the table is rectangular, with
    row labels that are pairwise distinct and column labels that are
    pairwise distinct. *)
Theorem calculate_means_rectangular (st : self) T st' :
  calculate_means st = (Ok (Some T), st') →
  st' = logged INFO "Mean values calculated." st
  ∧ NoDup (index T) ∧ NoDup (columns T)
  ∧ ∀ c s, (c, s) ∈ frame T → length s = length (index T).
Proof.
  unfold calculate_means, log, logged. run_method.
  destruct (weather_df st) as [d|] eqn:Hdf; simpl; [|done].
  destruct (groupby_mean _ _ _ d) as [means|x]; simpl; [|done].
  intros [= <- <-]. split_and!; [by rewrite ?Hdf| | |].
  - unfold unstack; simpl. apply NoDup_sorted_dups.
  - unfold columns, unstack; simpl. rewrite tabulate_keys. apply NoDup_sorted_dups.
  - apply unstack_rectangular.
Qed.

(** X25.  When no row of the table has a measurement (no message matched a
    pattern), the table of means has no row and no column; it is no
    error. *)
Theorem calculate_means_no_measurement (st : self) (d : DataFrame) k1 k2 v :
  weather_df st = Some d →
  df_getitem (VStr "Weather_station_ID") d = Ok k1 →
  df_getitem (VStr "Measurement") d = Ok k2 →
  df_getitem (VStr "Value") d = Ok v →
  Forall (λ m, m = VNull) k2 →
  calculate_means st
  = (Ok (Some {| index := []; frame := [] |}),
     logged INFO "Mean values calculated." st).
Proof.
  intros Hdf Hk1 Hk2 Hv Hnull.
  assert (grouped_rows k1 k2 v = []) as Hrows.
  { unfold grouped_rows.
    destruct (filter _ _) as [|[[s m] x] rows] eqn:Hf; [done|].
    assert (((s, m), x) ∈ filter (λ r : (value * value) * value,
                                    r.1.1 ≠ VNull ∧ r.1.2 ≠ VNull)
                            (zip (zip k1 k2) v))
      as [[_ Hm] Hin]%list_elem_of_filter by (rewrite Hf; apply list_elem_of_here).
    apply elem_of_zip_l, elem_of_zip_r in Hin. simpl in Hm.
    by eapply Forall_forall in Hnull. }
  unfold calculate_means, log, logged. run_method. rewrite Hdf; simpl.
  unfold groupby_mean. rewrite Hk1, Hk2, Hv; simpl. rewrite Hrows. simpl.
  by rewrite Hdf.
Qed.

(** What a successful [process] leaves in [weather_df]. *)
Lemma process_table (st : self) r st1 :
  process st = (Ok r, st1) →
  ∃ R msgs results,
    read_from_web_CSV (weather_station_data st) = Ok R
    ∧ df_getitem (VStr "Message") R = Ok msgs
    ∧ sequence (extraction (patterns st) <$> msgs) = Ok results
    ∧ patterns st1 = patterns st
    ∧ weather_df st1
      = Some (df_setitem (VStr "Value") results.*2
                (df_setitem (VStr "Measurement") results.*1 R)).
Proof.
  unfold process, weather_station_mapping, set_weather_df, log. run_method.
  destruct (read_from_web_CSV _) as [R|x] eqn:HR; simpl; [|done].
  match goal with |- context [process_messages ?s] =>
    rewrite (process_messages_loaded s R eq_refl) end.
  destruct (df_getitem _ R) as [msgs|x] eqn:Hmsgs; simpl; [|done].
  match goal with |- context [apply_method _ msgs ?s] =>
    pose proof (apply_method_extract msgs s) as (Hp & Hd & _ & Hv);
    destruct (apply_method extract_measurement msgs s) as [[results|x] s2]
  end; simpl in *; [|done].
  destruct (unzip_pairs results) as [mv|x] eqn:Hz; simpl; [|done].
  intros [= <- <-]. exists R, msgs, results. split_and!; try done.
  simpl. destruct results; [done|]. by injection Hz as <-.
Qed.

(** X26.  After a successful [process], [calculate_means] cannot fail on the
    values: it returns a table as soon as the loaded table has a column
    ["Weather_station_ID"], and raises [KeyError] otherwise. *)
Theorem process_then_calculate_means (st : self) r st1 :
  process st = (Ok r, st1) →
  ∃ d, weather_df st1 = Some d
       ∧ (VStr "Weather_station_ID" ∈ columns d →
          ∃ T, calculate_means st1
               = (Ok (Some T), logged INFO "Mean values calculated." st1))
       ∧ (VStr "Weather_station_ID" ∉ columns d →
          calculate_means st1 = (Raise KeyError, st1)).
Proof.
  intros (R & msgs & results & HR & Hmsgs & Hseq & Hps & Hdf)%process_table.
  eexists. split; [exact Hdf|].
  set (d := df_setitem (VStr "Value") _ _) in *.
  assert (df_getitem (VStr "Measurement") d = Ok results.*1) as Hm.
  { unfold d. rewrite df_getitem_setitem_ne by done. apply df_getitem_setitem. }
  assert (df_getitem (VStr "Value") d = Ok results.*2) as Hv
    by apply df_getitem_setitem.
  assert (Forall not_text results.*2) as Hnum.
  { apply Forall_fmap, Forall_forall. intros [a b] Hin.
    destruct (sequence_Ok_elem _ _ _ Hseq _ Hin) as (m & _ & Hx).
    apply extraction_shape in Hx as [[_ ->]|(k & p & v & _ & _ & ->)]; done. }
  split.
  - intros Hin.
    destruct (df_getitem_cases (VStr "Weather_station_ID") d)
      as [(k1 & Hk1 & _)|[_ Hno]]; [|done].
    pose proof (groupby_mean_run _ _ _ d k1 _ _ Hk1 Hm Hv
                  (grouped_rows_not_text _ _ _ Hnum)) as Hg.
    unfold calculate_means, log, logged. run_method. rewrite Hdf; simpl.
    rewrite Hg. simpl. rewrite Hdf. eauto.
  - intros Hno%df_getitem_missing.
    unfold calculate_means. run_method. rewrite Hdf; simpl.
    unfold groupby_mean. by rewrite Hno.
Qed.
End calculate_means_more.

(** ** The further properties on the sample data *)

Section more_runs.
Import Sample.
#[local] Existing Instance world.
#[local] Existing Instance text.
#[local] Existing Instance floats.

Lemma initialize_logging_one_handler_sample :
  length (Logging.handlers
            (foldl (λ l s, Logging.initialize_logging s l) Logging.fresh
               ["info"; "DEBUG"; "none"; "Info"])) ≤ 1
  ∧ (Logging.handlers Logging.fresh ≠ [] →
     Logging.handlers
       (foldl (λ l s, Logging.initialize_logging s l) Logging.fresh
          ["info"; "DEBUG"; "none"; "Info"])
     = Logging.handlers Logging.fresh).
Proof.
  apply (initialize_logging_one_handler ["info"; "DEBUG"; "none"; "Info"]
           Logging.fresh).
  simpl. lia.
Defined.

Lemma initialize_logging_none_is_final_sample :
  Logging.disabled
    (foldl (λ l s', Logging.initialize_logging s' l)
       (Logging.initialize_logging "none" Logging.fresh) ["INFO"; "debug"])
  = true
  ∧ Logging.is_enabled_for
      (foldl (λ l s', Logging.initialize_logging s' l)
         (Logging.initialize_logging "none" Logging.fresh) ["INFO"; "debug"])
      WARNING
    = Some false.
Proof.
  apply (initialize_logging_none_is_final "none" ["INFO"; "debug"]
           Logging.fresh WARNING).
  reflexivity.
Defined.

Lemma initialize_logging_enables_sample :
  Logging.is_enabled_for (Logging.initialize_logging "warning" Logging.fresh) DEBUG
  = Some (if decide (Logging.upper "warning" = "NONE") then false
          else if decide (Logging.upper "warning" = "DEBUG") then true
          else bool_decide (DEBUG ≠ DEBUG))
  ∧ Logging.propagate (Logging.initialize_logging "warning" Logging.fresh) = false.
Proof.
  apply (initialize_logging_enables "warning" Logging.fresh DEBUG). reflexivity.
Defined.

Lemma rename_columns_keeps_cells_sample :
  ∃ R' st',
    FieldDataProcessor.rename_columns field_processor_loaded = (Ok (Some R'), st')
    ∧ FieldDataProcessor.df st' = Some R'
    ∧ index R' = index field_table
    ∧ (frame R').*2 = (frame field_table).*2
    ∧ (NoDup (columns field_table) → NoDup (columns R'))
    ∧ FieldDataProcessor.columns_to_rename st'
      = FieldDataProcessor.columns_to_rename field_processor_loaded
    ∧ FieldDataProcessor.values_to_rename st'
      = FieldDataProcessor.values_to_rename field_processor_loaded
    ∧ FieldDataProcessor.weather_map_data st'
      = FieldDataProcessor.weather_map_data field_processor_loaded
    ∧ FieldDataProcessor.engine st'
      = FieldDataProcessor.engine field_processor_loaded.
Proof.
  apply (rename_columns_keeps_cells field_processor_loaded field_table).
  - reflexivity.
  - discriminate.
Defined.

Lemma rename_columns_no_effect_sample :
  ∃ st', FieldDataProcessor.rename_columns
           (FieldDataProcessor.with_columns_to_rename [("Soil", "Slope")]
              field_processor_loaded)
         = (Ok (Some field_table), st')
         ∧ FieldDataProcessor.df st' = Some field_table.
Proof.
  apply (rename_columns_no_effect
           (FieldDataProcessor.with_columns_to_rename [("Soil", "Slope")]
              field_processor_loaded) field_table "Soil" "Slope" []).
  - reflexivity.
  - reflexivity.
  - right. split; by_compute.
Defined.

Lemma rename_columns_one_sided_sample :
  (VStr "Elevation" ∈ columns field_table → VStr "Altitude" ∉ columns field_table →
   ∃ st', FieldDataProcessor.rename_columns
            (FieldDataProcessor.with_columns_to_rename [("Elevation", "Altitude")]
               field_processor_loaded)
          = (Ok (Some (df_rename [(VStr "Elevation", VStr "Altitude")] field_table)),
             st'))
  ∧ (VStr "Elevation" ∉ columns field_table → VStr "Altitude" ∈ columns field_table →
     String.prefix "__temp_name_for_swap__" "Elevation" = false →
     ∃ st', FieldDataProcessor.rename_columns
              (FieldDataProcessor.with_columns_to_rename [("Elevation", "Altitude")]
                 field_processor_loaded)
            = (Ok (Some (df_rename [(VStr "Altitude", VStr "Elevation")] field_table)),
               st')).
Proof.
  apply (rename_columns_one_sided
           (FieldDataProcessor.with_columns_to_rename [("Elevation", "Altitude")]
              field_processor_loaded) field_table "Elevation" "Altitude" []).
  - reflexivity.
  - reflexivity.
Defined.

Lemma apply_corrections_keeps_rest_sample :
  ∃ R1, Some bean_table_corrected = Some R1
        ∧ FieldDataProcessor.df
            (FieldDataProcessor.apply_corrections "Crop_type" "Elevation"
               bean_processor).2 = Some R1
        ∧ index R1 = index bean_table
        ∧ columns R1 = columns bean_table
        ∧ (∀ c, c ≠ VStr "Crop_type" → c ≠ VStr "Elevation" →
                df_getitem c R1 = df_getitem c bean_table)
        ∧ FieldDataProcessor.logger
            (FieldDataProcessor.apply_corrections "Crop_type" "Elevation"
               bean_processor).2
          = FieldDataProcessor.logger bean_processor.
Proof.
  apply (apply_corrections_keeps_rest bean_processor bean_table
           "Crop_type" "Elevation").
  - reflexivity.
  - apply pair_eta_fst. by_compute.
Defined.

Lemma apply_corrections_fails_half_done_sample :
  ∃ st1 R1 a,
    FieldDataProcessor.apply_corrections "Crop" "Elevation" bean_processor
    = (Raise KeyError, st1)
    ∧ FieldDataProcessor.df st1 = Some R1
    ∧ index R1 = index bean_table ∧ columns R1 = columns bean_table
    ∧ (∀ c, c ≠ VStr "Elevation" → df_getitem c R1 = df_getitem c bean_table)
    ∧ df_getitem (VStr "Elevation") R1 = Ok a
    ∧ length a = length [VInt (-5)]
    ∧ (∀ i z, [VInt (-5)] !! i = Some (VInt z) →
         a !! i = Some (VInt (if decide (z = int64_min) then z else Z.abs z)))
    ∧ (∀ i q, [VInt (-5)] !! i = Some (VFloat q) →
         a !! i = Some (VFloat (if decide (q < 0)%Qc then (- q)%Qc else q)))
    ∧ (∀ i, [VInt (-5)] !! i = Some VNull → a !! i = Some VNull).
Proof.
  apply (apply_corrections_fails_half_done bean_processor bean_table
           "Crop" "Elevation" [VInt (-5)]).
  - reflexivity.
  - by_compute.
  - reflexivity.
  - by_compute.
  - by_compute.
Defined.

Lemma df_merge_left_unique_keys_sample :
  ∃ m, df_merge_left (VStr "Field_ID") field_table mapping_table = Ok m
       ∧ index m = RangeIndex (length [VInt 1; VInt 2])
       ∧ length (frame m)
         = length (frame field_table)
           + length (filter (λ cs : label * Series, cs.1 ≠ VStr "Field_ID")
                       (frame mapping_table))
       ∧ (∀ n c s, frame field_table !! n = Some (c, s) →
                   frame m !! n = Some (c, s))
       ∧ (∀ n c s, filter (λ cs : label * Series, cs.1 ≠ VStr "Field_ID")
                     (frame mapping_table) !! n = Some (c, s) →
            ∃ s', frame m !! (length (frame field_table) + n) = Some (c, s')
                  ∧ length s' = length [VInt 1; VInt 2]
                  ∧ ∀ i k, [VInt 1; VInt 2] !! i = Some k →
                      (k ∉ [VInt 1; VInt 3] → s' !! i = Some VNull)
                      ∧ (∀ j x, [VInt 1; VInt 3] !! j = Some k →
                           s !! j = Some x →
                           s' !! i
                           = Some (if decide
                                        (int64_column s
                                         ∧ Exists (λ k', k' ∉ [VInt 1; VInt 3])
                                             [VInt 1; VInt 2])
                                   then to_float x
                                   else x))).
Proof.
  apply (df_merge_left_unique_keys (VStr "Field_ID") field_table mapping_table
           [VInt 1; VInt 2] [VInt 1; VInt 3]).
  - reflexivity.
  - reflexivity.
  - by_compute.
  - by_compute.
  - by_compute.
  - by_compute.
  - by_compute.
  - intros c s Hin.
    assert (Forall (λ cs : label * Series, length cs.2 = 2) (frame field_table))
      as Hall by by_compute.
    rewrite Forall_forall in Hall. exact (Hall (c, s) Hin).
  - intros c s Hin.
    assert (Forall (λ cs : label * Series,
                      length cs.2 = 2 ∧ Forall exact_in_float64 cs.2)
              (frame mapping_table)) as Hall by by_compute.
    rewrite Forall_forall in Hall. exact (Hall (c, s) Hin).
Defined.

Lemma df_merge_left_rows_sample :
  ∃ m, df_merge_left (VStr "Field_ID") field_table mapping_table = Ok m
       ∧ length (index m)
         = sum_list ((λ k, Nat.max 1 (length (filter (λ k', k' = k)
                                               [VInt 1; VInt 3])))
                       <$> [VInt 1; VInt 2])
       ∧ length [VInt 1; VInt 2] ≤ length (index m)
       ∧ (NoDup [VInt 1; VInt 3] → length (index m) = length [VInt 1; VInt 2])
       ∧ ∀ c s, (c, s) ∈ frame m → length s = length (index m).
Proof.
  apply (df_merge_left_rows (VStr "Field_ID") field_table mapping_table
           [VInt 1; VInt 2] [VInt 1; VInt 3]).
  - reflexivity.
  - reflexivity.
  - by_compute.
  - by_compute.
  - by_compute.
  - by_compute.
Defined.

Lemma process_composes_sample :
  ∃ st' m m',
    df_merge_left (VStr "Field_ID")
      (corrected_table (field_processor "mapping.csv")
         "Annual_yield" "Crop_type" field_table
         [VFloat (Qc_of_Z (-5)); VFloat (Q2Qc (Qmake 21 2))]
         [VStr "BEAN"; VStr "maize"])
      mapping_table = Ok m
    ∧ df_drop (VStr "Unnamed: 0") m = Ok m'
    ∧ FieldDataProcessor.process (field_processor "mapping.csv") = (Ok None, st')
    ∧ FieldDataProcessor.df st' = Some m'
    ∧ FieldDataProcessor.engine st' = Some "sqlite:///farm.db"
    ∧ FieldDataProcessor.logger st'
      = FieldDataProcessor.logger (field_processor "mapping.csv")
        ++ [(INFO, "Sucessfully loaded data.");
            (INFO, "Swapped columns: " +:+ "Annual_yield" +:+ " with "
                     +:+ "Crop_type")].
Proof.
  apply (process_composes (field_processor "mapping.csv") "sqlite:///farm.db"
           field_table "Annual_yield" "Crop_type" [("Crop_type", "Annual_yield")]
           [VFloat (Qc_of_Z (-5)); VFloat (Q2Qc (Qmake 21 2))]
           [VStr "BEAN"; VStr "maize"]
           mapping_table [VInt 1; VInt 2] [VInt 1; VInt 3]).
  - reflexivity.
  - reflexivity.
  - by_compute.
  - reflexivity.
  - by_compute.
  - reflexivity.
  - by_compute.
  - reflexivity.
  - by_compute.
  - by_compute.
  - reflexivity.
  - by_compute.
  - intros c s Hin.
    assert (Forall (λ cs : label * Series, Forall exact_in_float64 cs.2)
              (frame mapping_table)) as Hall by by_compute.
    rewrite Forall_forall in Hall. exact (Hall (c, s) Hin).
  - reflexivity.
  - reflexivity.
  - by_compute.
  - by_compute.
  - by_compute.
Defined.

(** The table that the run on the sample data leaves in [self.df]. *)
Lemma process_composes_table :
  FieldDataProcessor.df
    (FieldDataProcessor.process (field_processor "mapping.csv")).2
  = Some merged_table_clean.
Proof. by_compute. Qed.

Lemma process_mapping_failure_sample :
  (∃ st', FieldDataProcessor.process (field_processor "nowhere.csv")
          = (Raise (OtherError "HTTPError"), st')
          ∧ FieldDataProcessor.df st'
            = Some (corrected_table (field_processor "nowhere.csv")
                      "Annual_yield" "Crop_type" field_table
                      [VFloat (Qc_of_Z (-5)); VFloat (Q2Qc (Qmake 21 2))]
                      [VStr "BEAN"; VStr "maize"]))
  ∧ (∃ st', FieldDataProcessor.process (field_processor "weather.csv")
            = (Raise KeyError, st')
            ∧ FieldDataProcessor.df st'
              = Some (corrected_table (field_processor "weather.csv")
                        "Annual_yield" "Crop_type" field_table
                        [VFloat (Qc_of_Z (-5)); VFloat (Q2Qc (Qmake 21 2))]
                        [VStr "BEAN"; VStr "maize"])).
Proof.
  split.
  - destruct (process_mapping_failure (field_processor "nowhere.csv")
                "sqlite:///farm.db" field_table "Annual_yield" "Crop_type"
                [("Crop_type", "Annual_yield")]
                [VFloat (Qc_of_Z (-5)); VFloat (Q2Qc (Qmake 21 2))]
                [VStr "BEAN"; VStr "maize"]) as [Hfetch _].
    + reflexivity.
    + reflexivity.
    + by_compute.
    + reflexivity.
    + by_compute.
    + reflexivity.
    + by_compute.
    + reflexivity.
    + by_compute.
    + by_compute.
    + apply Hfetch. reflexivity.
  - destruct (process_mapping_failure (field_processor "weather.csv")
                "sqlite:///farm.db" field_table "Annual_yield" "Crop_type"
                [("Crop_type", "Annual_yield")]
                [VFloat (Qc_of_Z (-5)); VFloat (Q2Qc (Qmake 21 2))]
                [VStr "BEAN"; VStr "maize"]) as [_ Hkey].
    + reflexivity.
    + reflexivity.
    + by_compute.
    + reflexivity.
    + by_compute.
    + reflexivity.
    + by_compute.
    + reflexivity.
    + by_compute.
    + by_compute.
    + apply (Hkey weather_table); [reflexivity|by_compute].
Defined.

Lemma extract_measurement_shape_sample :
  ((VStr "rainfall" = VNull ∧ VFloat (Q2Qc (Qmake 15 2)) = VNull)
   ∨ ∃ k p v, (k, p) ∈ WeatherDataProcessor.patterns weather_processor
              ∧ VStr "rainfall" = VStr k ∧ VFloat (Q2Qc (Qmake 15 2)) = VFloat v)
  ∧ (VStr "rainfall" = VNull ↔ VFloat (Q2Qc (Qmake 15 2)) = VNull).
Proof.
  apply (extract_measurement_shape weather_processor (VStr "Rain 7.5mm")).
  by_compute.
Defined.

Lemma process_messages_failure_keeps_table_sample :
  WeatherDataProcessor.weather_df
    (WeatherDataProcessor.process_messages weather_processor_no_group).2
  = WeatherDataProcessor.weather_df weather_processor_no_group
  ∧ WeatherDataProcessor.patterns
      (WeatherDataProcessor.process_messages weather_processor_no_group).2
    = WeatherDataProcessor.patterns weather_processor_no_group.
Proof.
  assert ((WeatherDataProcessor.process_messages weather_processor_no_group).1
          = Raise StopIteration) as Hrun by by_compute.
  apply (process_messages_failure_keeps_table weather_processor_no_group
           StopIteration _ (pair_eta_fst _ _ Hrun)).
Defined.

Lemma process_messages_edges_sample :
  (VStr "Message" ∉ columns mapping_table →
   WeatherDataProcessor.process_messages weather_processor_wrong_table
   = (Raise KeyError, weather_processor_wrong_table))
  ∧ (df_getitem (VStr "Message") mapping_table = Ok [] →
     WeatherDataProcessor.process_messages weather_processor_wrong_table
     = (Raise ValueError, weather_processor_wrong_table)).
Proof.
  apply (process_messages_edges weather_processor_wrong_table mapping_table).
  reflexivity.
Defined.

Lemma process_messages_idempotent_sample :
  WeatherDataProcessor.weather_df
    (WeatherDataProcessor.process_messages weather_processor_loaded).2
  = Some extracted_table
  ∧ ∃ st2,
      WeatherDataProcessor.process_messages
        (WeatherDataProcessor.process_messages weather_processor_loaded).2
      = (Ok (Some extracted_table), st2)
      ∧ WeatherDataProcessor.weather_df st2 = Some extracted_table.
Proof.
  assert ((WeatherDataProcessor.process_messages weather_processor_loaded).1
          = Ok (Some extracted_table)) as Hrun by by_compute.
  apply (process_messages_idempotent weather_processor_loaded extracted_table _
           (pair_eta_fst _ _ Hrun)).
Defined.

Lemma calculate_means_missing_column_sample :
  WeatherDataProcessor.calculate_means weather_processor_loaded
  = (Raise KeyError, weather_processor_loaded).
Proof.
  apply (calculate_means_missing_column weather_processor_loaded weather_table).
  - reflexivity.
  - right. left. by_compute.
Defined.

Lemma calculate_means_rectangular_sample :
  (WeatherDataProcessor.calculate_means weather_processor_extracted).2
  = WeatherDataProcessor.logged INFO "Mean values calculated."
      weather_processor_extracted
  ∧ NoDup (index means_table) ∧ NoDup (columns means_table)
  ∧ ∀ c s, (c, s) ∈ frame means_table → length s = length (index means_table).
Proof.
  assert ((WeatherDataProcessor.calculate_means weather_processor_extracted).1
          = Ok (Some means_table)) as Hrun by by_compute.
  apply (calculate_means_rectangular weather_processor_extracted means_table _
           (pair_eta_fst _ _ Hrun)).
Defined.

Lemma calculate_means_no_measurement_sample :
  WeatherDataProcessor.calculate_means weather_processor_silent
  = (Ok (Some {| index := []; frame := [] |}),
     WeatherDataProcessor.logged INFO "Mean values calculated."
       weather_processor_silent).
Proof.
  apply (calculate_means_no_measurement weather_processor_silent silent_table
           [VInt 0; VInt 1] [VNull; VNull] [VNull; VNull]).
  - reflexivity.
  - reflexivity.
  - reflexivity.
  - reflexivity.
  - repeat constructor.
Defined.

Lemma process_then_calculate_means_sample :
  ∃ d, WeatherDataProcessor.weather_df
         (WeatherDataProcessor.process weather_processor).2 = Some d
       ∧ (VStr "Weather_station_ID" ∈ columns d →
          ∃ T, WeatherDataProcessor.calculate_means
                 (WeatherDataProcessor.process weather_processor).2
               = (Ok (Some T),
                  WeatherDataProcessor.logged INFO "Mean values calculated."
                    (WeatherDataProcessor.process weather_processor).2))
       ∧ (VStr "Weather_station_ID" ∉ columns d →
          WeatherDataProcessor.calculate_means
            (WeatherDataProcessor.process weather_processor).2
          = (Raise KeyError, (WeatherDataProcessor.process weather_processor).2)).
Proof.
  assert ((WeatherDataProcessor.process weather_processor).1 = Ok None) as Hrun
    by by_compute.
  apply (process_then_calculate_means weather_processor None _
           (pair_eta_fst _ _ Hrun)).
Defined.

End more_runs.
